(** * Refocus: rewriting the outgoing chat transcript

    A shallow embedding of [packages/core/src/refocus/index.ts] and the
    properties of its transformation pipeline.

    Conventions of the embedding.
    - A JavaScript string is a [string]; a character stands for one code
      unit, and only code units below 256 are represented.
    - A value that the code only tests for truthiness and that is a string
      ([toolCall.id], [function.name], [tool_call_id]) is a [string]; the
      empty string stands for a missing ([undefined]) one as well, which the
      code never tells apart.
    - A plain object used as a map is an association list with distinct
      keys in insertion order; its keys are compared as strings.  Names of
      members of [Object.prototype] and keys that read as array indices
      are not told apart from other keys: what is proved of the entries of
      the virtual file system is stated for paths that are no names of
      members of [Object.prototype], and does not depend on the order of
      the keys.
    - A JSON number is an integer; what is proved of an offset or a limit
      takes it absent or an integer.
    - A call that may throw returns a [Result]; the only exception that
      leaves the entry point is the one raised when a property of [null]
      is read.
    - [JSON.parse], [JSON.stringify], [fs.readFileSync], the current date and
      the working directory belong to the platform: the pipeline is stated
      over any of them (section variables), and a decoder for a subset of
      JSON is given for the concrete runs. *)

From Stdlib Require Import List String Ascii ZArith Bool Arith Lia DecimalString.
Import ListNotations.
Local Open Scope list_scope.
Local Open Scope string_scope.

Set Implicit Arguments.
Set Warnings "-register-all".


(* ===================================================================== *)
(** ** Strings as the code uses them *)
(* ===================================================================== *)

Module JsString.

Definition LF : ascii := "010"%char.
Definition CR : ascii := "013"%char.

(** White space removed by [String.prototype.trim]: TAB, LF, VT, FF, CR,
    SP and NBSP. *)
Definition isWhiteSpace (c : ascii) : bool :=
  let n := nat_of_ascii c in
  (((9 <=? n) && (n <=? 13)) || (n =? 32) || (n =? 160))%nat.

(** [\d] *)
Definition isDigit (c : ascii) : bool :=
  let n := nat_of_ascii c in ((48 <=? n) && (n <=? 57))%nat.

(** What [.] refuses in a regular expression without the [s] flag. *)
Definition isLineTerminator (c : ascii) : bool :=
  Ascii.eqb c LF || Ascii.eqb c CR.

Fixpoint dropWhile (p : ascii -> bool) (l : list ascii) : list ascii :=
  match l with
  | [] => []
  | c :: r => if p c then dropWhile p r else l
  end.

Fixpoint takeWhile (p : ascii -> bool) (l : list ascii) : list ascii :=
  match l with
  | [] => []
  | c :: r => if p c then c :: takeWhile p r else []
  end.

Definition trimStart (s : string) : string :=
  string_of_list_ascii (dropWhile isWhiteSpace (list_ascii_of_string s)).

Definition trimEnd (s : string) : string :=
  string_of_list_ascii
    (rev (dropWhile isWhiteSpace (rev (list_ascii_of_string s)))).

(** [s.trim()] *)
Definition trim (s : string) : string := trimEnd (trimStart s).

(** [s.split('\n')]: never empty, one more piece than there are line
    feeds. *)
Fixpoint splitLines (s : string) : list string :=
  match s with
  | EmptyString => [EmptyString]
  | String c r =>
      if Ascii.eqb c LF then EmptyString :: splitLines r
      else match splitLines r with
           | [] => [String c EmptyString]
           | h :: t => String c h :: t
           end
  end.

Definition newline : string := String LF EmptyString.

(** [a.join('\n')] *)
Definition joinLines (l : list string) : string := String.concat newline l.

(** [s.slice(0, n)] for [0 <= n] *)
Definition slice0 (n : nat) (s : string) : string := substring 0 n s.

Definition ofNat (n : nat) : string :=
  NilEmpty.string_of_uint (Nat.to_uint n).

Definition ofZ (z : Z) : string :=
  NilEmpty.string_of_int (Z.to_int z).

(** [a.includes(s)] on an array of strings, [set.has(s)] on a set of
    strings. *)
Definition includes (s : string) (l : list string) : bool :=
  existsb (String.eqb s) l.

(** [s.startsWith(p)] *)
Fixpoint startsWith (p s : string) : bool :=
  match p with
  | EmptyString => true
  | String a p' =>
      match s with
      | EmptyString => false
      | String b s' => Ascii.eqb a b && startsWith p' s'
      end
  end.

(** The remainder of [s] after the prefix [p], when [s] starts with it. *)
Fixpoint stripPrefix (p s : string) : option string :=
  match p with
  | EmptyString => Some s
  | String a p' =>
      match s with
      | EmptyString => None
      | String b s' => if Ascii.eqb a b then stripPrefix p' s' else None
      end
  end.

(** [hay.includes(needle)] on texts. *)
Fixpoint containsText (needle hay : string) : bool :=
  startsWith needle hay
  || match hay with
     | EmptyString => false
     | String _ rest => containsText needle rest
     end.

End JsString.

(* ===================================================================== *)
(** ** JSON values and the coercions the code relies on *)
(* ===================================================================== *)

Inductive json : Type :=
| JNull
| JBool (b : bool)
| JNumber (z : Z)
| JString (s : string)
| JArray (items : list json)
| JObject (fields : list (string * json)).

Module Json.

(** Truthiness of a decoded value: [null], [false], [0] and [""] are
    falsy, every array and object is truthy. *)
Definition truthy (v : json) : bool :=
  match v with
  | JNull => false
  | JBool b => b
  | JNumber z => negb (Z.eqb z 0)
  | JString s => negb (String.eqb s "")
  | JArray _ => true
  | JObject _ => true
  end.

Fixpoint assoc {A : Type} (k : string) (l : list (string * A)) : option A :=
  match l with
  | [] => None
  | (k', v) :: r => if String.eqb k k' then Some v else assoc k r
  end.

(** [v.k] on a decoded value other than [null]: the own property of an
    object, [undefined] ([None]) on anything else. *)
Definition field (k : string) (v : json) : option json :=
  match v with
  | JObject fs => assoc k fs
  | _ => None
  end.

(** Truthiness of [v.k], [undefined] being falsy. *)
Definition fieldTruthy (k : string) (v : json) : bool :=
  match field k v with
  | Some x => truthy x
  | None => false
  end.

(** [{...o, k: v}] on the fields of an object: the key keeps its place
    when it is there, and is added last otherwise. *)
Fixpoint setField {A : Type} (k : string) (v : A) (l : list (string * A))
  : list (string * A) :=
  match l with
  | [] => [(k, v)]
  | (k', v') :: r =>
      if String.eqb k k' then (k, v) :: r else (k', v') :: setField k v r
  end.

(** A number as the code computes with it: an integer or [NaN]. *)
Inductive num : Type :=
| NaN
| Num (z : Z).

Definition numToString (n : num) : string :=
  match n with
  | NaN => "NaN"
  | Num z => JsString.ofZ z
  end.

Fixpoint digitsValue (acc : Z) (l : list ascii) : option Z :=
  match l with
  | [] => Some acc
  | c :: r =>
      if JsString.isDigit c
      then digitsValue (10 * acc + (Z.of_nat (nat_of_ascii c) - 48)) r
      else None
  end.

(** [Number(s)] on decimal integer literals; the empty and the blank
    string give 0, any other text gives [NaN].  Literals with a fraction,
    an exponent or a radix prefix, which [Number] reads as well, are outside
    the embedding: the properties below that depend on a number take it
    absent or as an integer. *)
Definition stringToNumber (s : string) : num :=
  match list_ascii_of_string (JsString.trim s) with
  | [] => Num 0
  | c :: r =>
      let signed (sg : Z) (ds : list ascii) :=
        match ds with
        | [] => NaN
        | _ => match digitsValue 0 ds with
               | Some z => Num (sg * z)
               | None => NaN
               end
        end in
      if Ascii.eqb c "-"%char then signed (-1)%Z r
      else if Ascii.eqb c "+"%char then signed 1%Z r
      else signed 1%Z (c :: r)
  end.

(** [String(v)], which is also the property key [v] stands for. *)
Fixpoint toString (v : json) : string :=
  match v with
  | JNull => "null"
  | JBool true => "true"
  | JBool false => "false"
  | JNumber z => JsString.ofZ z
  | JString s => s
  | JArray items =>
      String.concat ","
        (map (fun x => match x with JNull => "" | _ => toString x end) items)
  | JObject _ => "[object Object]"
  end.

(** [Number(v)] *)
Definition toNumber (v : json) : num :=
  match v with
  | JNull => Num 0
  | JBool b => Num (if b then 1 else 0)
  | JNumber z => Num z
  | JString s => stringToNumber s
  | JArray _ | JObject _ => stringToNumber (toString v)
  end.

(** [Math.max(0, v)] *)
Definition mathMax0 (v : json) : num :=
  match toNumber v with
  | NaN => NaN
  | Num z => Num (Z.max 0 z)
  end.

(** [a + v] for a number [a], then read as a number: an addition when
    [v] is [null], a boolean or a number, a concatenation of texts
    otherwise. *)
Definition addThenNumber (a : num) (v : json) : num :=
  match v with
  | JNull | JBool _ | JNumber _ =>
      match a, toNumber v with
      | Num x, Num y => Num (x + y)
      | _, _ => NaN
      end
  | _ => stringToNumber (numToString a ++ toString v)
  end.

(** [Math.min(n, x)] for an integer [n] *)
Definition mathMin (n : Z) (x : num) : num :=
  match x with
  | NaN => NaN
  | Num z => Num (Z.min n z)
  end.

End Json.

(* ===================================================================== *)
(** ** A decoder and an encoder for a subset of JSON

  Used for the concrete runs only: objects, arrays, strings with the
  two-character escapes, integers, [true], [false] and [null]. *)
(* ===================================================================== *)

Module JsonText.

Definition DQUOTE : ascii := ascii_of_nat 34.
Definition BACKSLASH : ascii := ascii_of_nat 92.
Definition TAB : ascii := ascii_of_nat 9.

Definition isJsonSpace (c : ascii) : bool :=
  Ascii.eqb c " "%char || Ascii.eqb c TAB || Ascii.eqb c JsString.LF
  || Ascii.eqb c JsString.CR.

Definition skipWs (l : list ascii) : list ascii :=
  JsString.dropWhile isJsonSpace l.

(** The text of a string after its opening quote. *)
Fixpoint parseStringBody (l : list ascii) : option (string * list ascii) :=
  match l with
  | [] => None
  | c :: r =>
      if Ascii.eqb c DQUOTE then Some (EmptyString, r)
      else if Ascii.eqb c BACKSLASH then
        match r with
        | [] => None
        | e :: r' =>
            let unescaped : option ascii :=
              if Ascii.eqb e DQUOTE then Some DQUOTE
              else if Ascii.eqb e BACKSLASH then Some BACKSLASH
              else if Ascii.eqb e "/"%char then Some "/"%char
              else if Ascii.eqb e "n"%char then Some JsString.LF
              else if Ascii.eqb e "r"%char then Some JsString.CR
              else if Ascii.eqb e "t"%char then Some TAB
              else None in
            match unescaped, parseStringBody r' with
            | Some a, Some (s, rest) => Some (String a s, rest)
            | _, _ => None
            end
        end
      else if (nat_of_ascii c <? 32)%nat then None
      else match parseStringBody r with
           | Some (s, rest) => Some (String c s, rest)
           | None => None
           end
  end.

Definition parseDigits (l : list ascii) : option (Z * list ascii) :=
  let ds := JsString.takeWhile JsString.isDigit l in
  let rest := JsString.dropWhile JsString.isDigit l in
  match ds with
  | [] => None
  | d :: more =>
      if Ascii.eqb d "0"%char && negb (Nat.eqb (List.length more) 0)
      then None
      else match Json.digitsValue 0 ds with
           | Some z => Some (z, rest)
           | None => None
           end
  end.

Definition parseLiteral (word : string) (v : json) (l : list ascii)
  : option (json * list ascii) :=
  match JsString.stripPrefix word (string_of_list_ascii l) with
  | Some rest => Some (v, list_ascii_of_string rest)
  | None => None
  end.

Fixpoint parseValue (fuel : nat) (l : list ascii)
  : option (json * list ascii) :=
  match fuel with
  | O => None
  | S f =>
      match skipWs l with
      | [] => None
      | c :: r =>
          if Ascii.eqb c "{"%char then
            match skipWs r with
            | [] => None
            | c1 :: r1 =>
                if Ascii.eqb c1 "}"%char then Some (JObject [], r1)
                else
                  (fix members (n : nat) (acc : list (string * json))
                       (l : list ascii) : option (json * list ascii) :=
                     match n with
                     | O => None
                     | S n' =>
                         match skipWs l with
                         | [] => None
                         | q :: l1 =>
                             if Ascii.eqb q DQUOTE then
                               match parseStringBody l1 with
                               | None => None
                               | Some (k, l2) =>
                                   match skipWs l2 with
                                   | [] => None
                                   | colon :: l3 =>
                                       if Ascii.eqb colon ":"%char then
                                         match parseValue f l3 with
                                         | None => None
                                         | Some (v, l4) =>
                                             let acc' := Json.setField k v acc in
                                             match skipWs l4 with
                                             | [] => None
                                             | s :: l5 =>
                                                 if Ascii.eqb s ","%char
                                                 then members n' acc' l5
                                                 else if Ascii.eqb s "}"%char
                                                 then Some (JObject acc', l5)
                                                 else None
                                             end
                                         end
                                       else None
                                   end
                               end
                             else None
                         end
                     end) f [] r
            end
          else if Ascii.eqb c "["%char then
            match skipWs r with
            | [] => None
            | c1 :: r1 =>
                if Ascii.eqb c1 "]"%char then Some (JArray [], r1)
                else
                  (fix elements (n : nat) (acc : list json)
                       (l : list ascii) : option (json * list ascii) :=
                     match n with
                     | O => None
                     | S n' =>
                         match parseValue f l with
                         | None => None
                         | Some (v, l1) =>
                             match skipWs l1 with
                             | [] => None
                             | s :: l2 =>
                                 if Ascii.eqb s ","%char
                                 then elements n' (acc ++ [v])%list l2
                                 else if Ascii.eqb s "]"%char
                                 then Some (JArray (acc ++ [v])%list, l2)
                                 else None
                             end
                         end
                     end) f [] r
            end
          else if Ascii.eqb c DQUOTE then
            match parseStringBody r with
            | Some (s, rest) => Some (JString s, rest)
            | None => None
            end
          else if Ascii.eqb c "-"%char then
            match parseDigits r with
            | Some (z, rest) => Some (JNumber (- z), rest)
            | None => None
            end
          else if JsString.isDigit c then
            match parseDigits (c :: r) with
            | Some (z, rest) => Some (JNumber z, rest)
            | None => None
            end
          else if Ascii.eqb c "t"%char then parseLiteral "true" (JBool true) (c :: r)
          else if Ascii.eqb c "f"%char then parseLiteral "false" (JBool false) (c :: r)
          else if Ascii.eqb c "n"%char then parseLiteral "null" JNull (c :: r)
          else None
      end
  end.

(** [JSON.parse(s)], [None] when it throws. *)
Definition parse (s : string) : option json :=
  let l := list_ascii_of_string s in
  match parseValue (S (List.length l)) l with
  | Some (v, rest) =>
      match skipWs rest with
      | [] => Some v
      | _ => None
      end
  | None => None
  end.

Fixpoint escape (s : string) : string :=
  match s with
  | EmptyString => EmptyString
  | String c r =>
      if Ascii.eqb c DQUOTE then String BACKSLASH (String DQUOTE (escape r))
      else if Ascii.eqb c BACKSLASH
      then String BACKSLASH (String BACKSLASH (escape r))
      else if Ascii.eqb c JsString.LF
      then String BACKSLASH (String "n"%char (escape r))
      else if Ascii.eqb c JsString.CR
      then String BACKSLASH (String "r"%char (escape r))
      else if Ascii.eqb c TAB
      then String BACKSLASH (String "t"%char (escape r))
      else String c (escape r)
  end.

Definition quote (s : string) : string :=
  String DQUOTE (escape s ++ String DQUOTE EmptyString).

(** [JSON.stringify(v)] *)
Fixpoint stringify (v : json) : string :=
  match v with
  | JNull => "null"
  | JBool true => "true"
  | JBool false => "false"
  | JNumber z => JsString.ofZ z
  | JString s => quote s
  | JArray items =>
      "[" ++ String.concat "," (map stringify items) ++ "]"
  | JObject fs =>
      "{" ++ String.concat ","
               (map (fun kv => quote (fst kv) ++ ":" ++ stringify (snd kv)) fs)
          ++ "}"
  end.

Fixpoint spaces (n : nat) : string :=
  match n with
  | O => EmptyString
  | S k => String " "%char (spaces k)
  end.

(** [JSON.stringify(v, null, 2)], at nesting depth [d]. *)
Fixpoint stringifyIndent (d : nat) (v : json) : string :=
  match v with
  | JArray (x :: xs) =>
      "[" ++ JsString.newline
      ++ String.concat ("," ++ JsString.newline)
           (map (fun y => spaces (2 * S d) ++ stringifyIndent (S d) y) (x :: xs))
      ++ JsString.newline ++ spaces (2 * d) ++ "]"
  | JObject (f :: fs) =>
      "{" ++ JsString.newline
      ++ String.concat ("," ++ JsString.newline)
           (map (fun kv => spaces (2 * S d) ++ quote (fst kv) ++ ": "
                           ++ stringifyIndent (S d) (snd kv)) (f :: fs))
      ++ JsString.newline ++ spaces (2 * d) ++ "}"
  | _ => stringify v
  end.

End JsonText.

(* ===================================================================== *)
(** ** Text constants of the source *)
(* ===================================================================== *)

Module Text.

(** The template literal returned by [createCleanedSystemPrompt]. *)
Definition cleanedSystemPrompt : string :=
"You are an interactive CLI agent specializing in software engineering tasks. Your primary approach is to systematically discover and understand file content to build complete knowledge before taking action.

# Core Philosophy: File Content Discovery

Programming tasks require understanding existing code, patterns, and structures. Your workflow centers on:

1. **Search First:** Use search tools to locate relevant files, functions, and patterns
2. **Read Systematically:** Read discovered files to understand implementation details
3. **Build Context:** Continue searching and reading until you have complete understanding
4. **Act Informed:** Only implement changes after thorough file content analysis

# Primary Workflow: Discovery ‚Üí Understanding ‚Üí Action

## Phase 1: Discovery
- **Search for Patterns:** Use search tools to find relevant code patterns, function names, imports
- **Identify Key Files:** Locate configuration files, main implementation files, test files
- **Map Dependencies:** Find how components connect by searching for imports and references

## Phase 2: Understanding  
- **Read Core Files:** Read the main files identified during discovery
- **Understand Conventions:** Analyze code style, architectural patterns, naming conventions
- **Study Context:** Read surrounding code to understand how pieces fit together
- **Verify Assumptions:** Search for additional examples to confirm understanding

## Phase 3: Informed Action
- **Plan with Knowledge:** Create implementation plans based on discovered patterns
- **Follow Conventions:** Implement using the exact styles and patterns found in existing code
- **Maintain Consistency:** Ensure changes integrate seamlessly with existing codebase

# Tool Usage Strategy

## Search Tools (Primary Discovery Method)
- Use search extensively to find relevant code before reading files
- Search for function names, class names, import patterns, and usage examples
- Search for similar implementations to understand existing patterns

## Read Tools (Deep Understanding)
- Read files systematically after identifying them through search
- Focus on understanding implementation details, not just skimming
- Read related files to understand full context

## Parallel Operations
- Execute multiple search operations in parallel to build comprehensive understanding quickly
- Read multiple related files in parallel once identified

# Core Principles

- **Never Assume:** Always search and read to verify what exists in the codebase
- **Understand Before Acting:** Build complete understanding through file content analysis
- **Follow Discovered Patterns:** Mimic exactly what you find in existing code
- **Context is King:** Read surrounding code to understand how changes should integrate
- **Search ‚Üí Read ‚Üí Understand ‚Üí Act:** This is your fundamental workflow

# Operational Guidelines

- **Concise Communication:** Use minimal text output, let tools do the work
- **Tool-Centric Approach:** Prefer using tools over making assumptions
- **Absolute Paths:** Always use absolute paths for file operations
- **Security First:** Never expose secrets or sensitive information".

Definition fileStatesBanner : string := "‚ïê‚ïê‚ïê üìÅ CURRENT FILE STATES ‚ïê‚ïê‚ïê".
Definition environmentBanner : string := "‚ïê‚ïê‚ïê üåç CURRENT ENVIRONMENT ‚ïê‚ïê‚ïê".
Definition toolCallsBanner : string := "‚ïê‚ïê‚ïê üîß PREVIOUS TOOL CALLS AND RESULTS ‚ïê‚ïê‚ïê".

Definition pleaseContinue : string := "Please continue.".

(** Three backquotes, the fence of a code block. *)
Definition fence : string := "```".

End Text.

(* ===================================================================== *)
(** ** Data model *)
(* ===================================================================== *)

(** [message.content]: a string, an array of content parts, or
    [null]/[undefined]. *)
Inductive Content : Type :=
| CText (s : string)
| CParts (parts : list string)
| CNull.

(** [ChatCompletionMessageToolCall]: [id], [function.name] and
    [function.arguments]. *)
Record ToolCall : Type := mkToolCall {
  tc_id : string;
  tc_name : string;
  tc_arguments : string
}.

(** The [tool_calls] property of an assistant message: absent, present
    without a list ([null], [undefined]), or a list. *)
Inductive ToolCalls : Type :=
| NoToolCallsKey
| ToolCallsNull
| ToolCallsList (calls : list ToolCall).

(** [ChatCompletionMessageParam], by role.  [OtherRole] stands for the
    roles the code has no case for ([developer], [function]). *)
Inductive Message : Type :=
| System (content : Content)
| User (content : Content)
| Assistant (content : Content) (tool_calls : ToolCalls)
| Tool (content : Content) (tool_call_id : string)
| OtherRole (content : Content).

Inductive OperationType : Type := OpRead | OpWrite | OpEdit.

(** [FileOperation].  [filepath] is whatever the decoded arguments hold:
    a string, or the first element of [absolute_paths]. *)
Record FileOperation : Type := mkFileOperation {
  op_type : OperationType;
  filepath : json;
  op_content : option json;
  toolCallId : string
}.

(** [{ toolCall, result }] *)
Record ToolCallPair : Type := mkPair {
  toolCall : ToolCall;
  result : string
}.

(** [{ [lineNumber: number]: string }]: integer keys, enumerated in
    ascending order. *)
Definition LineMap : Type := list (nat * string).

(** [VirtualFileSystem]: own properties in insertion order, each key being
    the text of a path. *)
Definition VirtualFileSystem : Type := list (string * LineMap).

Record Range : Type := mkRange {
  range_start : nat;
  range_end : nat;
  range_content : list string
}.

Record Strategy : Type := mkStrategy {
  keepLastToolSequence : bool;
  lastToolCallIds : list string
}.

Record DeconstructedMessages : Type := mkDeconstructed {
  systemPrompt : string;
  cannedUserContext : string;
  cannedAssistantReply : string;
  realConversation : list Message;
  toolCallPairs : list ToolCallPair;
  virtualFileSystem : VirtualFileSystem;
  fileOperationToolCallIds : list string
}.

(** The outcome of a call that may throw. *)
Inductive Result (A : Type) : Type :=
| Ok (a : A)
| Throw.
Arguments Ok {A} a.
Arguments Throw {A}.

Definition bind {A B : Type} (r : Result A) (k : A -> Result B) : Result B :=
  match r with
  | Ok a => k a
  | Throw => Throw
  end.

Notation "x <- r ;; k" := (bind r (fun x => k))
  (at level 61, r at next level, right associativity).

(** The list a call returned, none when it threw. *)
Definition returned {A : Type} (r : Result (list A)) : list A :=
  match r with
  | Ok l => l
  | Throw => []
  end.

Definition nonEmpty (s : string) : bool := negb (String.eqb s "").

Definition isAssistant (m : Message) : bool :=
  match m with Assistant _ _ => true | _ => false end.


Definition isUser (m : Message) : bool :=
  match m with User _ => true | _ => false end.

Definition isTool (m : Message) : bool :=
  match m with Tool _ _ => true | _ => false end.

(** [content && typeof content === 'string' && content.trim() !== ''] *)
Definition hasContent (c : Content) : bool :=
  match c with
  | CText s => nonEmpty s && nonEmpty (JsString.trim s)
  | _ => false
  end.

(** [typeof content === 'string' && content.trim() === 'Please continue.'] *)
Definition isPleaseContinue (c : Content) : bool :=
  match c with
  | CText s => String.eqb (JsString.trim s) Text.pleaseContinue
  | _ => false
  end.

(** [lines[k] = v] on a line map. *)
Fixpoint lineMapSet (k : nat) (v : string) (m : LineMap) : LineMap :=
  match m with
  | [] => [(k, v)]
  | (k', v') :: r =>
      if (k =? k')%nat then (k, v) :: r
      else if (k <? k')%nat then (k, v) :: (k', v') :: r
      else (k', v') :: lineMapSet k v r
  end.

(** [Object.assign(target, source)] on line maps. *)
Definition lineMapAssign (target source : LineMap) : LineMap :=
  fold_left (fun m kv => lineMapSet (fst kv) (snd kv) m) source target.

(** [tool_calls.some(tc => tc.id === toolCallId)] *)
Definition hasToolCallId (toolCallId : string) (calls : list ToolCall) : bool :=
  existsb (fun tc => String.eqb (tc_id tc) toolCallId) calls.

(* ===================================================================== *)
(** ** Sample data for the concrete runs *)
(* ===================================================================== *)

Module Examples.

(** A disk holding three files. *)
Definition files : list (string * string) :=
  [ ("/notes.txt", "one" ++ JsString.newline ++ "two" ++ JsString.newline);
    ("/a.txt", "one" ++ JsString.newline ++ "two" ++ JsString.newline
               ++ "three" ++ JsString.newline ++ "four");
    ("/b.txt", "X") ].

Definition readFileSync (p : json) : option string :=
  match p with
  | JString s => Json.assoc s files
  | _ => None
  end.

Definition today : string := "Mon Nov 02 2026".
Definition cwd : string := "/work".


(** [write_file] with a content. *)
Definition writeArgs : json :=
  JObject [("file_path", JString "/b.txt"); ("content", JString "OLD")].
Definition writeCall : ToolCall :=
  mkToolCall "call_w1" "write_file" (JsonText.stringify writeArgs).

(** [read_file] of the first three lines of a file. *)
Definition readArgs : json :=
  JObject [("absolute_path", JString "/a.txt"); ("offset", JNumber 0);
           ("limit", JNumber 3)].
Definition readCall : ToolCall :=
  mkToolCall "call_r1" "read_file" (JsonText.stringify readArgs).

(** The same call without an id. *)
Definition readCallNoId : ToolCall :=
  mkToolCall "" "read_file" (JsonText.stringify readArgs).

Definition shellCall : ToolCall :=
  mkToolCall "call_s1" "run_shell_command"
    (JsonText.stringify (JObject [("command", JString "ls")])).

(** [search_file_content], and a result with twenty-one result lines. *)
Definition searchCall : ToolCall :=
  mkToolCall "call_g1" "search_file_content"
    (JsonText.stringify (JObject [("pattern", JString "hit")])).
Definition searchResult : string :=
  JsonText.stringify
    (JObject [("output", JString (JsString.joinLines (repeat "L7: hit" 21)))]).

Definition preamble : list Message :=
  [ System (CText "You are a helpful agent.");
    User (CText "Today's date is Monday. My operating system is: linux");
    Assistant (CText "Got it.") NoToolCallsKey ].

(** A transcript whose third message carries a tool call, answered by the
    fourth. *)
Definition callInPreamble : list Message :=
  [ System (CText "You are a helpful agent.");
    User (CText "context");
    Assistant (CText "Got it.") (ToolCallsList [shellCall]);
    Tool (CText "done") "call_s1" ].

(** A read of a file as the last, kept, tool cycle. *)
Definition lastCycleRead : list Message :=
  (preamble
   ++ [ User (CText "show me the file");
        Assistant (CText "") (ToolCallsList [readCall]);
        Tool (CText "one") "call_r1" ])%list.


(** A search as the last tool cycle. *)
Definition lastCycleSearch : list Message :=
  (preamble
   ++ [ Assistant (CText "") (ToolCallsList [searchCall]);
        Tool (CText searchResult) "call_g1" ])%list.

(** A fan-out of two calls, and a stale prompt to continue. *)
Definition fanOut : list Message :=
  [ User (CText "Please continue.");
    Assistant (CText "working") (ToolCallsList [shellCall; readCall]);
    Tool (CText "done") "call_s1";
    Tool (CText "one") "call_r1" ].

(** A completed [read_file] cycle whose arguments are the text [null]. *)
Definition nullArguments : list Message :=
  (preamble
   ++ [ Assistant (CText "") (ToolCallsList [mkToolCall "call_n1" "read_file" "null"]);
        Tool (CText "nothing") "call_n1";
        User (CText "what next?") ])%list.

(** A completed shell cycle, a question, and a read as the last cycle. *)
Definition twoCycles : list Message :=
  (preamble
   ++ [ Assistant (CText "") (ToolCallsList [shellCall]);
        Tool (CText "done") "call_s1";
        User (CText "and the file?");
        Assistant (CText "") (ToolCallsList [readCall]);
        Tool (CText "one") "call_r1" ])%list.

(** An input shorter than the preamble. *)
Definition shortInput : list Message :=
  [ User (CText "list the files");
    Assistant (CText "") (ToolCallsList [shellCall]) ].


End Examples.

(* ===================================================================== *)
(** ** The pipeline, over the platform it runs on *)
(* ===================================================================== *)

Section Refocus.

(** [JSON.parse], [None] when it throws. *)
Variable JSON_parse : string -> option json.
(** [JSON.stringify(v)] and [JSON.stringify(v, null, 2)]. *)
Variable JSON_stringify : json -> string.
Variable JSON_stringify_indent2 : json -> string.
(** [fs.readFileSync(p, 'utf8')] on the value given as path, [None] when it
    throws. *)
Variable readFileSync : json -> option string.
(** [new Date().toDateString()] and [process.cwd()]. *)
Variable currentDateString : string.
Variable processCwd : string.

(** [toolCall.function?.arguments || '{}'] *)
Definition argumentsOrEmpty (tc : ToolCall) : string :=
  if nonEmpty (tc_arguments tc) then tc_arguments tc else "{}".

(** Lines 83-150.  Reading a property of [null] throws. *)
Definition extractFileOperationFromToolCall (toolCall : ToolCall) (result : string)
  : Result (option FileOperation) :=
  let functionName := tc_name toolCall in
  if negb (nonEmpty functionName) || negb (nonEmpty (tc_id toolCall)) then Ok None
  else
    match JSON_parse (argumentsOrEmpty toolCall) with
    | None => Ok None
    | Some args =>
        if String.eqb functionName "read_file"
           || String.eqb functionName "read_many_files" then
          match args with
          | JNull => Throw
          | _ =>
              match Json.field "absolute_path" args with
              | Some (JString p) =>
                  if nonEmpty p
                  then Ok (Some (mkFileOperation OpRead (JString p)
                                   (Some (JString result)) (tc_id toolCall)))
                  else
                    match Json.field "absolute_paths" args with
                    | Some (JArray (first :: _)) =>
                        Ok (Some (mkFileOperation OpRead first
                                    (Some (JString result)) (tc_id toolCall)))
                    | _ => Ok None
                    end
              | _ =>
                  match Json.field "absolute_paths" args with
                  | Some (JArray (first :: _)) =>
                      Ok (Some (mkFileOperation OpRead first
                                  (Some (JString result)) (tc_id toolCall)))
                  | _ => Ok None
                  end
              end
          end
        else if String.eqb functionName "write_file" then
          match args with
          | JNull => Throw
          | _ =>
              match Json.field "file_path" args with
              | Some (JString p) =>
                  if nonEmpty p && Json.fieldTruthy "content" args
                  then Ok (Some (mkFileOperation OpWrite (JString p)
                                   (Json.field "content" args) (tc_id toolCall)))
                  else Ok None
              | _ => Ok None
              end
          end
        else if String.eqb functionName "replace" then
          match args with
          | JNull => Throw
          | _ =>
              match Json.field "file_path" args with
              | Some (JString p) =>
                  if nonEmpty p
                  then Ok (Some (mkFileOperation OpEdit (JString p) None
                                   (tc_id toolCall)))
                  else Ok None
              | _ => Ok None
              end
          end
        else Ok None
    end.

(** [v || 0] *)
Definition orZero (v : option json) : json :=
  match v with
  | Some x => if Json.truthy x then x else JNumber 0
  | None => JNumber 0
  end.

(** The loop of lines 165-167: [lineMap[i + 1] = lines[i]] for
    [startLine <= i < endLine].  [endLine] never exceeds the number of
    lines, so [lines[i]] is always defined. *)
Definition readLines (lines : list string) (startLine endLine : Json.num) : LineMap :=
  match startLine, endLine with
  | Json.Num a, Json.Num b =>
      fold_left
        (fun lineMap i => lineMapSet (i + 1) (nth i lines EmptyString) lineMap)
        (seq (Z.to_nat a) (Z.to_nat (b - a)))
        []
  | _, _ => []
  end.

(** Lines 156-174, for an offset and a limit that are absent or integers
    (a JSON number is an integer here; with a fraction the code files keys
    that are no line numbers). *)
Definition readFileRange (filepath : json) (offset limit : option json) : LineMap :=
  match readFileSync filepath with
  | None => []
  | Some content =>
      let lines := JsString.splitLines content in
      let len := Z.of_nat (List.length lines) in
      let startLine := Json.mathMax0 (orZero offset) in
      let endLine :=
        match limit with
        | Some l =>
            if Json.truthy l
            then Json.mathMin len (Json.addThenNumber startLine l)
            else Json.Num len
        | None => Json.Num len
        end in
      readLines lines startLine endLine
  end.

(** The body of the loop of lines 184-209 for one pair.  The set
    [trackedFiles] is written and never read, and is left out.  [vfs]
    holds the own keys of the object; a path that names a member of
    [Object.prototype] reads the inherited member there (and
    ["__proto__"] written runs a setter), which an association list does
    not show: the properties of the virtual file system below are stated
    for paths that are no such names ([plainKey]). *)
Definition trackOperation (vfs : VirtualFileSystem) (pair : ToolCallPair)
  : Result VirtualFileSystem :=
  operation <- extractFileOperationFromToolCall (toolCall pair) (result pair) ;;
  match operation with
  | Some operation =>
      if Json.truthy (filepath operation) then
        let key := Json.toString (filepath operation) in
        match op_type operation with
        | OpRead =>
            match JSON_parse (argumentsOrEmpty (toolCall pair)) with
            | None => Throw
            | Some args =>
                let offset := orZero (Json.field "offset" args) in
                let limit := Json.field "limit" args in
                let fileLines :=
                  readFileRange (filepath operation) (Some offset) limit in
                let existing :=
                  match Json.assoc key vfs with
                  | Some lines => lines
                  | None => []
                  end in
                Ok (Json.setField key (lineMapAssign existing fileLines) vfs)
            end
        | _ =>
            let fileLines := readFileRange (filepath operation) None None in
            Ok (Json.setField key fileLines vfs)
        end
      else Ok vfs
  | None => Ok vfs
  end.

Fixpoint buildVirtualFileSystemFrom (vfs : VirtualFileSystem)
  (toolCallPairs : list ToolCallPair) : Result VirtualFileSystem :=
  match toolCallPairs with
  | [] => Ok vfs
  | p :: rest =>
      vfs' <- trackOperation vfs p ;;
      buildVirtualFileSystemFrom vfs' rest
  end.

(** Lines 179-212. *)
Definition buildVirtualFileSystem (toolCallPairs : list ToolCallPair)
  : Result VirtualFileSystem :=
  buildVirtualFileSystemFrom [] toolCallPairs.

(** The loop of lines 228-245, [currentRange] being the range under
    construction. *)
Fixpoint groupLoop (currentRange : Range) (prevLineNum : nat)
  (rest : list (nat * string)) : list Range :=
  match rest with
  | [] => [currentRange]
  | (lineNum, text) :: rest' =>
      if (lineNum =? prevLineNum + 1)%nat
      then groupLoop
             (mkRange (range_start currentRange) lineNum
                (range_content currentRange ++ [text])%list)
             lineNum rest'
      else currentRange :: groupLoop (mkRange lineNum lineNum [text]) lineNum rest'
  end.

(** Lines 217-249.  The keys of a line map come in ascending order. *)
Definition groupLinesIntoRanges (lines : LineMap) : list Range :=
  match lines with
  | [] => []
  | (first, text) :: rest => groupLoop (mkRange first first [text]) first rest
  end.

Definition renderRange (range : Range) : string :=
  (if (range_start range =? range_end range)%nat
   then "**Line " ++ JsString.ofNat (range_start range) ++ ":**" ++ JsString.newline
   else "**Lines " ++ JsString.ofNat (range_start range) ++ "-"
        ++ JsString.ofNat (range_end range) ++ ":**" ++ JsString.newline)
  ++ Text.fence ++ JsString.newline
  ++ JsString.joinLines (range_content range)
  ++ JsString.newline ++ Text.fence ++ JsString.newline ++ JsString.newline.

(** The heading of a file section. *)
Definition fileSectionHeading (filepath : string) : string :=
  "## " ++ filepath ++ JsString.newline.

(** The body of the loop of lines 263-291 for the entry at index [i] of
    [count] entries. *)
Definition renderFileEntry (count i : nat) (entry : string * LineMap) : string :=
  fileSectionHeading (fst entry)
  ++ match snd entry with
     | [] => "*File was modified but content not tracked*"
             ++ JsString.newline ++ JsString.newline
     | _ =>
         String.concat "" (map renderRange (groupLinesIntoRanges (snd entry)))
         ++ (if (i <? count - 1)%nat
             then "--- END OF FILE ---" ++ JsString.newline ++ JsString.newline
             else "")
     end.

Fixpoint renderFileEntries (count i : nat) (entries : list (string * LineMap))
  : string :=
  match entries with
  | [] => ""
  | entry :: rest =>
      renderFileEntry count i entry ++ renderFileEntries count (S i) rest
  end.

(** Lines 254-294. *)
Definition generateVirtualFileSystemContext (vfs : VirtualFileSystem) : string :=
  match vfs with
  | [] => ""
  | _ =>
      JsString.newline ++ JsString.newline ++ Text.fileStatesBanner
      ++ JsString.newline ++ JsString.newline
      ++ "The following files have been read or modified during this conversation:"
      ++ JsString.newline ++ JsString.newline
      ++ renderFileEntries (List.length vfs) 0 vfs
  end.

(** The loops of lines 305-310 and 483-497: the ids of the pairs that
    classify as file operations, [pair.toolCall.id || ''] each. *)
Fixpoint collectFileOperationIds (toolCallPairs : list ToolCallPair)
  : Result (list string) :=
  match toolCallPairs with
  | [] => Ok []
  | p :: rest =>
      operation <- extractFileOperationFromToolCall (toolCall p) (result p) ;;
      ids <- collectFileOperationIds rest ;;
      Ok (match operation with
          | Some _ => tc_id (toolCall p) :: ids
          | None => ids
          end)
  end.

(** Lines 299-314. *)
Definition filterToolCallsForVirtualFileSystem (toolCallPairs : list ToolCallPair)
  : Result (list ToolCallPair) :=
  fileOperationToolCallIds <- collectFileOperationIds toolCallPairs ;;
  Ok (filter
        (fun p => negb (JsString.includes (tc_id (toolCall p)) fileOperationToolCallIds))
        toolCallPairs).

(** Lines 328-338. *)
Fixpoint findAssistantMessageWithToolCalls (realConversation : list Message)
  (toolCallId : string) : option (list ToolCall) :=
  match realConversation with
  | [] => None
  | Assistant _ (ToolCallsList calls) :: rest =>
      if hasToolCallId toolCallId calls then Some calls
      else findAssistantMessageWithToolCalls rest toolCallId
  | _ :: rest => findAssistantMessageWithToolCalls rest toolCallId
  end.

(** Lines 344-361, and again 372-389: the strategy once a tool result
    closes the conversation. *)
Definition strategyForToolResult (realConversation : list Message)
  (lastToolCallId : string) : Strategy :=
  if nonEmpty lastToolCallId then
    match findAssistantMessageWithToolCalls realConversation lastToolCallId with
    | Some allToolCallsFromLastSequence =>
        mkStrategy true
          (filter nonEmpty (map tc_id allToolCallsFromLastSequence))
    | None => mkStrategy true [lastToolCallId]
    end
  else mkStrategy true [].

(** Lines 319-395. *)
Definition analyzeToolCallStrategy (realConversation : list Message) : Strategy :=
  match rev realConversation with
  | [] => mkStrategy false []
  | lastMessage :: before =>
      match lastMessage with
      | Tool _ lastToolCallId =>
          strategyForToolResult realConversation lastToolCallId
      | User content =>
          if isPleaseContinue content then
            match before with
            | Tool _ lastToolCallId :: _ =>
                strategyForToolResult realConversation lastToolCallId
            | _ => mkStrategy false []
            end
          else mkStrategy false []
      | _ => mkStrategy false []
      end
  end.

(** Lines 446-457: the [Map] from id to tool call, a later call replacing
    an earlier one with the same id. *)
Definition collectToolCallMap (finalMessages : list Message)
  : list (string * ToolCall) :=
  fold_left
    (fun toolCallMap message =>
       match message with
       | Assistant _ (ToolCallsList calls) =>
           fold_left
             (fun toolCallMap tc =>
                if nonEmpty (tc_id tc)
                then Json.setField (tc_id tc) tc toolCallMap
                else toolCallMap)
             calls toolCallMap
       | _ => toolCallMap
       end)
    finalMessages [].

(** Lines 460-476. *)
Fixpoint pairToolResults (strategy : Strategy)
  (toolCallMap : list (string * ToolCall)) (finalMessages : list Message)
  : list ToolCallPair :=
  match finalMessages with
  | [] => []
  | Tool (CText content) tool_call_id :: rest =>
      match (if nonEmpty tool_call_id then Json.assoc tool_call_id toolCallMap
             else None) with
      | Some tc =>
          let shouldMoveToSystemPrompt :=
            negb (keepLastToolSequence strategy)
            || negb (JsString.includes tool_call_id (lastToolCallIds strategy)) in
          if shouldMoveToSystemPrompt
          then mkPair tc content :: pairToolResults strategy toolCallMap rest
          else pairToolResults strategy toolCallMap rest
      | None => pairToolResults strategy toolCallMap rest
      end
  | _ :: rest => pairToolResults strategy toolCallMap rest
  end.

(** The tool-call pairs of lines 445-476, before file operations are
    filtered out. *)
Definition movableToolCallPairs (finalMessages : list Message) : list ToolCallPair :=
  pairToolResults (analyzeToolCallStrategy (skipn 3 finalMessages))
    (collectToolCallMap finalMessages) finalMessages.

(** Lines 400-517. *)
Definition deconstructMessages (finalMessages : list Message)
  : Result DeconstructedMessages :=
  match finalMessages with
  | systemMessage :: userContextMessage :: assistantReplyMessage :: realConversation =>
      let systemPrompt :=
        match systemMessage with System (CText s) => s | _ => "" end in
      let cannedUserContext :=
        match userContextMessage with User (CText s) => s | _ => "" end in
      let cannedAssistantReply :=
        match assistantReplyMessage with Assistant (CText s) _ => s | _ => "" end in
      let toolCallPairs := movableToolCallPairs finalMessages in
      virtualFileSystem <- buildVirtualFileSystem toolCallPairs ;;
      fileOperationToolCallIds <- collectFileOperationIds toolCallPairs ;;
      filteredToolCallPairs <- filterToolCallsForVirtualFileSystem toolCallPairs ;;
      Ok (mkDeconstructed systemPrompt cannedUserContext cannedAssistantReply
            realConversation filteredToolCallPairs virtualFileSystem
            fileOperationToolCallIds)
  | _ => Ok (mkDeconstructed "" "" "" finalMessages [] [] [])
  end.

(** [s.match(/prefix([class]+)/)]: the capture of the leftmost match. *)
Fixpoint matchAfter (prefix : string) (inClass : ascii -> bool) (s : string)
  : option string :=
  let here :=
    match JsString.stripPrefix prefix s with
    | Some rest =>
        match JsString.takeWhile inClass (list_ascii_of_string rest) with
        | [] => None
        | captured => Some (string_of_list_ascii captured)
        end
    | None => None
    end in
  match here with
  | Some captured => Some captured
  | None =>
      match s with
      | EmptyString => None
      | String _ rest => matchAfter prefix inClass rest
      end
  end.

Record ContextInfo : Type := mkContextInfo {
  ctx_date : string;
  ctx_os : string;
  ctx_cwd : string
}.

(** Lines 522-548. *)
Definition extractContextInfo (cannedUserContext : string) : ContextInfo :=
  if negb (nonEmpty cannedUserContext)
  then mkContextInfo currentDateString "unknown" processCwd
  else
    let notLF c := negb (Ascii.eqb c JsString.LF) in
    let date :=
      match matchAfter "Today's date is "
              (fun c => negb (Ascii.eqb c "."%char) && notLF c) cannedUserContext with
      | Some m => JsString.trim m
      | None => currentDateString
      end in
    let os :=
      match matchAfter "My operating system is: " notLF cannedUserContext with
      | Some m => JsString.trim m
      | None => "unknown"
      end in
    let cwd :=
      match matchAfter "I'm currently working in the directory: " notLF
              cannedUserContext with
      | Some m => JsString.trim m
      | None => processCwd
      end in
    mkContextInfo date os cwd.

(** Lines 618-628. *)
Fixpoint findToolCallById (messages : list Message) (toolCallId : string)
  : option ToolCall :=
  match messages with
  | [] => None
  | Assistant _ (ToolCallsList calls) :: rest =>
      match find (fun tc => String.eqb (tc_id tc) toolCallId) calls with
      | Some tc => Some tc
      | None => findToolCallById rest toolCallId
      end
  | _ :: rest => findToolCallById rest toolCallId
  end.

(** [/^L\d+:/.test(line)] *)
Definition isResultLine (line : string) : bool :=
  match list_ascii_of_string line with
  | c :: rest =>
      Ascii.eqb c "L"%char
      && match JsString.takeWhile JsString.isDigit rest,
               JsString.dropWhile JsString.isDigit rest with
         | _ :: _, colon :: _ => Ascii.eqb colon ":"%char
         | _, _ => false
         end
  | [] => false
  end.

(** The match of [/^(L\d+: )(.+)$/]: the prefix and the content. *)
Definition matchResultLine (line : string) : option (string * string) :=
  match list_ascii_of_string line with
  | c :: rest =>
      if Ascii.eqb c "L"%char then
        match JsString.takeWhile JsString.isDigit rest,
              JsString.dropWhile JsString.isDigit rest with
        | d :: ds, colon :: space :: lineContent =>
            if Ascii.eqb colon ":"%char && Ascii.eqb space " "%char
               && negb (Nat.eqb (List.length lineContent) 0)
               && forallb (fun x => negb (JsString.isLineTerminator x)) lineContent
            then Some (string_of_list_ascii (c :: (d :: ds) ++ [colon; space])%list,
                       string_of_list_ascii lineContent)
            else None
        | _, _ => None
        end
      else None
  | [] => None
  end.

(** Lines 664-669. *)
Definition truncateLine (line : string) : string :=
  match matchResultLine line with
  | Some (linePrefix, lineContent) =>
      if (String.length lineContent <=? 1000)%nat then line
      else linePrefix ++ JsString.slice0 1000 lineContent ++ "..."
  | None => line
  end.

Definition truncationNotice (n : nat) : string :=
  "[... truncated " ++ JsString.ofNat n ++ " more results]".

(** Lines 648-652. *)
Definition countResults (lines : list string) : nat :=
  List.length (filter isResultLine lines).

(** The loop of lines 655-677: [truncatedLines] from the lines still to
    read, [resultCount] results having been seen. *)
Fixpoint truncateLines (totalResults resultCount : nat) (lines : list string)
  : list string :=
  match lines with
  | [] => []
  | line :: rest =>
      if isResultLine line then
        if (20 <? resultCount + 1)%nat
        then [truncationNotice (totalResults - 20)]
        else truncateLine line :: truncateLines totalResults (resultCount + 1) rest
      else if (resultCount <=? 20)%nat
           then line :: truncateLines totalResults resultCount rest
           else truncateLines totalResults resultCount rest
  end.

(** What lines 642-682 make of [parsed.output]. *)
Definition truncateOutput (output : string) : string :=
  let lines := JsString.splitLines output in
  JsString.joinLines (truncateLines (countResults lines) 0 lines).

(** Lines 633-690.  Reading [parsed.output] on [null] throws inside the
    [try] block. *)
Definition truncateSearchResult (functionName result : string) : string :=
  if negb (String.eqb functionName "search_file_content") then result
  else
    match JSON_parse result with
    | Some (JObject fields) =>
        match Json.assoc "output" fields with
        | Some (JString output) =>
            if nonEmpty output
            then JSON_stringify
                   (JObject (Json.setField "output" (JString (truncateOutput output))
                               fields))
            else result
        | _ => result
        end
    | _ => result
    end.

(** The body of the loop of lines 720-743 for the pair at index [i] of
    [count] pairs. *)
Definition renderToolCallPair (count i : nat) (p : ToolCallPair) : string :=
  let functionName :=
    if nonEmpty (tc_name (toolCall p)) then tc_name (toolCall p) else "unknown" in
  let functionArgs := argumentsOrEmpty (toolCall p) in
  let formattedArgs :=
    match JSON_parse functionArgs with
    | Some parsedArgs => JSON_stringify_indent2 parsedArgs
    | None => functionArgs
    end in
  "## " ++ functionName ++ JsString.newline
  ++ "**Arguments:**" ++ JsString.newline ++ Text.fence ++ "json" ++ JsString.newline
  ++ formattedArgs ++ JsString.newline ++ Text.fence
  ++ JsString.newline ++ JsString.newline
  ++ "**Result:**" ++ JsString.newline ++ Text.fence ++ JsString.newline
  ++ truncateSearchResult functionName (result p)
  ++ JsString.newline ++ Text.fence ++ JsString.newline ++ JsString.newline
  ++ (if (i <? count - 1)%nat
      then "--- END OF TOOL CALL ---" ++ JsString.newline ++ JsString.newline
      else "").

Fixpoint renderToolCallPairs (count i : nat) (toolCallPairs : list ToolCallPair)
  : string :=
  match toolCallPairs with
  | [] => ""
  | p :: rest =>
      renderToolCallPair count i p ++ renderToolCallPairs count (S i) rest
  end.

(** Lines 701-708. *)
Definition environmentSection (cannedUserContext : string) : string :=
  let contextInfo := extractContextInfo cannedUserContext in
  JsString.newline ++ JsString.newline ++ Text.environmentBanner
  ++ JsString.newline ++ JsString.newline
  ++ "- **Date:** " ++ ctx_date contextInfo ++ JsString.newline
  ++ "- **Operating System:** " ++ ctx_os contextInfo ++ JsString.newline
  ++ "- **Current Working Directory:** " ++ ctx_cwd contextInfo ++ JsString.newline.

(** Lines 717-744. *)
Definition toolCallsSection (toolCallPairs : list ToolCallPair) : string :=
  match toolCallPairs with
  | [] => ""
  | _ =>
      JsString.newline ++ JsString.newline ++ Text.toolCallsBanner
      ++ JsString.newline ++ JsString.newline
      ++ renderToolCallPairs (List.length toolCallPairs) 0 toolCallPairs
  end.

(** Lines 695-747. *)
Definition buildContextStuffedSystemPrompt (toolCallPairs : list ToolCallPair)
  (cannedUserContext : string) (virtualFileSystem : VirtualFileSystem) : string :=
  Text.cleanedSystemPrompt
  ++ environmentSection cannedUserContext
  ++ generateVirtualFileSystemContext virtualFileSystem
  ++ toolCallsSection toolCallPairs.

(** Lines 769-776: [consecutiveAssistantContents] after one more message. *)
Definition collectContent (content : Content) (contents : list string)
  : list string :=
  match content with
  | CText s =>
      if nonEmpty s && nonEmpty (JsString.trim s) then
        let trimmedContent := JsString.trim s in
        if JsString.includes trimmedContent contents then contents
        else (contents ++ [trimmedContent])%list
      else contents
  | _ => contents
  end.

(** Lines 779-781. *)
Definition callsOf (tool_calls : ToolCalls) : list ToolCall :=
  match tool_calls with
  | ToolCallsList calls => calls
  | _ => []
  end.

(** Lines 787-798. *)
Definition consolidate (contents : list string) (allToolCalls : list ToolCall)
  : list Message :=
  match contents, allToolCalls with
  | [], [] => []
  | _, [] => [Assistant (CText (JsString.joinLines contents)) NoToolCallsKey]
  | _, _ => [Assistant (CText (JsString.joinLines contents))
               (ToolCallsList allToolCalls)]
  end.

(** What is pushed when a run of assistant messages ends. *)
Definition flushRun (run : option (list string * list ToolCall)) : list Message :=
  match run with
  | Some (contents, allToolCalls) => consolidate contents allToolCalls
  | None => []
  end.

(** The loop of lines 755-806; [run] holds the contents and tool calls
    collected by the inner loop since the run of assistant messages
    began. *)
Fixpoint collapseFrom (run : option (list string * list ToolCall))
  (messages : list Message) : list Message :=
  match messages with
  | [] => flushRun run
  | Assistant content tool_calls :: rest =>
      let '(contents, allToolCalls) :=
        match run with
        | Some r => r
        | None => ([], [])
        end in
      collapseFrom
        (Some (collectContent content contents,
               (allToolCalls ++ callsOf tool_calls)%list))
        rest
  | message :: rest => (flushRun run ++ message :: collapseFrom None rest)%list
  end.

(** Lines 752-809. *)
Definition collapseConsecutiveAssistantMessages (messages : list Message)
  : list Message :=
  collapseFrom None messages.

(** Lines 836-846. *)
Definition movedToSystemPromptToolCallIds (deconstructed : DeconstructedMessages)
  : list string :=
  (filter nonEmpty (map (fun p => tc_id (toolCall p)) (toolCallPairs deconstructed))
   ++ fileOperationToolCallIds deconstructed)%list.

(** The body of the loop of lines 849-931 for the message at index [i]:
    the messages it pushes. *)
Definition rebuildMessage (deconstructed : DeconstructedMessages)
  (strategy : Strategy) (moved : list string) (i : nat) (message : Message)
  : list Message :=
  match message with
  | Tool content toolCallId =>
      if nonEmpty toolCallId && negb (JsString.includes toolCallId moved) then
        let functionName :=
          match findToolCallById (realConversation deconstructed) toolCallId with
          | Some tc => tc_name tc
          | None => ""
          end in
        let truncatedContent :=
          match content with
          | CText s => CText (truncateSearchResult functionName s)
          | _ => content
          end in
        [Tool truncatedContent toolCallId]
      else []
  | Assistant content (ToolCallsList calls) =>
      let keptToolCalls :=
        filter (fun tc => nonEmpty (tc_id tc)
                          && negb (JsString.includes (tc_id tc) moved)) calls in
      match keptToolCalls with
      | _ :: _ => [Assistant content (ToolCallsList keptToolCalls)]
      | [] => if hasContent content then [Assistant content NoToolCallsKey] else []
      end
  | Assistant content ToolCallsNull =>
      if hasContent content then [message] else []
  | Assistant _ NoToolCallsKey => [message]
  | User content =>
      if isPleaseContinue content then
        let isLastMessage :=
          (i =? List.length (realConversation deconstructed) - 1)%nat in
        if isLastMessage && keepLastToolSequence strategy then [message] else []
      else [message]
  | System _ => []
  | OtherRole _ => [message]
  end.

Fixpoint rebuildFrom (deconstructed : DeconstructedMessages)
  (strategy : Strategy) (moved : list string) (i : nat) (messages : list Message)
  : list Message :=
  match messages with
  | [] => []
  | message :: rest =>
      (rebuildMessage deconstructed strategy moved i message
       ++ rebuildFrom deconstructed strategy moved (S i) rest)%list
  end.

(** Lines 814-935. *)
Definition buildNewMessagesArray (deconstructed : DeconstructedMessages)
  (originalRealConversation : list Message) : list Message :=
  let contextStuffedSystemPrompt :=
    buildContextStuffedSystemPrompt (toolCallPairs deconstructed)
      (cannedUserContext deconstructed) (virtualFileSystem deconstructed) in
  let strategy := analyzeToolCallStrategy originalRealConversation in
  let moved := movedToSystemPromptToolCallIds deconstructed in
  collapseConsecutiveAssistantMessages
    (System (CText contextStuffedSystemPrompt)
     :: rebuildFrom deconstructed strategy moved 0 (realConversation deconstructed)).

(** Lines 941-961.  The log entry written on the way is not part of the
    result. *)
Definition reconfigureFinalMessages (finalMessages : list Message)
  : Result (list Message) :=
  deconstructed <- deconstructMessages finalMessages ;;
  Ok (buildNewMessagesArray deconstructed (realConversation deconstructed)).

(* ===================================================================== *)
(** ** Notions used to state the properties *)
(* ===================================================================== *)

(** The number of line feeds of a text. *)
Fixpoint countLF (s : string) : nat :=
  match s with
  | EmptyString => 0
  | String c r => (if Ascii.eqb c JsString.LF then 1 else 0) + countLF r
  end.

(** A kept line: a result line goes through [truncateLine]. *)
Definition keptLine (line : string) : string :=
  if isResultLine line then truncateLine line else line.

(** The real conversation of lines 403-419: the whole input when it has
    fewer than three messages, the input without its first three messages
    otherwise. *)
Definition realConversationOf (finalMessages : list Message) : list Message :=
  match finalMessages with
  | _ :: _ :: _ :: realConversation => realConversation
  | _ => finalMessages
  end.

(** The pairs moved out of the conversation, none for a short input. *)
Definition movedPairsOf (finalMessages : list Message) : list ToolCallPair :=
  match finalMessages with
  | _ :: _ :: _ :: _ => movableToolCallPairs finalMessages
  | _ => []
  end.

(** The user messages that the rebuilder lets through: all but the
    ["Please continue."] ones, and the last message of the conversation
    when the last cycle is kept. *)
Definition userMessageKept (keep : bool) (count : nat) (im : nat * Message) : bool :=
  match snd im with
  | User content =>
      negb (isPleaseContinue content) || ((fst im =? count - 1)%nat && keep)
  | _ => false
  end.

(** I1: every tool message carries the id of a tool call of an assistant
    message at an earlier index. *)
Definition toolLinked (messages : list Message) : Prop :=
  forall i content toolCallId,
    nth_error messages i = Some (Tool content toolCallId) ->
    exists j content' calls tc,
      j < i
      /\ nth_error messages j = Some (Assistant content' (ToolCallsList calls))
      /\ In tc calls
      /\ tc_id tc = toolCallId.

(** The same, read from left to right: [seen] holds the ids of the calls
    met so far. *)
Fixpoint linkedWith (seen : list string) (messages : list Message) : Prop :=
  match messages with
  | [] => True
  | Tool _ toolCallId :: rest => In toolCallId seen /\ linkedWith seen rest
  | Assistant _ (ToolCallsList calls) :: rest =>
      linkedWith (map tc_id calls ++ seen)%list rest
  | _ :: rest => linkedWith seen rest
  end.

(** The ids that survive the rebuilder: not empty and not moved. *)
Definition idKept (moved : list string) (toolCallId : string) : bool :=
  nonEmpty toolCallId && negb (JsString.includes toolCallId moved).

(** The ids of the calls a run of assistant messages has collected. *)
Definition pendingIds (run : option (list string * list ToolCall)) : list string :=
  match run with
  | Some (_, calls) => map tc_id calls
  | None => []
  end.

(** An assistant message that carries a call with the given id. *)
Definition carries (toolCallId : string) (m : Message) : bool :=
  match m with
  | Assistant _ (ToolCallsList calls) => hasToolCallId toolCallId calls
  | _ => false
  end.

(** The content of a kept tool message, as lines 857-863 rewrite it. *)
Definition rewrittenContent (realConversation : list Message)
  (content : Content) (toolCallId : string) : Content :=
  let functionName :=
    match findToolCallById realConversation toolCallId with
    | Some tc => tc_name tc
    | None => ""
    end in
  match content with
  | CText s => CText (truncateSearchResult functionName s)
  | _ => content
  end.


(** [lines[k]] on a line map, [None] for [undefined]. *)
Fixpoint lineMapGet (k : nat) (m : LineMap) : option string :=
  match m with
  | [] => None
  | (k', v) :: r => if (k =? k')%nat then Some v else lineMapGet k r
  end.

(** The keys of a line map increase strictly, from [lo] at least. *)
Fixpoint ascending (lo : nat) (m : LineMap) : Prop :=
  match m with
  | [] => True
  | (k, _) :: r => lo <= k /\ ascending (S k) r
  end.

(** The entries a range stands for: its texts, numbered from its start. *)
Definition rangeEntries (r : Range) : LineMap :=
  combine (seq (range_start r) (List.length (range_content r))) (range_content r).

(** No range starts on the line that follows the range before it. *)
Fixpoint apart (ranges : list Range) : Prop :=
  match ranges with
  | [] => True
  | r :: rest =>
      match rest with
      | [] => True
      | r' :: _ => range_start r' <> range_end r + 1
      end /\ apart rest
  end.

(** The names of the tools that operate on files. *)
Definition isFileToolName (functionName : string) : bool :=
  String.eqb functionName "read_file"
  || String.eqb functionName "read_many_files"
  || String.eqb functionName "write_file"
  || String.eqb functionName "replace".

(** The tool calls of the assistant messages of a list, in order. *)
Definition allToolCalls (messages : list Message) : list ToolCall :=
  flat_map (fun m => match m with
                     | Assistant _ (ToolCallsList calls) => calls
                     | _ => []
                     end) messages.

(** [tc.id === toolCallId] *)
Definition hasId (toolCallId : string) (tc : ToolCall) : bool :=
  String.eqb (tc_id tc) toolCallId.

(** A text that is not empty and has no white space at either end. *)
Definition tidy (s : string) : bool :=
  match list_ascii_of_string s with
  | c :: _ => negb (JsString.isWhiteSpace c)
  | [] => false
  end
  && match rev (list_ascii_of_string s) with
     | c :: _ => negb (JsString.isWhiteSpace c)
     | [] => false
     end.

(** The contents a run of assistant messages has collected are tidy. *)
Definition tidyRun (run : option (list string * list ToolCall)) : Prop :=
  match run with
  | Some (contents, _) => Forall (fun s => tidy s = true) contents
  | None => True
  end.

(** No assistant message is followed at once by another one. *)
Definition noAdjacentAssistants (messages : list Message) : Prop :=
  forall i a b,
    nth_error messages i = Some a ->
    nth_error messages (S i) = Some b ->
    isAssistant a = true -> isAssistant b = false.

Fixpoint assistantsApart (messages : list Message) : bool :=
  match messages with
  | a :: (b :: _) as rest =>
      negb (isAssistant a && isAssistant b) && assistantsApart rest
  | _ => true
  end.

(** The tool calls a run of assistant messages has collected. *)
Definition pendingCalls (run : option (list string * list ToolCall)) : list ToolCall :=
  match run with
  | Some (_, calls) => calls
  | None => []
  end.

(** What the collapser makes of an assistant message: a text content with
    no white space at either end, and either no [tool_calls] key and a
    content that is not empty, or a list of calls that is not empty. *)
Definition consolidated (m : Message) : Prop :=
  match m with
  | Assistant content tool_calls =>
      exists s,
        content = CText s
        /\ JsString.trim s = s
        /\ ((tool_calls = NoToolCallsKey /\ s <> "")
            \/ exists call calls, tool_calls = ToolCallsList (call :: calls))
  | _ => True
  end.

(** The ids of the pairs moved out of the conversation. *)
Definition movedIdsOf (finalMessages : list Message) : list string :=
  map (fun p => tc_id (toolCall p)) (movedPairsOf finalMessages).

(** What the rebuilder makes of a message as far as tool messages go: a
    tool message whose id is kept, its content rewritten. *)
Definition keptToolMessage (moved : list string) (realConversation : list Message)
  (m : Message) : list Message :=
  match m with
  | Tool content toolCallId =>
      if idKept moved toolCallId
      then [Tool (rewrittenContent realConversation content toolCallId) toolCallId]
      else []
  | _ => []
  end.

(** [value] is the trimmed capture of an occurrence of
    [prefix([class]+)] in [context]: the longest run of characters of the
    class that follows the prefix there. *)
Definition capturedAfter (prefix : string) (inClass : ascii -> bool)
  (context value : string) : Prop :=
  exists before captured after,
    context = before ++ prefix ++ captured ++ after
    /\ captured <> ""
    /\ forallb inClass (list_ascii_of_string captured) = true
    /\ match list_ascii_of_string after with
       | c :: _ => inClass c = false
       | [] => True
       end
    /\ value = JsString.trim captured.

(** The system prompt shows the pair: the text rendered for it stands
    somewhere in the prompt. *)
Definition shownIn (prompt : string) (p : ToolCallPair) : Prop :=
  exists before after count i,
    prompt = before ++ renderToolCallPair count i p ++ after.

(** The names a plain object inherits from [Object.prototype]: read
    through [vfs[path]] they give the inherited member and not [undefined],
    and ["__proto__"] written files no own key. *)
Definition objectPrototypeNames : list string :=
  [ "__proto__"; "constructor"; "hasOwnProperty"; "isPrototypeOf";
    "propertyIsEnumerable"; "toLocaleString"; "toString"; "valueOf";
    "__defineGetter__"; "__defineSetter__"; "__lookupGetter__";
    "__lookupSetter__" ].

(** A key that a plain object holds as an own key or not at all. *)
Definition plainKey (k : string) : bool :=
  negb (JsString.includes k objectPrototypeNames).


(** A decoded argument that is absent or an integer. *)
Definition integerOrAbsent (v : option json) : Prop :=
  match v with
  | None | Some (JNumber _) => True
  | Some _ => False
  end.

(* ===================================================================== *)
(** ** Properties *)
(* ===================================================================== *)

(** *** Strings and line maps *)

Lemma splitLines_nonempty (s : string) : JsString.splitLines s <> [].
Proof.
  destruct s as [|c r]; simpl; [discriminate|].
  destruct (Ascii.eqb c JsString.LF); [discriminate|].
  destruct (JsString.splitLines r); discriminate.
Qed.

Lemma splitLines_length (s : string) :
  List.length (JsString.splitLines s) = S (countLF s).
Proof.
  induction s as [|c r IH]; simpl; [reflexivity|].
  destruct (Ascii.eqb c JsString.LF); simpl.
  - now rewrite IH.
  - destruct (JsString.splitLines r) as [|h t] eqn:E.
    + now destruct (splitLines_nonempty r).
    + simpl in *. exact IH.
Qed.

Lemma splitLines_trailing_newline (s : string) :
  JsString.splitLines (s ++ JsString.newline)
  = (JsString.splitLines s ++ [EmptyString])%list.
Proof.
  induction s as [|c r IH]; simpl; [reflexivity|].
  destruct (Ascii.eqb c JsString.LF); simpl.
  - now rewrite IH.
  - rewrite IH. destruct (JsString.splitLines r) as [|h t] eqn:E.
    + now destruct (splitLines_nonempty r).
    + reflexivity.
Qed.

Lemma lineMapSet_above (k : nat) (v : string) (m : LineMap) :
  Forall (fun kv => fst kv < k) m -> lineMapSet k v m = (m ++ [(k, v)])%list.
Proof.
  induction 1 as [|[k' v'] m Hk _ IH]; simpl; [reflexivity|].
  simpl in Hk.
  destruct (Nat.eqb_spec k k'); [lia|].
  destruct (Nat.ltb_spec k k'); [lia|].
  now rewrite IH.
Qed.

Lemma readLines_fold (lines : list string) (n a : nat) (acc : LineMap) :
  Forall (fun kv => fst kv <= a) acc ->
  fold_left (fun lineMap i => lineMapSet (i + 1) (nth i lines EmptyString) lineMap)
    (seq a n) acc
  = (acc ++ map (fun i => (i + 1, nth i lines EmptyString)) (seq a n))%list.
Proof.
  revert a acc. induction n as [|n IH]; intros a acc Hacc; simpl.
  - now rewrite app_nil_r.
  - rewrite lineMapSet_above.
    + rewrite IH.
      * now rewrite <- app_assoc.
      * apply Forall_app. split.
        -- eapply Forall_impl; [|exact Hacc]. simpl. intros; lia.
        -- constructor; [simpl; lia|constructor].
    + eapply Forall_impl; [|exact Hacc]. simpl. intros; lia.
Qed.

Lemma numbered_lines (pre l : list string) :
  map (fun i => (i + 1, nth i (pre ++ l)%list EmptyString))
    (seq (List.length pre) (List.length l))
  = combine (seq (S (List.length pre)) (List.length l)) l.
Proof.
  revert pre. induction l as [|x l IH]; intros pre; simpl; [reflexivity|].
  f_equal.
  - f_equal; [lia|]. rewrite app_nth2 by lia. now rewrite Nat.sub_diag.
  - specialize (IH (pre ++ [x])%list).
    rewrite <- app_assoc in IH. simpl in IH.
    rewrite length_app in IH. simpl in IH.
    replace (List.length pre + 1) with (S (List.length pre)) in IH by lia.
    exact IH.
Qed.

Lemma combine_append {A B : Type} (l1 l2 : list A) (r1 r2 : list B) :
  List.length l1 = List.length r1 ->
  combine (l1 ++ l2)%list (r1 ++ r2)%list
  = (combine l1 r1 ++ combine l2 r2)%list.
Proof.
  revert r1. induction l1 as [|a l1 IH]; intros [|b r1] H; simpl in *;
    try discriminate; [reflexivity|].
  f_equal. apply IH. congruence.
Qed.

Lemma readLines_whole (lines : list string) :
  readLines lines (Json.Num 0) (Json.Num (Z.of_nat (List.length lines)))
  = combine (seq 1 (List.length lines)) lines.
Proof.
  unfold readLines. rewrite Z.sub_0_r, Nat2Z.id. simpl Z.to_nat.
  rewrite readLines_fold by constructor. simpl.
  exact (numbered_lines [] lines).
Qed.

(** *** Pairs of tool calls and results *)

Lemma assoc_In {A : Type} (k : string) (v : A) (l : list (string * A)) :
  Json.assoc k l = Some v -> In (k, v) l.
Proof.
  induction l as [|[k' v'] l IH]; simpl; [discriminate|].
  destruct (String.eqb_spec k k') as [->|].
  - intros [= ->]. now left.
  - intros H. right. now apply IH.
Qed.

Lemma setField_Forall {A : Type} (P : string * A -> Prop) (k : string) (v : A)
  (l : list (string * A)) :
  P (k, v) -> Forall P l -> Forall P (Json.setField k v l).
Proof.
  intros Hkv. induction 1 as [|[k' v'] l Hh Ht IH]; simpl.
  - now constructor.
  - destruct (String.eqb k k'); constructor; auto.
Qed.

(** Every entry of the map of tool calls is filed under the id of its
    call, which is not empty. *)
Lemma collectToolCallMap_keyed (finalMessages : list Message) :
  Forall (fun kv => fst kv = tc_id (snd kv) /\ nonEmpty (fst kv) = true)
    (collectToolCallMap finalMessages).
Proof.
  unfold collectToolCallMap.
  assert (Hinner : forall calls m,
             Forall (fun kv : string * ToolCall =>
                       fst kv = tc_id (snd kv) /\ nonEmpty (fst kv) = true) m ->
             Forall (fun kv : string * ToolCall =>
                       fst kv = tc_id (snd kv) /\ nonEmpty (fst kv) = true)
               (fold_left
                  (fun toolCallMap tc =>
                     if nonEmpty (tc_id tc)
                     then Json.setField (tc_id tc) tc toolCallMap
                     else toolCallMap) calls m)).
  { induction calls as [|tc calls IH]; intros m Hm; simpl; [exact Hm|].
    apply IH. destruct (nonEmpty (tc_id tc)) eqn:Hne; [|exact Hm].
    apply setField_Forall; [simpl; auto|exact Hm]. }
  generalize (@nil (string * ToolCall)) (@Forall_nil (string * ToolCall)
    (fun kv => fst kv = tc_id (snd kv) /\ nonEmpty (fst kv) = true)).
  induction finalMessages as [|m rest IH]; intros acc Hacc; simpl; [exact Hacc|].
  apply IH. destruct m as [| |c [| |calls]| |]; try exact Hacc.
  now apply Hinner.
Qed.

(** A pair comes from a tool message whose id is filed in the map, and is
    not kept by the strategy. *)
Lemma pairToolResults_from_map (strategy : Strategy)
  (toolCallMap : list (string * ToolCall)) (finalMessages : list Message)
  (p : ToolCallPair) :
  In p (pairToolResults strategy toolCallMap finalMessages) ->
  exists k, nonEmpty k = true /\ Json.assoc k toolCallMap = Some (toolCall p).
Proof.
  induction finalMessages as [|m rest IH]; simpl; [intros []|].
  destruct m as [| | |[s| |] k|]; try exact IH.
  destruct (nonEmpty k) eqn:Hk; [|exact IH].
  destruct (Json.assoc k toolCallMap) as [tc|] eqn:Hassoc; [|exact IH].
  destruct (negb (keepLastToolSequence strategy)
            || negb (JsString.includes k (lastToolCallIds strategy)));
    [|exact IH].
  intros [<-|Hin]; [|now apply IH].
  exists k. now split.
Qed.

(** *** The file-range reader *)

(** C8, as amended: with the default offset and limit the reader numbers,
    from 1, every piece of the content split on line feeds; there is one
    more entry than there are line feeds, so a content that ends in a line
    feed gets a last entry holding the empty text. *)
Theorem readFileRange_default_numbers_every_piece (path : json) (content : string) :
  readFileSync path = Some content ->
  readFileRange path None None
  = combine (seq 1 (S (countLF content))) (JsString.splitLines content)
  /\ List.length (readFileRange path None None) = S (countLF content)
  /\ (forall body, content = body ++ JsString.newline ->
      readFileRange path None None
      = (combine (seq 1 (S (countLF body))) (JsString.splitLines body)
         ++ [(S (S (countLF body)), EmptyString)])%list).
Proof.
  intros Hread.
  assert (Hall : readFileRange path None None
                 = combine (seq 1 (S (countLF content))) (JsString.splitLines content)).
  { unfold readFileRange. rewrite Hread.
    change (Json.mathMax0 (orZero None)) with (Json.Num 0).
    rewrite readLines_whole. now rewrite splitLines_length. }
  split; [exact Hall|]. split.
  - rewrite Hall, length_combine, length_seq, splitLines_length. lia.
  - intros body ->. rewrite Hall.
    rewrite splitLines_trailing_newline.
    assert (Hn : countLF (body ++ JsString.newline) = S (countLF body)).
    { pose proof (splitLines_length (body ++ JsString.newline)) as H.
      rewrite splitLines_trailing_newline, length_app, splitLines_length in H.
      simpl in H. lia. }
    rewrite Hn.
    replace (S (S (countLF body))) with (S (countLF body) + 1) at 1 by lia.
    rewrite seq_app.
    rewrite combine_append by (now rewrite length_seq, splitLines_length).
    simpl. do 3 f_equal.
Qed.

(** *** The tool-call classifier *)


(** C10: a tool call without an id is never classified, whatever its name
    and arguments; no pair built from a transcript carries such a call, the
    empty id is never among the ids of file operations, the virtual file
    system is the one of the pairs that carry an id, and the filter that
    removes file operations keeps every pair without an id. *)
Theorem call_without_id_is_never_a_file_operation :
  (forall tc res, tc_id tc = "" -> extractFileOperationFromToolCall tc res = Ok None)
  /\ (forall finalMessages p,
        In p (movableToolCallPairs finalMessages) -> tc_id (toolCall p) <> "")
  /\ (forall pairs ids, collectFileOperationIds pairs = Ok ids -> ~ In "" ids)
  /\ (forall pairs,
        buildVirtualFileSystem pairs
        = buildVirtualFileSystem
            (filter (fun p => nonEmpty (tc_id (toolCall p))) pairs))
  /\ (forall pairs kept p,
        filterToolCallsForVirtualFileSystem pairs = Ok kept ->
        In p pairs -> tc_id (toolCall p) = "" -> In p kept).
Proof.
  assert (Hnull : forall tc res,
             tc_id tc = "" -> extractFileOperationFromToolCall tc res = Ok None).
  { intros tc res Hid. unfold extractFileOperationFromToolCall.
    rewrite Hid. simpl. now rewrite orb_true_r. }
  assert (Hids : forall pairs ids,
             collectFileOperationIds pairs = Ok ids -> ~ In "" ids).
  { induction pairs as [|p rest IH]; intros ids H; simpl in H.
    - injection H as <-. intros [].
    - destruct (extractFileOperationFromToolCall (toolCall p) (result p))
        as [operation|] eqn:Hx; simpl in H; [|discriminate].
      destruct (collectFileOperationIds rest) as [ids'|]; simpl in H;
        [|discriminate].
      injection H as <-. specialize (IH ids' eq_refl).
      destruct operation as [operation|]; [|exact IH].
      intros [Hhead|Htail]; [|now apply IH].
      rewrite (Hnull _ (result p) Hhead) in Hx. discriminate. }
  split; [exact Hnull|]. split; [|split; [exact Hids|split]].
  - intros finalMessages p Hin.
    unfold movableToolCallPairs in Hin.
    apply pairToolResults_from_map in Hin.
    destruct Hin as (k & Hk & Hassoc).
    apply assoc_In in Hassoc.
    pose proof (collectToolCallMap_keyed finalMessages) as Hkeyed.
    rewrite Forall_forall in Hkeyed. specialize (Hkeyed _ Hassoc).
    simpl in Hkeyed. destruct Hkeyed as [Heq Hne].
    intros Hempty. rewrite Heq, Hempty in Hne. discriminate.
  - intros pairs. unfold buildVirtualFileSystem. generalize ([] : VirtualFileSystem).
    induction pairs as [|p rest IH]; intros vfs; simpl; [reflexivity|].
    destruct (nonEmpty (tc_id (toolCall p))) eqn:Hid; simpl.
    + destruct (trackOperation vfs p); simpl; [apply IH|reflexivity].
    + unfold trackOperation. rewrite Hnull; [simpl; apply IH|].
      unfold nonEmpty in Hid. now destruct (String.eqb_spec (tc_id (toolCall p)) "").
  - intros pairs kept p Hfilter Hin Hid.
    unfold filterToolCallsForVirtualFileSystem in Hfilter.
    destruct (collectFileOperationIds pairs) as [ids|] eqn:Hc; simpl in Hfilter;
      [|discriminate].
    injection Hfilter as <-. apply filter_In. split; [exact Hin|].
    rewrite Hid. apply negb_true_iff. apply not_true_iff_false.
    intros Habs. apply (Hids _ _ Hc).
    unfold JsString.includes in Habs. apply existsb_exists in Habs.
    destruct Habs as (x & Hx & Heq). apply String.eqb_eq in Heq. now subst x.
Qed.

(** *** The strategy analyzer *)

Lemma findAssistant_app (pre l : list Message) (toolCallId : string) :
  findAssistantMessageWithToolCalls (pre ++ l)%list toolCallId
  = match findAssistantMessageWithToolCalls pre toolCallId with
    | Some calls => Some calls
    | None => findAssistantMessageWithToolCalls l toolCallId
    end.
Proof.
  induction pre as [|m pre IH]; simpl; [reflexivity|].
  destruct m as [| |c [| |calls]| |]; try exact IH.
  destruct (hasToolCallId toolCallId calls); [reflexivity|exact IH].
Qed.

Lemma findAssistant_none (l : list Message) (toolCallId : string) :
  findAssistantMessageWithToolCalls l toolCallId = None
  <-> (forall c calls, In (Assistant c (ToolCallsList calls)) l ->
       hasToolCallId toolCallId calls = false).
Proof.
  induction l as [|m l IH]; simpl.
  - split; [intros _ c calls []|reflexivity].
  - destruct m as [| |c [| |calls]| |];
      try (rewrite IH; split;
           [intros H c' calls' [Habs|Hin]; [discriminate|eauto]
           |intros H c' calls' Hin; eauto]).
    destruct (hasToolCallId toolCallId calls) eqn:Hhas.
    + split; [discriminate|]. intros H.
      rewrite (H c calls (or_introl eq_refl)) in Hhas. discriminate.
    + rewrite IH. split.
      * intros H c' calls' [Heq|Hin]; [|eauto]. now injection Heq as <- <-.
      * intros H c' calls' Hin. eauto.
Qed.

Lemma analyze_ends_in_tool (before : list Message) (c : Content) (tid : string) :
  analyzeToolCallStrategy (before ++ [Tool c tid])%list
  = strategyForToolResult (before ++ [Tool c tid])%list tid.
Proof.
  unfold analyzeToolCallStrategy. now rewrite rev_app_distr.
Qed.

(** C4: when the conversation ends in a tool result, the last cycle is
    kept.  If the result carries an id and an assistant message holds a
    call with that id (the first such message, should there be several),
    the kept ids are exactly the ids carried by the calls of that message,
    the whole fan-out; if no assistant message holds it, the kept ids are
    the id itself when it is not empty, and none otherwise. *)
Theorem analyze_keeps_whole_fan_out (before : list Message) (c : Content) (tid : string) :
  let conversation := (before ++ [Tool c tid])%list in
  let strategy := analyzeToolCallStrategy conversation in
  keepLastToolSequence strategy = true
  /\ (forall pre c' calls post,
        tid <> "" ->
        conversation = (pre ++ Assistant c' (ToolCallsList calls) :: post)%list ->
        hasToolCallId tid calls = true ->
        (forall c'' calls'', In (Assistant c'' (ToolCallsList calls'')) pre ->
                             hasToolCallId tid calls'' = false) ->
        forall x, In x (lastToolCallIds strategy)
                  <-> (x <> "" /\ exists tc, In tc calls /\ tc_id tc = x))
  /\ ((forall c' calls, In (Assistant c' (ToolCallsList calls)) conversation ->
                        hasToolCallId tid calls = false) ->
      lastToolCallIds strategy = if nonEmpty tid then [tid] else [])
  /\ (tid = "" -> lastToolCallIds strategy = []).
Proof.
  intros conversation strategy. subst strategy conversation.
  rewrite analyze_ends_in_tool. unfold strategyForToolResult.
  split; [|split; [|split]].
  - destruct (nonEmpty tid); [|reflexivity].
    now destruct (findAssistantMessageWithToolCalls _ tid).
  - intros pre c' calls post Htid Hconv Hhas Hfirst x.
    unfold nonEmpty at 1. destruct (String.eqb_spec tid ""); [contradiction|].
    simpl. rewrite Hconv, findAssistant_app.
    apply findAssistant_none in Hfirst. rewrite Hfirst. simpl. rewrite Hhas.
    simpl. rewrite filter_In, in_map_iff. unfold nonEmpty.
    split.
    + intros [(tc & Htc & Hin) Hne]. split.
      * intros ->. discriminate.
      * now exists tc.
    + intros [Hne (tc & Hin & Htc)]. split; [now exists tc|].
      now destruct (String.eqb_spec x "").
  - intros Hnone. apply findAssistant_none in Hnone. rewrite Hnone.
    now destruct (nonEmpty tid).
  - intros ->. reflexivity.
Qed.

(** *** The search-result truncator *)

Lemma takeWhile_dropWhile (p : ascii -> bool) (l : list ascii) :
  (JsString.takeWhile p l ++ JsString.dropWhile p l)%list = l.
Proof.
  induction l as [|c l IH]; simpl; [reflexivity|].
  destruct (p c); simpl; [now rewrite IH|reflexivity].
Qed.

Lemma takeWhile_all (p : ascii -> bool) (l : list ascii) :
  forallb p (JsString.takeWhile p l) = true.
Proof.
  induction l as [|c l IH]; simpl; [reflexivity|].
  destruct (p c) eqn:E; simpl; [now rewrite E|reflexivity].
Qed.

Lemma takeWhile_stop (p : ascii -> bool) (ds : list ascii) (x : ascii) (r : list ascii) :
  forallb p ds = true -> p x = false ->
  JsString.takeWhile p (ds ++ x :: r)%list = ds
  /\ JsString.dropWhile p (ds ++ x :: r)%list = x :: r.
Proof.
  intros Hds Hx. induction ds as [|d ds IH]; simpl in *.
  - now rewrite Hx.
  - apply andb_true_iff in Hds. destruct Hds as [Hd Hds]. rewrite Hd.
    destruct (IH Hds) as [-> ->]. now split.
Qed.

Lemma list_ascii_of_string_app (a b : string) :
  list_ascii_of_string (a ++ b)
  = (list_ascii_of_string a ++ list_ascii_of_string b)%list.
Proof.
  induction a as [|c a IH]; simpl; [reflexivity|now rewrite IH].
Qed.

Lemma string_of_list_ascii_app (a b : list ascii) :
  string_of_list_ascii (a ++ b)%list
  = string_of_list_ascii a ++ string_of_list_ascii b.
Proof.
  induction a as [|c a IH]; simpl; [reflexivity|now rewrite IH].
Qed.

(** A line that starts with [L], digits and a colon is a result line. *)
Lemma isResultLine_prefixed (ds : list ascii) (tail : string) :
  ds <> [] -> forallb JsString.isDigit ds = true ->
  isResultLine
    (string_of_list_ascii ("L"%char :: ds ++ [":"%char; " "%char])%list ++ tail)
  = true.
Proof.
  intros Hne Hds. unfold isResultLine.
  rewrite list_ascii_of_string_app, list_ascii_of_string_of_list_ascii.
  simpl. rewrite <- app_assoc. simpl.
  destruct (@takeWhile_stop JsString.isDigit ds ":"%char
              (" "%char :: list_ascii_of_string tail) Hds eq_refl) as [-> ->].
  destruct ds; [contradiction|reflexivity].
Qed.

Lemma matchResultLine_spec (line linePrefix lineContent : string) :
  matchResultLine line = Some (linePrefix, lineContent) ->
  line = linePrefix ++ lineContent
  /\ exists ds, ds <> [] /\ forallb JsString.isDigit ds = true
                /\ linePrefix
                   = string_of_list_ascii ("L"%char :: ds ++ [":"%char; " "%char])%list.
Proof.
  unfold matchResultLine.
  destruct (list_ascii_of_string line) as [|c rest] eqn:Hline; [discriminate|].
  destruct (Ascii.eqb_spec c "L"%char) as [->|]; [|discriminate].
  pose proof (takeWhile_dropWhile JsString.isDigit rest) as Hsplit.
  pose proof (takeWhile_all JsString.isDigit rest) as Hall.
  destruct (JsString.takeWhile JsString.isDigit rest) as [|d ds]; [discriminate|].
  destruct (JsString.dropWhile JsString.isDigit rest) as [|colon [|space content]];
    try discriminate.
  destruct (Ascii.eqb_spec colon ":"%char) as [->|]; [|discriminate].
  destruct (Ascii.eqb_spec space " "%char) as [->|]; [|discriminate].
  simpl andb.
  destruct (negb (Nat.eqb (List.length content) 0)
            && forallb (fun x => negb (JsString.isLineTerminator x)) content);
    [|discriminate].
  intros [= <- <-]. split.
  - rewrite <- (string_of_list_ascii_of_string line), Hline, <- Hsplit.
    simpl. do 2 f_equal.
    rewrite <- string_of_list_ascii_app, <- app_assoc. reflexivity.
  - exists (d :: ds). repeat split; [discriminate|exact Hall].
Qed.

Lemma isResultLine_truncateLine (line : string) :
  isResultLine (truncateLine line) = isResultLine line.
Proof.
  unfold truncateLine.
  destruct (matchResultLine line) as [[linePrefix lineContent]|] eqn:Hm;
    [|reflexivity].
  destruct (String.length lineContent <=? 1000)%nat; [reflexivity|].
  apply matchResultLine_spec in Hm.
  destruct Hm as (-> & ds & Hne & Hds & ->).
  now rewrite !isResultLine_prefixed.
Qed.

Lemma isResultLine_truncationNotice (n : nat) :
  isResultLine (truncationNotice n) = false.
Proof. reflexivity. Qed.

Lemma countResults_app (a b : list string) :
  countResults (a ++ b)%list = countResults a + countResults b.
Proof. unfold countResults. now rewrite filter_app, length_app. Qed.

Lemma countResults_keptLines (l : list string) :
  countResults (map keptLine l) = countResults l.
Proof.
  unfold countResults. induction l as [|x l IH]; simpl; [reflexivity|].
  unfold keptLine at 1. destruct (isResultLine x) eqn:E.
  - rewrite isResultLine_truncateLine, E. simpl. now rewrite IH.
  - rewrite E. exact IH.
Qed.

#[local] Arguments Nat.sub : simpl never.

(** The results among the lines kept: the first ones of the input, up to
    the twentieth. *)
Lemma truncateLines_results (total resultCount : nat) (lines : list string) :
  resultCount <= 20 ->
  filter isResultLine (truncateLines total resultCount lines)
  = map truncateLine (firstn (20 - resultCount) (filter isResultLine lines)).
Proof.
  revert resultCount. induction lines as [|line rest IH]; intros c Hc; simpl.
  - now rewrite firstn_nil.
  - destruct (isResultLine line) eqn:Hline.
    + destruct (Nat.ltb_spec 20 (c + 1)).
      * replace (20 - c) with 0 by lia. reflexivity.
      * simpl. rewrite isResultLine_truncateLine, Hline.
        replace (20 - c) with (S (20 - (c + 1))) by lia. simpl.
        now rewrite IH by lia.
    + destruct (Nat.leb_spec c 20); [|lia].
      simpl. rewrite Hline. now apply IH.
Qed.

(** The shape of the lines kept. *)
Lemma truncateLines_shape (total resultCount : nat) (lines : list string) :
  resultCount <= 20 ->
  (countResults lines <= 20 - resultCount ->
   truncateLines total resultCount lines = map keptLine lines)
  /\ (20 - resultCount < countResults lines ->
      exists before hit after,
        lines = (before ++ hit :: after)%list
        /\ countResults before = 20 - resultCount
        /\ isResultLine hit = true
        /\ truncateLines total resultCount lines
           = (map keptLine before ++ [truncationNotice (total - 20)])%list).
Proof.
  revert resultCount. induction lines as [|line rest IH]; intros c Hc.
  - split; [reflexivity|]. unfold countResults. simpl. lia.
  - unfold countResults in *. simpl. unfold keptLine at 1 2.
    destruct (isResultLine line) eqn:Hline; simpl.
    + destruct (Nat.ltb_spec 20 (c + 1)).
      * split; [lia|]. intros _. exists [], line, rest.
        repeat split; [simpl; lia|exact Hline].
      * destruct (IH (c + 1)) as [IHle IHgt]; [lia|]. split.
        -- intros Hle. now rewrite IHle by lia.
        -- intros Hgt. destruct IHgt as (before & hit & after & -> & Hb & Hh & ->);
             [lia|].
           exists (line :: before), hit, after. simpl. rewrite Hline. simpl.
           unfold keptLine at 2. rewrite Hline.
           repeat split; [lia|exact Hh].
    + destruct (Nat.leb_spec c 20); [|lia].
      destruct (IH c Hc) as [IHle IHgt]. split.
      * intros Hle. now rewrite IHle.
      * intros Hgt. destruct (IHgt Hgt) as (before & hit & after & -> & Hb & Hh & ->).
        exists (line :: before), hit, after. simpl. rewrite Hline.
        unfold keptLine at 2. rewrite Hline.
        repeat split; [exact Hb|exact Hh].
Qed.

Lemma countLF_app (a b : string) : countLF (a ++ b) = countLF a + countLF b.
Proof.
  induction a as [|c a IH]; simpl; [reflexivity|]. rewrite IH. lia.
Qed.

Lemma splitLines_LF_free (s : string) :
  Forall (fun x => countLF x = 0) (JsString.splitLines s).
Proof.
  induction s as [|c r IH]; simpl; [now constructor|].
  destruct (Ascii.eqb c JsString.LF) eqn:E.
  - constructor; [reflexivity|exact IH].
  - destruct (JsString.splitLines r) as [|h t].
    + constructor; [simpl; now rewrite E|constructor].
    + inversion IH as [|? ? Hh Ht]; subst.
      constructor; [simpl; rewrite E; exact Hh|exact Ht].
Qed.

Lemma splitLines_prepend (x rest : string) :
  countLF x = 0 ->
  JsString.splitLines (x ++ String JsString.LF rest)
  = x :: JsString.splitLines rest.
Proof.
  induction x as [|c x IH]; simpl; intros H; [reflexivity|].
  destruct (Ascii.eqb c JsString.LF); [discriminate|].
  simpl in H. now rewrite IH.
Qed.

Lemma splitLines_single (x : string) :
  countLF x = 0 -> JsString.splitLines x = [x].
Proof.
  induction x as [|c x IH]; simpl; intros H; [reflexivity|].
  destruct (Ascii.eqb c JsString.LF); [discriminate|].
  simpl in H. now rewrite IH.
Qed.

Lemma splitLines_joinLines (l : list string) :
  l <> [] -> Forall (fun x => countLF x = 0) l ->
  JsString.splitLines (JsString.joinLines l) = l.
Proof.
  intros Hne Hl. induction Hl as [|x l Hx Hl IH]; [contradiction|].
  destruct l as [|y l].
  - simpl. now apply splitLines_single.
  - change (JsString.joinLines (x :: y :: l))
      with (x ++ String JsString.LF (JsString.joinLines (y :: l))).
    rewrite splitLines_prepend by exact Hx. f_equal. apply IH. discriminate.
Qed.

Lemma countLF_substring (n : nat) (s : string) :
  countLF s = 0 -> countLF (substring 0 n s) = 0.
Proof.
  revert n. induction s as [|c s IH]; intros [|n] H; simpl in *; try reflexivity.
  destruct (Ascii.eqb c JsString.LF); [discriminate|]. simpl in *. now apply IH.
Qed.

Lemma countLF_ofNat (n : nat) : countLF (JsString.ofNat n) = 0.
Proof.
  unfold JsString.ofNat. generalize (Nat.to_uint n).
  induction u; simpl; auto.
Qed.

Lemma truncateLine_LF_free (line : string) :
  countLF line = 0 -> countLF (truncateLine line) = 0.
Proof.
  intros H. unfold truncateLine.
  destruct (matchResultLine line) as [[linePrefix lineContent]|] eqn:Hm;
    [|exact H].
  destruct (String.length lineContent <=? 1000)%nat; [exact H|].
  apply matchResultLine_spec in Hm. destruct Hm as [-> _].
  rewrite countLF_app in H. rewrite !countLF_app.
  unfold JsString.slice0. rewrite countLF_substring by lia. simpl. lia.
Qed.

Lemma truncateLines_LF_free (total resultCount : nat) (lines : list string) :
  Forall (fun x => countLF x = 0) lines ->
  Forall (fun x => countLF x = 0) (truncateLines total resultCount lines).
Proof.
  intros H. revert resultCount.
  induction H as [|line rest Hline Hrest IH]; intros c; simpl; [constructor|].
  destruct (isResultLine line).
  - destruct (20 <? c + 1)%nat.
    + constructor; [|constructor]. unfold truncationNotice.
      rewrite !countLF_app, countLF_ofNat. reflexivity.
    + constructor; [now apply truncateLine_LF_free|apply IH].
  - destruct (c <=? 20)%nat; [constructor; [exact Hline|apply IH]|apply IH].
Qed.

Lemma truncateLines_at_most_twenty (total : nat) (lines : list string) :
  countResults (truncateLines total 0 lines) <= 20.
Proof.
  unfold countResults. rewrite truncateLines_results by lia.
  rewrite length_map, length_firstn. lia.
Qed.


Lemma middle_here (t a : string) : exists b a', t ++ a = b ++ t ++ a'.
Proof. now exists EmptyString, a. Qed.

Lemma middle_later (x rest t : string) :
  (exists b a, rest = b ++ t ++ a) -> exists b a, x ++ rest = b ++ t ++ a.
Proof.
  intros (b & a & ->). exists (x ++ b), a.
  induction x as [|c x IH]; simpl; [reflexivity|now rewrite IH].
Qed.

(** Finds a text in the middle of a right-nested concatenation. *)
Ltac find_middle :=
  repeat first [apply middle_here | apply middle_later].


(** *** The deconstructor *)

Lemma deconstruct_inv (finalMessages : list Message) (d : DeconstructedMessages) :
  deconstructMessages finalMessages = Ok d ->
  realConversation d = realConversationOf finalMessages
  /\ buildVirtualFileSystem (movedPairsOf finalMessages) = Ok (virtualFileSystem d)
  /\ collectFileOperationIds (movedPairsOf finalMessages)
     = Ok (fileOperationToolCallIds d)
  /\ filterToolCallsForVirtualFileSystem (movedPairsOf finalMessages)
     = Ok (toolCallPairs d).
Proof.
  unfold deconstructMessages, movedPairsOf, realConversationOf.
  destruct finalMessages as [|m0 [|m1 [|m2 real]]];
    try (intros [= <-]; repeat split; reflexivity).
  destruct (buildVirtualFileSystem _) as [vfs|]; simpl; [|discriminate].
  destruct (collectFileOperationIds _) as [ids|]; simpl; [|discriminate].
  destruct (filterToolCallsForVirtualFileSystem _) as [kept|]; simpl;
    [|discriminate].
  intros [= <-]. repeat split; reflexivity.
Qed.

(** The pipeline returns unless a moved pair makes the classifier throw. *)
Lemma collectFileOperationIds_returns (pairs : list ToolCallPair) :
  (forall p, In p pairs ->
             extractFileOperationFromToolCall (toolCall p) (result p) <> Throw) ->
  exists ids, collectFileOperationIds pairs = Ok ids.
Proof.
  induction pairs as [|p rest IH]; intros H; simpl; [now eexists|].
  destruct (extractFileOperationFromToolCall (toolCall p) (result p)) eqn:E.
  - simpl. destruct IH as [ids ->]; [intros q Hq; apply H; now right|].
    simpl. now eexists.
  - exfalso. now apply (H p (or_introl eq_refl)).
Qed.

Lemma trackOperation_returns (vfs : VirtualFileSystem) (p : ToolCallPair) :
  extractFileOperationFromToolCall (toolCall p) (result p) <> Throw ->
  exists vfs', trackOperation vfs p = Ok vfs'.
Proof.
  intros H. unfold trackOperation.
  destruct (extractFileOperationFromToolCall (toolCall p) (result p))
    as [[operation|]|] eqn:E; simpl; [| now eexists | contradiction].
  destruct (Json.truthy (filepath operation)); [|now eexists].
  destruct (op_type operation); try now eexists.
  destruct (JSON_parse (argumentsOrEmpty (toolCall p))) eqn:Hp; [now eexists|].
  exfalso. unfold extractFileOperationFromToolCall in E. rewrite Hp in E.
  destruct (negb (nonEmpty (tc_name (toolCall p)))
            || negb (nonEmpty (tc_id (toolCall p)))); discriminate.
Qed.

Lemma buildVirtualFileSystemFrom_returns (pairs : list ToolCallPair)
  (vfs : VirtualFileSystem) :
  (forall p, In p pairs ->
             extractFileOperationFromToolCall (toolCall p) (result p) <> Throw) ->
  exists vfs', buildVirtualFileSystemFrom vfs pairs = Ok vfs'.
Proof.
  revert vfs. induction pairs as [|p rest IH]; intros vfs H; simpl;
    [now eexists|].
  destruct (@trackOperation_returns vfs p (H p (or_introl eq_refl))) as [v ->].
  simpl. apply IH. intros q Hq. apply H. now right.
Qed.

Lemma reconfigure_returns (finalMessages : list Message) :
  (forall p, In p (movedPairsOf finalMessages) ->
             extractFileOperationFromToolCall (toolCall p) (result p) <> Throw) ->
  exists newMessages, reconfigureFinalMessages finalMessages = Ok newMessages.
Proof.
  intros H. unfold reconfigureFinalMessages, deconstructMessages.
  destruct finalMessages as [|m0 [|m1 [|m2 real]]]; try (simpl; now eexists).
  simpl in H.
  destruct (@buildVirtualFileSystemFrom_returns _ [] H) as [vfs Hv].
  unfold buildVirtualFileSystem. rewrite Hv. simpl.
  unfold filterToolCallsForVirtualFileSystem.
  destruct (collectFileOperationIds_returns _ H) as [ids ->]. simpl.
  now eexists.
Qed.

(** The shape of what the pipeline returns. *)
Lemma reconfigure_inv (finalMessages newMessages : list Message) :
  reconfigureFinalMessages finalMessages = Ok newMessages ->
  exists d,
    deconstructMessages finalMessages = Ok d
    /\ newMessages
       = System (CText (buildContextStuffedSystemPrompt (toolCallPairs d)
                          (cannedUserContext d) (virtualFileSystem d)))
         :: collapseFrom None
              (rebuildFrom d (analyzeToolCallStrategy (realConversation d))
                 (movedToSystemPromptToolCallIds d) 0 (realConversation d)).
Proof.
  unfold reconfigureFinalMessages.
  destruct (deconstructMessages finalMessages) as [d|]; simpl; [|discriminate].
  intros [= <-]. exists d. split; reflexivity.
Qed.

(** *** The rebuilder and the collapser: roles *)

Lemma flushRun_assistants (run : option (list string * list ToolCall)) :
  Forall (fun m => isAssistant m = true) (flushRun run).
Proof.
  destruct run as [[contents calls]|]; simpl; [|constructor].
  unfold consolidate.
  destruct contents, calls; repeat constructor.
Qed.

(** The collapser leaves the messages that are not assistant messages as
    they are, in their order. *)
Lemma collapseFrom_others (run : option (list string * list ToolCall))
  (messages : list Message) :
  filter (fun m => negb (isAssistant m)) (collapseFrom run messages)
  = filter (fun m => negb (isAssistant m)) messages.
Proof.
  assert (Hflush : forall r, filter (fun m => negb (isAssistant m)) (flushRun r) = []).
  { intros r. pose proof (flushRun_assistants r) as H.
    induction H as [|m l Hm _ IH]; simpl; [reflexivity|]. now rewrite Hm. }
  revert run. induction messages as [|m rest IH]; intros run; simpl.
  - apply Hflush.
  - destruct m as [c|c|c tcs|c k|c];
      try (rewrite filter_app, Hflush; simpl; now rewrite IH).
    destruct run as [[contents calls]|]; apply IH.
Qed.

Lemma filter_narrow {A : Type} (p q : A -> bool) (l : list A) :
  (forall x, p x = true -> q x = true) ->
  filter p (filter q l) = filter p l.
Proof.
  intros H. induction l as [|x l IH]; simpl; [reflexivity|].
  destruct (q x) eqn:Hq; simpl.
  - now rewrite IH.
  - destruct (p x) eqn:Hp; [|exact IH]. rewrite (H x Hp) in Hq. discriminate.
Qed.

Lemma collapseFrom_role (p : Message -> bool)
  (run : option (list string * list ToolCall)) (messages : list Message) :
  (forall m, p m = true -> isAssistant m = false) ->
  filter p (collapseFrom run messages) = filter p messages.
Proof.
  intros H.
  rewrite <- (@filter_narrow _ p (fun m => negb (isAssistant m)) (collapseFrom run messages)),
          <- (@filter_narrow _ p (fun m => negb (isAssistant m)) messages).
  - now rewrite collapseFrom_others.
  - intros x Hx. now rewrite (H x Hx).
  - intros x Hx. now rewrite (H x Hx).
Qed.




(** *** User messages *)

Lemma rebuildFrom_users (d : DeconstructedMessages) (strategy : Strategy)
  (moved : list string) (i : nat) (messages : list Message) :
  filter isUser (rebuildFrom d strategy moved i messages)
  = map snd
      (filter (userMessageKept (keepLastToolSequence strategy)
                 (List.length (realConversation d)))
         (combine (seq i (List.length messages)) messages)).
Proof.
  revert i. induction messages as [|m rest IH]; intros i; simpl; [reflexivity|].
  rewrite filter_app, IH. unfold userMessageKept at 2. simpl.
  destruct m as [c|c|c [| |calls]|c k|c]; simpl; try reflexivity.
  - destruct (isPleaseContinue c); simpl; [|reflexivity].
    now destruct (_ && _).
  - now destruct (hasContent c).
  - destruct (filter _ calls); [now destruct (hasContent c)|reflexivity].
  - now destruct (_ && _).
Qed.

Lemma In_combine_seq {A : Type} (l : list A) (a i : nat) (x : A) :
  In (i, x) (combine (seq a (List.length l)) l)
  <-> a <= i /\ nth_error l (i - a) = Some x.
Proof.
  revert a. induction l as [|y l IH]; intros a; simpl.
  - split; [intros []|]. intros [_ H]. destruct (i - a); discriminate.
  - rewrite IH. split.
    + intros [[= <- <-]|[Hle Hn]].
      * split; [lia|]. now rewrite Nat.sub_diag.
      * split; [lia|]. replace (i - a) with (S (i - S a)) by lia. exact Hn.
    + intros [Hle Hn]. destruct (i - a) as [|k] eqn:E.
      * left. injection Hn as ->. f_equal. lia.
      * right. split; [lia|]. replace (i - S a) with k by lia. exact Hn.
Qed.

(** C7: the user messages of the output are, in order, the user messages
    of the real conversation that the rebuilder lets through; a user
    message whose trimmed content is ["Please continue."] is let through
    if and only if it is the last element of the real conversation and the
    analyzed strategy keeps the last cycle, and every other user message is
    let through. *)
Theorem please_continue_kept_only_last (finalMessages newMessages : list Message) :
  reconfigureFinalMessages finalMessages = Ok newMessages ->
  let real := realConversationOf finalMessages in
  let keep := keepLastToolSequence (analyzeToolCallStrategy real) in
  let through :=
    filter (userMessageKept keep (List.length real))
      (combine (seq 0 (List.length real)) real) in
  filter isUser newMessages = map snd through
  /\ (forall i content,
        nth_error real i = Some (User content) ->
        isPleaseContinue content = true ->
        (In (i, User content) through <-> i = List.length real - 1 /\ keep = true))
  /\ (forall i content,
        nth_error real i = Some (User content) ->
        isPleaseContinue content = false ->
        In (i, User content) through).
Proof.
  intros H real keep through. split; [|split].
  - apply reconfigure_inv in H.
    destruct H as (d & Hd & ->). apply deconstruct_inv in Hd.
    destruct Hd as (Hreal & _). simpl.
    rewrite collapseFrom_role by (now intros []).
    rewrite rebuildFrom_users, Hreal. reflexivity.
  - intros i content Hi Hpc. subst through. rewrite filter_In, In_combine_seq.
    rewrite Nat.sub_0_r. unfold userMessageKept. simpl. rewrite Hpc. simpl.
    rewrite andb_true_iff, Nat.eqb_eq. split.
    + intros [_ H']. exact H'.
    + intros H'. split; [split; [lia|exact Hi]|exact H'].
  - intros i content Hi Hpc. subst through. rewrite filter_In, In_combine_seq.
    rewrite Nat.sub_0_r. unfold userMessageKept. simpl. rewrite Hpc. simpl.
    split; [split; [lia|exact Hi]|reflexivity].
Qed.

(** *** Tool linkage *)

Lemma linkedWith_spec (messages : list Message) (seen : list string) :
  linkedWith seen messages
  <-> (forall i content toolCallId,
         nth_error messages i = Some (Tool content toolCallId) ->
         In toolCallId seen
         \/ exists j content' calls tc,
              j < i
              /\ nth_error messages j = Some (Assistant content' (ToolCallsList calls))
              /\ In tc calls
              /\ tc_id tc = toolCallId).
Proof.
  revert seen. induction messages as [|m rest IH]; intros seen.
  - simpl. split; [intros _ [|i] ? ? H; discriminate|trivial].
  - assert (Hskip : forall seen',
               (forall k c calls, m <> Tool c k /\ m <> Assistant c (ToolCallsList calls)) ->
               (linkedWith seen' rest <->
                (forall i content toolCallId,
                   nth_error (m :: rest) i = Some (Tool content toolCallId) ->
                   In toolCallId seen'
                   \/ exists j content' calls tc,
                        j < i
                        /\ nth_error (m :: rest) j
                           = Some (Assistant content' (ToolCallsList calls))
                        /\ In tc calls /\ tc_id tc = toolCallId))).
    { intros seen' Hm. rewrite IH. split.
      - intros H [|i] content k Hi.
        + simpl in Hi. injection Hi as ->. now destruct (Hm k content []).
        + destruct (H i content k Hi) as [Hs|(j & c' & calls & tc & Hj & Hn & Hin & Hid)];
            [now left|right].
          exists (S j), c', calls, tc. repeat split; [lia|exact Hn|exact Hin|exact Hid].
      - intros H i content k Hi.
        destruct (H (S i) content k Hi)
          as [Hs|(j & c' & calls & tc & Hj & Hn & Hin & Hid)]; [now left|right].
        destruct j as [|j].
        + simpl in Hn. injection Hn as ->. now destruct (Hm k c' calls).
        + exists j, c', calls, tc. repeat split; [lia|exact Hn|exact Hin|exact Hid]. }
    destruct m as [c|c|c [| |calls]|c k|c];
      try (apply Hskip; intros; split; discriminate).
    + (* an assistant message with calls *)
      simpl linkedWith. rewrite IH. split.
      * intros H [|i] content k Hi; [discriminate|].
        destruct (H i content k Hi) as [Hs|(j & c' & calls' & tc & Hj & Hn & Hin & Hid)].
        -- apply in_app_or in Hs. destruct Hs as [Hs|Hs]; [right|now left].
           apply in_map_iff in Hs. destruct Hs as (tc & Hid & Hin).
           exists 0, c, calls, tc. repeat split; [lia|exact Hin|exact Hid].
        -- right. exists (S j), c', calls', tc.
           repeat split; [lia|exact Hn|exact Hin|exact Hid].
      * intros H i content k Hi.
        destruct (H (S i) content k Hi)
          as [Hs|(j & c' & calls' & tc & Hj & Hn & Hin & Hid)].
        -- left. apply in_or_app. now right.
        -- destruct j as [|j].
           ++ simpl in Hn. injection Hn as <- <-. left. apply in_or_app. left.
              apply in_map_iff. now exists tc.
           ++ right. exists j, c', calls', tc.
              repeat split; [lia|exact Hn|exact Hin|exact Hid].
    + (* a tool message *)
      simpl linkedWith. rewrite IH. split.
      * intros [Hk H] [|i] content k' Hi.
        -- simpl in Hi. injection Hi as <- <-. now left.
        -- destruct (H i content k' Hi)
             as [Hs|(j & c' & calls & tc & Hj & Hn & Hin & Hid)]; [now left|right].
           exists (S j), c', calls, tc. repeat split; [lia|exact Hn|exact Hin|exact Hid].
      * intros H. split.
        -- destruct (H 0 c k eq_refl) as [Hs|(j & _ & _ & _ & Hj & _)];
             [exact Hs|lia].
        -- intros i content k' Hi.
           destruct (H (S i) content k' Hi)
             as [Hs|(j & c' & calls & tc & Hj & Hn & Hin & Hid)]; [now left|right].
           destruct j as [|j]; [discriminate|].
           exists j, c', calls, tc. repeat split; [lia|exact Hn|exact Hin|exact Hid].
Qed.

Lemma toolLinked_linkedWith (messages : list Message) :
  toolLinked messages <-> linkedWith [] messages.
Proof.
  rewrite linkedWith_spec. unfold toolLinked. split.
  - intros H i c k Hi. right. eauto.
  - intros H i c k Hi. destruct (H i c k Hi) as [[]|Hex]. exact Hex.
Qed.

Lemma linkedWith_incl (seen seen' : list string) (messages : list Message) :
  incl seen seen' -> linkedWith seen messages -> linkedWith seen' messages.
Proof.
  revert seen seen'. induction messages as [|m rest IH]; intros seen seen' Hincl;
    simpl; [trivial|].
  destruct m as [c|c|c [| |calls]|c k|c]; try (apply IH; exact Hincl).
  - apply IH. apply incl_app; [apply incl_appl, incl_refl|now apply incl_appr].
  - intros [Hk H]. split; [now apply Hincl|]. eapply IH; eassumption.
Qed.

Lemma map_filter_tc_id (moved : list string) (calls : list ToolCall) :
  map tc_id (filter (fun tc => nonEmpty (tc_id tc)
                               && negb (JsString.includes (tc_id tc) moved)) calls)
  = filter (idKept moved) (map tc_id calls).
Proof.
  induction calls as [|tc calls IH]; simpl; [reflexivity|].
  unfold idKept at 1. destruct (_ && _); simpl; now rewrite IH.
Qed.

(** The rebuilder keeps a linked conversation linked. *)
Lemma rebuildFrom_linked (d : DeconstructedMessages) (strategy : Strategy)
  (moved : list string) (messages : list Message) (i : nat) (seen : list string) :
  linkedWith seen messages ->
  linkedWith (filter (idKept moved) seen) (rebuildFrom d strategy moved i messages).
Proof.
  revert i seen. induction messages as [|m rest IH]; intros i seen; simpl;
    [trivial|].
  destruct m as [c|c|c [| |calls]|c k|c]; simpl.
  - apply IH.
  - intros H. destruct (isPleaseContinue c); [destruct (_ && _)|]; simpl;
      now apply IH.
  - apply IH.
  - intros H. destruct (hasContent c); simpl; now apply IH.
  - intros H. apply (IH (S i)) in H. rewrite filter_app in H.
    rewrite <- map_filter_tc_id in H.
    destruct (filter _ calls) as [|tc kept] eqn:E.
    + simpl in H. destruct (hasContent c); simpl; exact H.
    + simpl. exact H.
  - intros [Hk H]. fold (idKept moved k).
    destruct (idKept moved k) eqn:Hkept; simpl.
    + split; [apply filter_In; now split|now apply IH].
    + now apply IH.
  - apply IH.
Qed.

Lemma flushRun_linked (run : option (list string * list ToolCall))
  (seen : list string) (rest : list Message) :
  linkedWith (pendingIds run ++ seen)%list rest ->
  linkedWith seen (flushRun run ++ rest)%list.
Proof.
  destruct run as [[contents calls]|]; simpl; [|trivial].
  unfold consolidate. destruct contents, calls; simpl; trivial.
Qed.

(** The collapser keeps a linked list linked. *)
Lemma collapseFrom_linked (messages : list Message)
  (run : option (list string * list ToolCall)) (seenIn seenOut : list string) :
  incl seenIn (pendingIds run ++ seenOut)%list ->
  linkedWith seenIn messages ->
  linkedWith seenOut (collapseFrom run messages).
Proof.
  revert run seenIn seenOut.
  induction messages as [|m rest IH]; intros run seenIn seenOut Hincl.
  - intros _. simpl. rewrite <- (app_nil_r (flushRun run)).
    now apply flushRun_linked.
  - assert (Hother : forall seen',
               incl seen' (pendingIds run ++ seenOut)%list ->
               linkedWith seen' rest ->
               linkedWith (pendingIds run ++ seenOut)%list (collapseFrom None rest)).
    { intros seen' Hs H. eapply IH; [|exact H]. exact Hs. }
    destruct m as [c|c|c tcs|c k|c]; simpl;
      try (intros H; apply flushRun_linked; simpl; now apply (Hother seenIn)).
    + (* an assistant message joins the run *)
      intros H.
      destruct run as [[contents calls]|].
      * eapply (IH _ (map tc_id (callsOf tcs) ++ seenIn)%list).
        -- simpl. rewrite map_app, <- app_assoc.
           simpl in Hincl. intros x Hx. apply in_app_or in Hx.
           destruct Hx as [Hx|Hx].
           ++ apply in_or_app. right. apply in_or_app. now left.
           ++ apply Hincl in Hx. apply in_app_or in Hx. destruct Hx as [Hx|Hx].
              ** apply in_or_app. now left.
              ** apply in_or_app. right. apply in_or_app. now right.
        -- destruct tcs; simpl; exact H.
      * eapply (IH _ (map tc_id (callsOf tcs) ++ seenIn)%list).
        -- simpl. simpl in Hincl. apply incl_app;
             [apply incl_appl, incl_refl|now apply incl_appr].
        -- destruct tcs; simpl; exact H.
    + (* a tool message ends the run *)
      intros [Hk H]. apply flushRun_linked. simpl. split.
      * now apply Hincl.
      * now apply (Hother seenIn).
Qed.

(** A linked input whose first three messages carry no tool call has a
    linked real conversation. *)
Lemma realConversationOf_linked (finalMessages : list Message) :
  toolLinked finalMessages ->
  (3 <= List.length finalMessages ->
   forall content calls,
     In (Assistant content (ToolCallsList calls)) (firstn 3 finalMessages) ->
     calls = []) ->
  toolLinked (realConversationOf finalMessages).
Proof.
  intros Hlinked Hpre.
  destruct finalMessages as [|m0 [|m1 [|m2 real]]]; try exact Hlinked.
  apply toolLinked_linkedWith in Hlinked. apply toolLinked_linkedWith.
  assert (Hlen : 3 <= List.length (m0 :: m1 :: m2 :: real)) by (simpl; lia).
  specialize (Hpre Hlen). simpl firstn in Hpre. simpl realConversationOf.
  assert (Hstep : forall m rest,
             (forall content calls, m = Assistant content (ToolCallsList calls) ->
                                    calls = []) ->
             linkedWith [] (m :: rest) -> linkedWith [] rest).
  { intros m rest Hm H. destruct m as [c|c|c [| |calls]|c k|c]; simpl in H;
      try exact H.
    - rewrite (Hm c calls eq_refl) in H. exact H.
    - now destruct H. }
  apply (Hstep m2); [intros c calls ->; apply (Hpre c calls); simpl; auto|].
  apply (Hstep m1); [intros c calls ->; apply (Hpre c calls); simpl; auto|].
  apply (Hstep m0); [intros c calls ->; apply (Hpre c calls); simpl; auto|].
  exact Hlinked.
Qed.

(** C1, as amended: when the real conversation is tool-linked, so is the
    list returned; this is the case of every tool-linked input whose first
    three messages, when it has as many, carry no tool call. *)
Theorem output_is_tool_linked (finalMessages newMessages : list Message) :
  reconfigureFinalMessages finalMessages = Ok newMessages ->
  (toolLinked (realConversationOf finalMessages) -> toolLinked newMessages)
  /\ (toolLinked finalMessages ->
      (3 <= List.length finalMessages ->
       forall content calls,
         In (Assistant content (ToolCallsList calls)) (firstn 3 finalMessages) ->
         calls = []) ->
      toolLinked newMessages).
Proof.
  intros H.
  assert (Hmain : toolLinked (realConversationOf finalMessages) ->
                  toolLinked newMessages).
  { intros Hreal. apply reconfigure_inv in H. destruct H as (d & Hd & ->).
    apply deconstruct_inv in Hd. destruct Hd as (Hr & _).
    apply toolLinked_linkedWith. simpl.
    apply (@collapseFrom_linked _ None [] []); [apply incl_refl|].
    apply toolLinked_linkedWith in Hreal. rewrite <- Hr in Hreal.
    exact (@rebuildFrom_linked d _ _ _ 0 [] Hreal). }
  split; [exact Hmain|].
  intros Hlinked Hpre. apply Hmain. now apply realConversationOf_linked.
Qed.

(** *** The kept tool cycle *)

Lemma rebuildFrom_app (d : DeconstructedMessages) (strategy : Strategy)
  (moved : list string) (a b : list Message) (i : nat) :
  rebuildFrom d strategy moved i (a ++ b)%list
  = (rebuildFrom d strategy moved i a
     ++ rebuildFrom d strategy moved (i + List.length a) b)%list.
Proof.
  revert i. induction a as [|m a IH]; intros i; simpl.
  - now rewrite Nat.add_0_r.
  - rewrite IH, <- app_assoc. do 3 f_equal. lia.
Qed.

Lemma collapseFrom_split (l1 l2 : list Message) (m : Message)
  (run : option (list string * list ToolCall)) :
  isAssistant m = false ->
  collapseFrom run (l1 ++ m :: l2)%list
  = (collapseFrom run l1 ++ m :: collapseFrom None l2)%list.
Proof.
  intros Hm. revert run. induction l1 as [|x l1 IH]; intros run; simpl.
  - destruct m; try reflexivity. discriminate.
  - destruct x as [c|c|c tcs|c k|c];
      try (rewrite IH, <- app_assoc; reflexivity).
    destruct run as [[contents calls]|]; apply IH.
Qed.

Lemma hasToolCallId_app (toolCallId : string) (a b : list ToolCall) :
  hasToolCallId toolCallId (a ++ b)%list
  = hasToolCallId toolCallId a || hasToolCallId toolCallId b.
Proof. unfold hasToolCallId. apply existsb_app. Qed.

Lemma flushRun_carries (toolCallId : string)
  (run : option (list string * list ToolCall)) :
  existsb (carries toolCallId) (flushRun run)
  = match run with
    | Some (_, calls) => hasToolCallId toolCallId calls
    | None => false
    end.
Proof.
  destruct run as [[contents calls]|]; simpl; [|reflexivity].
  unfold consolidate. destruct contents, calls; simpl;
    rewrite ?orb_false_r; reflexivity.
Qed.

(** The collapser loses no tool call. *)
Lemma collapseFrom_carries (toolCallId : string) (messages : list Message)
  (run : option (list string * list ToolCall)) :
  existsb (carries toolCallId) (collapseFrom run messages)
  = match run with
    | Some (_, calls) => hasToolCallId toolCallId calls
    | None => false
    end
    || existsb (carries toolCallId) messages.
Proof.
  revert run. induction messages as [|m rest IH]; intros run; simpl.
  - now rewrite flushRun_carries, orb_false_r.
  - destruct m as [c|c|c tcs|c k|c];
      try (rewrite existsb_app, flushRun_carries; simpl; now rewrite IH).
    destruct run as [[contents calls]|]; rewrite IH; simpl.
    + rewrite hasToolCallId_app, <- orb_assoc. destruct tcs; reflexivity.
    + destruct tcs; reflexivity.
Qed.

Lemma hasToolCallId_filter (moved : list string) (toolCallId : string)
  (calls : list ToolCall) :
  idKept moved toolCallId = true ->
  hasToolCallId toolCallId
    (filter (fun tc => nonEmpty (tc_id tc)
                       && negb (JsString.includes (tc_id tc) moved)) calls)
  = hasToolCallId toolCallId calls.
Proof.
  intros Hkept. induction calls as [|tc calls IH]; simpl; [reflexivity|].
  destruct (String.eqb_spec (tc_id tc) toolCallId) as [E|E].
  - rewrite E. fold (idKept moved toolCallId). rewrite Hkept. simpl.
    rewrite E, String.eqb_refl. reflexivity.
  - destruct (_ && _); simpl; [|exact IH].
    destruct (String.eqb_spec (tc_id tc) toolCallId); [contradiction|exact IH].
Qed.

(** The rebuilder loses no call whose id is kept. *)
Lemma rebuildFrom_carries (d : DeconstructedMessages) (strategy : Strategy)
  (moved : list string) (toolCallId : string) (messages : list Message) (i : nat) :
  idKept moved toolCallId = true ->
  existsb (carries toolCallId) messages = true ->
  existsb (carries toolCallId) (rebuildFrom d strategy moved i messages) = true.
Proof.
  intros Hkept. revert i. induction messages as [|m rest IH]; intros i; simpl;
    [discriminate|].
  rewrite existsb_app. intros H. apply orb_true_iff in H. apply orb_true_iff.
  destruct H as [H|H]; [left|right; now apply IH].
  destruct m as [c|c|c [| |calls]|c k|c]; try discriminate.
  simpl in H. simpl.
  pose proof (@hasToolCallId_filter moved toolCallId calls Hkept) as Hf.
  destruct (filter _ calls) as [|tc kept].
  - rewrite H in Hf. discriminate.
  - simpl. rewrite orb_false_r. simpl in Hf. now rewrite Hf.
Qed.

Lemma existsb_carries_In (toolCallId : string) (messages : list Message) :
  existsb (carries toolCallId) messages = true
  <-> exists content calls,
        In (Assistant content (ToolCallsList calls)) messages
        /\ hasToolCallId toolCallId calls = true.
Proof.
  rewrite existsb_exists. split.
  - intros (m & Hin & Hm). destruct m as [c|c|c [| |calls]|c k|c]; try discriminate.
    now exists c, calls.
  - intros (c & calls & Hin & Hhas). now exists (Assistant c (ToolCallsList calls)).
Qed.

Lemma findAssistant_some (l : list Message) (toolCallId : string)
  (calls : list ToolCall) :
  findAssistantMessageWithToolCalls l toolCallId = Some calls ->
  hasToolCallId toolCallId calls = true.
Proof.
  induction l as [|m l IH]; simpl; [discriminate|].
  destruct m as [c|c|c [| |calls']|c k|c]; try exact IH.
  destruct (hasToolCallId toolCallId calls') eqn:E; [|exact IH].
  now intros [= <-].
Qed.

Lemma includes_In (x : string) (l : list string) :
  JsString.includes x l = true <-> In x l.
Proof.
  unfold JsString.includes. rewrite existsb_exists. split.
  - intros (y & Hin & Heq). apply String.eqb_eq in Heq. now subst.
  - intros Hin. exists x. split; [exact Hin|apply String.eqb_refl].
Qed.

(** An owned tool result that closes the conversation is among the ids
    the strategy keeps. *)
Lemma owned_last_result_is_kept (before : list Message) (content : Content)
  (toolCallId : string) :
  toolCallId <> "" ->
  existsb (carries toolCallId) before = true ->
  let strategy := analyzeToolCallStrategy (before ++ [Tool content toolCallId])%list in
  keepLastToolSequence strategy = true
  /\ JsString.includes toolCallId (lastToolCallIds strategy) = true.
Proof.
  intros Hne Howned strategy. subst strategy.
  rewrite analyze_ends_in_tool. unfold strategyForToolResult.
  unfold nonEmpty. destruct (String.eqb_spec toolCallId ""); [contradiction|].
  simpl.
  destruct (findAssistantMessageWithToolCalls _ toolCallId) as [calls|] eqn:E.
  - simpl. split; [reflexivity|]. apply includes_In, filter_In. split.
    + apply findAssistant_some in E. unfold hasToolCallId in E.
      apply existsb_exists in E. destruct E as (tc & Hin & Heq).
      apply String.eqb_eq in Heq. apply in_map_iff. now exists tc.
    + unfold nonEmpty. now destruct (String.eqb_spec toolCallId "").
  - exfalso. rewrite findAssistant_none in E.
    apply existsb_carries_In in Howned. destruct Howned as (c & calls & Hin & Hhas).
    rewrite (E c calls) in Hhas; [discriminate|]. apply in_or_app. now left.
Qed.

Lemma pairToolResults_inv (strategy : Strategy)
  (toolCallMap : list (string * ToolCall)) (finalMessages : list Message)
  (p : ToolCallPair) :
  In p (pairToolResults strategy toolCallMap finalMessages) ->
  exists k,
    In (Tool (CText (result p)) k) finalMessages
    /\ nonEmpty k = true
    /\ Json.assoc k toolCallMap = Some (toolCall p)
    /\ (keepLastToolSequence strategy = true ->
        JsString.includes k (lastToolCallIds strategy) = false).
Proof.
  induction finalMessages as [|m rest IH]; simpl; [intros []|].
  assert (Hrest : In p (pairToolResults strategy toolCallMap rest) ->
                  exists k,
                    (m = Tool (CText (result p)) k
                     \/ In (Tool (CText (result p)) k) rest)
                    /\ nonEmpty k = true
                    /\ Json.assoc k toolCallMap = Some (toolCall p)
                    /\ (keepLastToolSequence strategy = true ->
                        JsString.includes k (lastToolCallIds strategy) = false)).
  { intros H. destruct (IH H) as (k & Hin & Hrest). exists k. split; [now right|exact Hrest]. }
  destruct m as [| | |[s| |] k|]; try exact Hrest.
  destruct (nonEmpty k) eqn:Hk; [|exact Hrest].
  destruct (Json.assoc k toolCallMap) as [tc|] eqn:Hassoc; [|exact Hrest].
  destruct (keepLastToolSequence strategy) eqn:Hkeep; simpl.
  - destruct (JsString.includes k (lastToolCallIds strategy)) eqn:Hinc; simpl;
      [exact Hrest|].
    intros [<-|Hin]; [|now apply Hrest].
    exists k. simpl. repeat split; auto.
  - intros [<-|Hin]; [|now apply Hrest].
    exists k. simpl. repeat split; auto. discriminate.
Qed.

(** The id of a moved pair is not empty, and is none of the ids that the
    strategy keeps. *)
Lemma moved_pair_id (finalMessages : list Message) (p : ToolCallPair) :
  In p (movedPairsOf finalMessages) ->
  let strategy := analyzeToolCallStrategy (realConversationOf finalMessages) in
  nonEmpty (tc_id (toolCall p)) = true
  /\ (keepLastToolSequence strategy = true ->
      JsString.includes (tc_id (toolCall p)) (lastToolCallIds strategy) = false).
Proof.
  unfold movedPairsOf, realConversationOf.
  destruct finalMessages as [|m0 [|m1 [|m2 real]]]; try (intros []).
  unfold movableToolCallPairs. simpl skipn. intros Hin.
  apply pairToolResults_inv in Hin. destruct Hin as (k & _ & Hk & Hassoc & Hkeep).
  apply assoc_In in Hassoc.
  pose proof (collectToolCallMap_keyed (m0 :: m1 :: m2 :: real)) as Hkeyed.
  rewrite Forall_forall in Hkeyed. specialize (Hkeyed _ Hassoc). simpl in Hkeyed.
  destruct Hkeyed as [<- _]. now split.
Qed.

Lemma collectFileOperationIds_incl (pairs : list ToolCallPair) (ids : list string) :
  collectFileOperationIds pairs = Ok ids ->
  incl ids (map (fun p => tc_id (toolCall p)) pairs).
Proof.
  revert ids. induction pairs as [|p rest IH]; intros ids H; simpl in H.
  - injection H as <-. apply incl_nil_l.
  - destruct (extractFileOperationFromToolCall (toolCall p) (result p))
      as [operation|]; simpl in H; [|discriminate].
    destruct (collectFileOperationIds rest) as [ids'|]; simpl in H; [|discriminate].
    injection H as <-. specialize (IH ids' eq_refl).
    destruct operation; simpl.
    + apply incl_cons; [now left|now apply incl_tl].
    + now apply incl_tl.
Qed.

(** Every moved id is the id of a moved pair. *)
Lemma moved_ids_from_pairs (finalMessages : list Message) (d : DeconstructedMessages)
  (x : string) :
  deconstructMessages finalMessages = Ok d ->
  In x (movedToSystemPromptToolCallIds d) ->
  exists p, In p (movedPairsOf finalMessages) /\ tc_id (toolCall p) = x.
Proof.
  intros Hd Hx. apply deconstruct_inv in Hd.
  destruct Hd as (_ & _ & Hids & Hfilter).
  unfold movedToSystemPromptToolCallIds in Hx. apply in_app_or in Hx.
  destruct Hx as [Hx|Hx].
  - apply filter_In in Hx. destruct Hx as [Hx _].
    apply in_map_iff in Hx. destruct Hx as (p & Hid & Hin).
    unfold filterToolCallsForVirtualFileSystem in Hfilter.
    destruct (collectFileOperationIds (movedPairsOf finalMessages)); simpl in Hfilter;
      [|discriminate].
    injection Hfilter as Hf. rewrite <- Hf in Hin. apply filter_In in Hin.
    exists p. now split.
  - apply collectFileOperationIds_incl in Hids. apply Hids in Hx.
    apply in_map_iff in Hx. destruct Hx as (p & Hid & Hin). now exists p.
Qed.

Lemma moved_not_kept (finalMessages : list Message) (d : DeconstructedMessages)
  (x : string) :
  deconstructMessages finalMessages = Ok d ->
  keepLastToolSequence (analyzeToolCallStrategy (realConversationOf finalMessages))
  = true ->
  In x (movedToSystemPromptToolCallIds d) ->
  JsString.includes x
    (lastToolCallIds (analyzeToolCallStrategy (realConversationOf finalMessages)))
  = false.
Proof.
  intros Hd Hkeep Hx.
  destruct (@moved_ids_from_pairs finalMessages d x Hd Hx) as (p & Hin & <-).
  now apply (@moved_pair_id finalMessages p Hin).
Qed.

Lemma realConversationOf_suffix (finalMessages : list Message) :
  exists pre, finalMessages = (pre ++ realConversationOf finalMessages)%list.
Proof.
  destruct finalMessages as [|m0 [|m1 [|m2 real]]]; try (now exists []).
  now exists [m0; m1; m2].
Qed.

Lemma suffix_keeps_last (pre r before : list Message) (x : Message) :
  (pre ++ r)%list = (before ++ [x])%list -> r <> [] ->
  exists before', r = (before' ++ [x])%list.
Proof.
  intros H Hne. destruct (exists_last Hne) as (r' & y & ->).
  rewrite app_assoc in H. apply app_inj_tail in H. destruct H as [_ ->].
  now exists r'.
Qed.

Lemma truncateSearchResult_other (functionName res : string) :
  functionName <> "search_file_content" ->
  truncateSearchResult functionName res = res.
Proof.
  intros H. unfold truncateSearchResult.
  now destruct (String.eqb_spec functionName "search_file_content").
Qed.

Lemma rebuildMessage_kept_tool (d : DeconstructedMessages) (strategy : Strategy)
  (moved : list string) (i : nat) (content : Content) (toolCallId : string) :
  idKept moved toolCallId = true ->
  rebuildMessage d strategy moved i (Tool content toolCallId)
  = [Tool (rewrittenContent (realConversation d) content toolCallId) toolCallId].
Proof.
  intros H. unfold rebuildMessage. fold (idKept moved toolCallId). now rewrite H.
Qed.

(** C3, as amended: when the input ends in a tool message whose id is not
    empty and is carried by a call of an assistant message of the real
    conversation, the output ends in that tool message, its content
    rewritten by the search-result truncator (and left as it is unless the
    call found for the id is a [search_file_content] call), and an
    assistant message carrying a call with that id stands at an earlier
    index of the output. *)
Theorem output_ends_in_kept_tool_result
  (before finalMessages newMessages : list Message)
  (content : Content) (toolCallId : string) :
  finalMessages = (before ++ [Tool content toolCallId])%list ->
  toolCallId <> "" ->
  (exists content' calls,
     In (Assistant content' (ToolCallsList calls)) (realConversationOf finalMessages)
     /\ hasToolCallId toolCallId calls = true) ->
  reconfigureFinalMessages finalMessages = Ok newMessages ->
  exists front,
    newMessages
    = (front ++ [Tool (rewrittenContent (realConversationOf finalMessages)
                         content toolCallId) toolCallId])%list
    /\ (exists j content' calls tc,
          j < List.length front
          /\ nth_error newMessages j = Some (Assistant content' (ToolCallsList calls))
          /\ In tc calls
          /\ tc_id tc = toolCallId)
    /\ ((forall tc, findToolCallById (realConversationOf finalMessages) toolCallId
                    = Some tc -> tc_name tc <> "search_file_content") ->
        rewrittenContent (realConversationOf finalMessages) content toolCallId
        = content).
Proof.
  intros Hlast Hne Howned H.
  apply reconfigure_inv in H. destruct H as (d & Hd & ->).
  pose proof (@deconstruct_inv finalMessages d Hd) as (Hreal & _).
  set (real := realConversationOf finalMessages) in *.
  apply existsb_carries_In in Howned.
  (* the real conversation ends in the tool message *)
  destruct (realConversationOf_suffix finalMessages) as [pre Hpre].
  fold real in Hpre. rewrite Hlast in Hpre.
  assert (Hnonempty : real <> []) by (intros E; rewrite E in Howned; discriminate).
  destruct (@suffix_keeps_last pre real before _ (eq_sym Hpre) Hnonempty)
    as [before' Hreal'].
  rewrite Hreal', existsb_app in Howned. simpl in Howned.
  rewrite orb_false_r in Howned.
  (* its id is kept, hence not moved *)
  destruct (@owned_last_result_is_kept before' content toolCallId Hne Howned)
    as [Hkeep Hinc].
  rewrite <- Hreal' in Hkeep, Hinc.
  assert (Hkept : idKept (movedToSystemPromptToolCallIds d) toolCallId = true).
  { unfold idKept, nonEmpty.
    destruct (String.eqb_spec toolCallId ""); [contradiction|]. simpl.
    apply negb_true_iff, not_true_iff_false. intros Hin. apply includes_In in Hin.
    pose proof (@moved_not_kept _ _ _ Hd Hkeep Hin) as Hno.
    fold real in Hno. rewrite Hinc in Hno. discriminate. }
  set (strategy := analyzeToolCallStrategy real) in *.
  set (moved := movedToSystemPromptToolCallIds d) in *.
  set (R1 := rebuildFrom d strategy moved 0 before').
  assert (Hout : collapseFrom None (rebuildFrom d strategy moved 0 real)
                 = (collapseFrom None R1
                    ++ [Tool (rewrittenContent real content toolCallId) toolCallId])%list).
  { rewrite Hreal' at 1. rewrite rebuildFrom_app. cbn [rebuildFrom].
    rewrite (@rebuildMessage_kept_tool d strategy moved
               (0 + List.length before') content toolCallId Hkept).
    rewrite Hreal, app_nil_r.
    now rewrite collapseFrom_split by reflexivity. }
  rewrite Hreal. fold strategy. rewrite Hout.
  exists (System (CText (buildContextStuffedSystemPrompt (toolCallPairs d)
                           (cannedUserContext d) (virtualFileSystem d)))
          :: collapseFrom None R1).
  split; [reflexivity|]. split.
  - assert (Hc : existsb (carries toolCallId) (collapseFrom None R1) = true).
    { rewrite collapseFrom_carries. simpl. subst R1.
      now apply rebuildFrom_carries. }
    apply existsb_carries_In in Hc. destruct Hc as (c' & calls & Hin & Hhas).
    apply In_nth_error in Hin. destruct Hin as [j Hj].
    unfold hasToolCallId in Hhas. apply existsb_exists in Hhas.
    destruct Hhas as (tc & Htc & Heq). apply String.eqb_eq in Heq.
    exists (S j), c', calls, tc. repeat split; try assumption.
    + simpl. apply -> Nat.succ_lt_mono. apply nth_error_Some. now rewrite Hj.
    + simpl. rewrite nth_error_app1; [exact Hj|].
      apply nth_error_Some. now rewrite Hj.
  - intros Hname. unfold rewrittenContent. destruct content as [s| |]; try reflexivity.
    f_equal. apply truncateSearchResult_other.
    destruct (findToolCallById real toolCallId) as [tc|] eqn:E.
    + now apply Hname.
    + discriminate.
Qed.

(** *** The virtual file system *)






Lemma append_associative (a b c : string) : (a ++ b) ++ c = a ++ b ++ c.
Proof. induction a as [|x a IH]; simpl; [reflexivity|now rewrite IH]. Qed.




Lemma pairToolResults_intro (strategy : Strategy)
  (toolCallMap : list (string * ToolCall)) (finalMessages : list Message)
  (content k : string) (tc : ToolCall) :
  In (Tool (CText content) k) finalMessages ->
  k <> "" ->
  Json.assoc k toolCallMap = Some tc ->
  keepLastToolSequence strategy = false
  \/ JsString.includes k (lastToolCallIds strategy) = false ->
  In (mkPair tc content) (pairToolResults strategy toolCallMap finalMessages).
Proof.
  intros Hin Hk Hassoc Hmove.
  assert (Hne : nonEmpty k = true)
    by (unfold nonEmpty; now destruct (String.eqb_spec k "")).
  assert (Hshould : negb (keepLastToolSequence strategy)
                    || negb (JsString.includes k (lastToolCallIds strategy)) = true).
  { destruct Hmove as [-> | ->]; [reflexivity|apply orb_true_r]. }
  induction finalMessages as [|m rest IH]; [destruct Hin|].
  destruct Hin as [->|Hin].
  - simpl. rewrite Hne, Hassoc, Hshould. now left.
  - specialize (IH Hin). simpl.
    destruct m as [| | |[s| |] k'|]; try exact IH.
    destruct (if nonEmpty k' then Json.assoc k' toolCallMap else None);
      [|exact IH].
    destruct (negb (keepLastToolSequence strategy)
              || negb (JsString.includes k' (lastToolCallIds strategy)));
      [now right|exact IH].
Qed.


(** *** Line maps *)

Lemma ascending_weaken (lo lo' : nat) (m : LineMap) :
  lo' <= lo -> ascending lo m -> ascending lo' m.
Proof.
  destruct m as [|[k v] r]; simpl; [trivial|]. intros H [Hk Hr]. split; [lia|exact Hr].
Qed.

Lemma ascending_get_below (lo k : nat) (m : LineMap) :
  ascending lo m -> k < lo -> lineMapGet k m = None.
Proof.
  revert lo. induction m as [|[k' v'] r IH]; intros lo; simpl; [reflexivity|].
  intros [Hk Hr] Hlt. destruct (Nat.eqb_spec k k'); [lia|].
  apply (IH (S k') Hr). lia.
Qed.

Lemma lineMapSet_facts (k : nat) (v : string) (m : LineMap) :
  lineMapGet k (lineMapSet k v m) = Some v
  /\ (forall k', k' <> k -> lineMapGet k' (lineMapSet k v m) = lineMapGet k' m)
  /\ (forall lo, lo <= k -> ascending lo m -> ascending lo (lineMapSet k v m)).
Proof.
  split; [|split].
  - induction m as [|[k' v'] r IH]; simpl.
    + now rewrite Nat.eqb_refl.
    + destruct (Nat.eqb_spec k k') as [E|E]; simpl.
      * now rewrite Nat.eqb_refl.
      * destruct (k <? k')%nat; simpl.
        -- now rewrite Nat.eqb_refl.
        -- destruct (Nat.eqb_spec k k'); [contradiction|exact IH].
  - intros k' Hne. induction m as [|[k0 v0] r IH]; simpl.
    + destruct (Nat.eqb_spec k' k); [contradiction|reflexivity].
    + destruct (Nat.eqb_spec k k0) as [E|E]; simpl.
      * subst k0. destruct (Nat.eqb_spec k' k); [contradiction|reflexivity].
      * destruct (k <? k0)%nat; simpl.
        -- destruct (Nat.eqb_spec k' k); [contradiction|reflexivity].
        -- destruct (Nat.eqb_spec k' k0); [reflexivity|exact IH].
  - induction m as [|[k0 v0] r IH]; intros lo Hlo; simpl.
    + intros _. split; [exact Hlo|trivial].
    + intros [Hk Hr]. destruct (Nat.eqb_spec k k0) as [E|E]; simpl.
      * subst k0. split; assumption.
      * destruct (Nat.ltb_spec k k0); simpl.
        -- split; [exact Hlo|]. split; [lia|exact Hr].
        -- split; [exact Hk|]. apply IH; [lia|exact Hr].
Qed.

(** X1: writing a line into a line map keeps the keys in ascending order,
    makes the line the one read back under its number, and leaves every
    other line as it was. *)
Theorem lineMapSet_get (k : nat) (v : string) (m : LineMap) :
  lineMapGet k (lineMapSet k v m) = Some v
  /\ (forall k', k' <> k -> lineMapGet k' (lineMapSet k v m) = lineMapGet k' m)
  /\ (forall lo, lo <= k -> ascending lo m -> ascending lo (lineMapSet k v m)).
Proof. apply lineMapSet_facts. Qed.

Lemma lineMapAssign_cons (target : LineMap) (k : nat) (v : string) (source : LineMap) :
  lineMapAssign target ((k, v) :: source)
  = lineMapAssign (lineMapSet k v target) source.
Proof. reflexivity. Qed.

Lemma lineMapAssign_lookup (lo : nat) (source target : LineMap) (k : nat) :
  ascending lo source ->
  lineMapGet k (lineMapAssign target source)
  = match lineMapGet k source with
    | Some v => Some v
    | None => lineMapGet k target
    end.
Proof.
  revert lo target. induction source as [|[k0 v0] s IH]; intros lo target Hs.
  - reflexivity.
  - rewrite lineMapAssign_cons. destruct Hs as [Hk0 Hs].
    rewrite (IH (S k0) _ Hs). simpl.
    destruct (Nat.eqb_spec k k0) as [->|Hne].
    + rewrite (@ascending_get_below (S k0) k0 s Hs) by lia.
      apply (proj1 (lineMapSet_facts k0 v0 target)).
    + destruct (lineMapGet k s); [reflexivity|].
      now apply (proj1 (proj2 (lineMapSet_facts k0 v0 target))).
Qed.

Lemma lineMapAssign_ascending (lo lo' : nat) (source target : LineMap) :
  lo <= lo' -> ascending lo' source -> ascending lo target ->
  ascending lo (lineMapAssign target source).
Proof.
  revert lo' target. induction source as [|[k0 v0] s IH]; intros lo' target Hlo Hs Ht.
  - exact Ht.
  - rewrite lineMapAssign_cons. destruct Hs as [Hk0 Hs].
    apply (IH (S k0)); [lia|exact Hs|].
    apply (proj2 (proj2 (lineMapSet_facts k0 v0 target))); [lia|exact Ht].
Qed.

(** X2: merging the lines just read into the lines already tracked: a line
    of the source replaces the tracked one, every other tracked line stays,
    and the keys stay in ascending order. *)
Theorem lineMapAssign_get (target source : LineMap) :
  ascending 1 source ->
  (forall k, lineMapGet k (lineMapAssign target source)
             = match lineMapGet k source with
               | Some v => Some v
               | None => lineMapGet k target
               end)
  /\ (ascending 1 target -> ascending 1 (lineMapAssign target source)).
Proof.
  intros Hs. split.
  - intros k. now apply (@lineMapAssign_lookup 1).
  - intros Ht. now apply (@lineMapAssign_ascending 1 1).
Qed.

(** *** The file-range reader, any offset and limit *)

Lemma readLines_map (lines : list string) (a b : Z) :
  readLines lines (Json.Num a) (Json.Num b)
  = map (fun i => (i + 1, nth i lines EmptyString))
      (seq (Z.to_nat a) (Z.to_nat (b - a))).
Proof.
  unfold readLines. now rewrite readLines_fold by constructor.
Qed.

Lemma numbered_ascending (lines : list string) (s n : nat) :
  ascending (s + 1) (map (fun i => (i + 1, nth i lines EmptyString)) (seq s n)).
Proof.
  revert s. induction n as [|n IH]; intros s; simpl; [trivial|].
  split; [lia|]. specialize (IH (S s)).
  now replace (S s + 1) with (S (s + 1)) in IH by lia.
Qed.

Lemma readLines_sound (lines : list string) (a b : Z) (k : nat) (v : string) :
  (0 <= a)%Z -> (b <= Z.of_nat (List.length lines))%Z ->
  In (k, v) (readLines lines (Json.Num a) (Json.Num b)) ->
  (a < Z.of_nat k <= b)%Z /\ nth_error lines (k - 1) = Some v.
Proof.
  intros Ha Hb. rewrite readLines_map, in_map_iff.
  intros (i & [= <- <-] & Hi). apply in_seq in Hi.
  split; [lia|].
  replace (i + 1 - 1) with i by lia.
  apply nth_error_nth'. lia.
Qed.

(** The line at which reading starts is never negative, and the line at
    which it stops never exceeds the number of lines. *)
Lemma readFileRange_bounds (len : Z) (offset limit : option json) :
  match Json.mathMax0 (orZero offset) with
  | Json.Num a => (0 <= a)%Z
  | Json.NaN => True
  end
  /\ match (match limit with
            | Some l =>
                if Json.truthy l
                then Json.mathMin len
                       (Json.addThenNumber (Json.mathMax0 (orZero offset)) l)
                else Json.Num len
            | None => Json.Num len
            end) with
     | Json.Num b => (b <= len)%Z
     | Json.NaN => True
     end.
Proof.
  split.
  - unfold Json.mathMax0. destruct (Json.toNumber (orZero offset)); [trivial|lia].
  - destruct limit as [l|]; [|lia].
    destruct (Json.truthy l); [|lia].
    unfold Json.mathMin.
    destruct (Json.addThenNumber (Json.mathMax0 (orZero offset)) l); [trivial|lia].
Qed.

Lemma readFileRange_reads_lines_of_the_file_aux
  (path : json) (offset limit : option json) :
  (readFileSync path = None -> readFileRange path offset limit = [])
  /\ (forall content,
        readFileSync path = Some content ->
        ascending 1 (readFileRange path offset limit)
        /\ forall k v,
             In (k, v) (readFileRange path offset limit) ->
             1 <= k <= List.length (JsString.splitLines content)
             /\ nth_error (JsString.splitLines content) (k - 1) = Some v).
Proof.
  split.
  - intros H. unfold readFileRange. now rewrite H.
  - intros content H. unfold readFileRange. rewrite H.
    set (lines := JsString.splitLines content).
    pose proof (readFileRange_bounds (Z.of_nat (List.length lines)) offset limit)
      as [Ha Hb].
    cbv zeta.
    destruct (Json.mathMax0 (orZero offset)) as [|a] eqn:Ea.
    { split; [exact I|intros k v []]. }
    match goal with
    | |- context [readLines lines (Json.Num a) ?e] => destruct e as [|b] eqn:Eb
    end.
    { split; [exact I|intros k v []]. }
    split.
    + rewrite readLines_map.
      eapply ascending_weaken; [|apply numbered_ascending]. lia.
    + intros k v Hin. apply readLines_sound in Hin; [|exact Ha|exact Hb].
      destruct Hin as [Hk Hv]. split; [lia|exact Hv].
Qed.

(** X3: for an offset and a limit that are each absent or an integer, of
    any sign, the reader returns nothing for a file that cannot be read,
    and for a file that can only lines of the file, each under its 1-based
    number, in ascending order. *)
Theorem readFileRange_reads_lines_of_the_file
  (path : json) (offset limit : option Z) :
  let range :=
    readFileRange path (option_map JNumber offset) (option_map JNumber limit) in
  (readFileSync path = None -> range = [])
  /\ (forall content,
        readFileSync path = Some content ->
        ascending 1 range
        /\ forall k v,
             In (k, v) range ->
             1 <= k <= List.length (JsString.splitLines content)
             /\ nth_error (JsString.splitLines content) (k - 1) = Some v).
Proof. cbv zeta. apply readFileRange_reads_lines_of_the_file_aux. Qed.

(** X4: with a numeric offset [o] and a numeric limit [l > 0], the reader
    returns the lines [o + 1] to [o + l] of the file, as far as the file
    has them. *)
Theorem readFileRange_numeric_window
  (path : json) (o l : nat) (content : string) :
  readFileSync path = Some content ->
  0 < l ->
  let lines := JsString.splitLines content in
  let n := Nat.min l (List.length lines - o) in
  readFileRange path (Some (JNumber (Z.of_nat o))) (Some (JNumber (Z.of_nat l)))
  = combine (seq (o + 1) n) (firstn n (skipn o lines)).
Proof.
  intros H Hl lines n. unfold readFileRange. rewrite H. fold lines.
  assert (Hstart : Json.mathMax0 (orZero (Some (JNumber (Z.of_nat o))))
                   = Json.Num (Z.of_nat o)).
  { unfold orZero, Json.truthy. destruct (Z.eqb_spec (Z.of_nat o) 0) as [E|E]; simpl.
    - unfold Json.mathMax0. simpl. rewrite E. reflexivity.
    - unfold Json.mathMax0. simpl. f_equal. lia. }
  cbv zeta. rewrite Hstart.
  assert (Htruthy : Json.truthy (JNumber (Z.of_nat l)) = true).
  { simpl. destruct (Z.eqb_spec (Z.of_nat l) 0); [lia|reflexivity]. }
  rewrite Htruthy. simpl Json.addThenNumber. simpl Json.mathMin.
  rewrite readLines_map, Nat2Z.id.
  replace (Z.to_nat (Z.min (Z.of_nat (List.length lines)) (Z.of_nat o + Z.of_nat l)
                     - Z.of_nat o)) with n by (subst n; lia).
  destruct (Nat.le_gt_cases (List.length lines) o) as [Hout|Hin].
  - replace n with 0 by (subst n; lia). reflexivity.
  - set (pre := firstn o lines). set (mid := firstn n (skipn o lines)).
    assert (Hpre : List.length pre = o) by (subst pre; rewrite length_firstn; lia).
    assert (Hmid : List.length mid = n).
    { subst mid. rewrite length_firstn, length_skipn. subst n. lia. }
    pose proof (numbered_lines pre mid) as Hnum.
    rewrite Hpre, Hmid in Hnum.
    replace (o + 1) with (S o) by lia. rewrite <- Hnum.
    apply map_ext_in. intros i Hi. apply in_seq in Hi. f_equal.
    assert (Hlines : lines = ((pre ++ mid) ++ skipn n (skipn o lines))%list).
    { subst pre mid. rewrite <- app_assoc, firstn_skipn, firstn_skipn. reflexivity. }
    rewrite Hlines at 1. apply app_nth1. rewrite length_app. lia.
Qed.

(** *** Ranges of consecutive lines *)

Lemma rangeEntries_extend (start finish : nat) (content : list string) (text : string) :
  rangeEntries (mkRange start finish (content ++ [text])%list)
  = (rangeEntries (mkRange start 0 content)
     ++ [(start + List.length content, text)])%list.
Proof.
  unfold rangeEntries. simpl. rewrite length_app. simpl.
  rewrite seq_app, combine_append by (now rewrite length_seq). reflexivity.
Qed.

Lemma groupLoop_entries (rest : list (nat * string)) (cur : Range) (prev : nat) :
  prev + 1 = range_start cur + List.length (range_content cur) ->
  flat_map rangeEntries (groupLoop cur prev rest)
  = (rangeEntries cur ++ rest)%list.
Proof.
  revert cur prev. induction rest as [|[n text] rest IH]; intros cur prev Hinv; simpl.
  - reflexivity.
  - destruct (Nat.eqb_spec n (prev + 1)) as [->|Hne].
    + rewrite IH by (simpl; rewrite length_app; simpl; lia).
      rewrite rangeEntries_extend, <- app_assoc. simpl. rewrite <- Hinv.
      reflexivity.
    + simpl. rewrite IH by (simpl; lia). reflexivity.
Qed.

Lemma groupLoop_shape (rest : list (nat * string)) (cur : Range) (prev : nat) :
  prev = range_end cur ->
  range_content cur <> [] ->
  range_end cur + 1 = range_start cur + List.length (range_content cur) ->
  Forall (fun r => range_content r <> []
                   /\ range_end r + 1 = range_start r + List.length (range_content r))
    (groupLoop cur prev rest).
Proof.
  revert cur prev. induction rest as [|[n text] rest IH]; intros cur prev Hp Hne Hinv;
    simpl.
  - constructor; [now split|constructor].
  - destruct (Nat.eqb_spec n (prev + 1)) as [->|Hn].
    + apply IH; simpl.
      * reflexivity.
      * now destruct (range_content cur).
      * rewrite length_app. simpl. lia.
    + constructor; [now split|]. apply IH; simpl; [reflexivity|discriminate|lia].
Qed.

Lemma groupLoop_head (rest : list (nat * string)) (cur : Range) (prev : nat) :
  exists r rs, groupLoop cur prev rest = r :: rs /\ range_start r = range_start cur.
Proof.
  revert cur prev. induction rest as [|[n text] rest IH]; intros cur prev; simpl.
  - now exists cur, [].
  - destruct (n =? prev + 1)%nat.
    + destruct (IH (mkRange (range_start cur) n (range_content cur ++ [text])%list) n)
        as (r & rs & -> & Hr).
      now exists r, rs.
    + now eexists; eexists.
Qed.

Lemma groupLoop_apart (rest : list (nat * string)) (cur : Range) (prev : nat) :
  prev = range_end cur -> apart (groupLoop cur prev rest).
Proof.
  revert cur prev. induction rest as [|[n text] rest IH]; intros cur prev Hp; simpl.
  - split; trivial.
  - destruct (Nat.eqb_spec n (prev + 1)) as [->|Hn].
    + now apply IH.
    + destruct (groupLoop_head rest (mkRange n n [text]) n) as (r & rs & E & Hr).
      specialize (IH (mkRange n n [text]) n eq_refl).
      rewrite E in *. simpl. split; [|exact IH].
      rewrite Hr. simpl. lia.
Qed.

(** X5: grouping loses and invents nothing: the ranges, each expanded into
    its numbered texts, give back the line map; every range holds at least
    one text and exactly the lines from its start to its end; and no range
    starts on the line after the end of the range before it (the runs are
    maximal). *)
Theorem groupLinesIntoRanges_round_trip (lines : LineMap) :
  flat_map rangeEntries (groupLinesIntoRanges lines) = lines
  /\ Forall (fun r => range_content r <> []
                      /\ range_end r + 1
                         = range_start r + List.length (range_content r))
       (groupLinesIntoRanges lines)
  /\ apart (groupLinesIntoRanges lines).
Proof.
  destruct lines as [|[first text] rest]; simpl.
  - split; [reflexivity|]. split; [constructor|exact I].
  - split; [|split].
    + rewrite groupLoop_entries by (simpl; lia). reflexivity.
    + apply groupLoop_shape; simpl; [reflexivity|discriminate|lia].
    + now apply groupLoop_apart.
Qed.

Lemma groupLoop_consecutive (l : list string) (cur : Range) (prev : nat) :
  groupLoop cur prev (combine (seq (prev + 1) (List.length l)) l)
  = [mkRange (range_start cur)
       (match l with [] => range_end cur | _ => prev + List.length l end)
       (range_content cur ++ l)%list].
Proof.
  revert cur prev. induction l as [|x l IH]; intros cur prev; simpl.
  - rewrite app_nil_r. now destruct cur.
  - rewrite Nat.eqb_refl.
    replace (S (prev + 1)) with ((prev + 1) + 1) by lia.
    rewrite IH. simpl. rewrite <- app_assoc. simpl.
    f_equal. f_equal. destruct l; simpl; lia.
Qed.

Lemma joinLines_splitLines (s : string) :
  JsString.joinLines (JsString.splitLines s) = s.
Proof.
  unfold JsString.joinLines.
  induction s as [|c r IH]; simpl; [reflexivity|].
  destruct (JsString.splitLines r) as [|h t] eqn:E;
    [now destruct (splitLines_nonempty r)|].
  destruct (Ascii.eqb_spec c JsString.LF) as [->|Hc].
  - simpl. simpl in IH. now rewrite IH.
  - simpl in *. destruct t; simpl in *; now rewrite <- IH.
Qed.

(** X6: a readable file read whole is one range, from line 1 to its last
    line, and the texts of that range joined by line feeds (what the
    fenced block of its section holds) are the content of the file. *)
Theorem whole_file_is_one_range (path : json) (content : string) :
  readFileSync path = Some content ->
  groupLinesIntoRanges (readFileRange path None None)
  = [mkRange 1 (S (countLF content)) (JsString.splitLines content)]
  /\ JsString.joinLines (JsString.splitLines content) = content.
Proof.
  intros H. split; [|apply joinLines_splitLines].
  unfold readFileRange. rewrite H.
  change (Json.mathMax0 (orZero None)) with (Json.Num 0).
  rewrite readLines_whole, splitLines_length.
  destruct (JsString.splitLines content) as [|x l] eqn:E;
    [now destruct (splitLines_nonempty content)|].
  pose proof (splitLines_length content) as Hlen. rewrite E in Hlen.
  simpl in Hlen. injection Hlen as Hlen.
  simpl. rewrite <- Hlen.
  change 2 with (1 + 1).
  rewrite (groupLoop_consecutive l (mkRange 1 1 [x]) 1). simpl.
  f_equal. f_equal. destruct l; simpl; lia.
Qed.

(** *** The freshest snapshot wins *)

Lemma assoc_setField {A : Type} (k k' : string) (v : A) (l : list (string * A)) :
  Json.assoc k' (Json.setField k v l)
  = if String.eqb k' k then Some v else Json.assoc k' l.
Proof.
  induction l as [|[k0 v0] l IH]; simpl.
  - reflexivity.
  - destruct (String.eqb_spec k k0) as [->|Hne]; simpl.
    + now destruct (String.eqb k' k0).
    + destruct (String.eqb_spec k' k0) as [->|Hne'].
      * destruct (String.eqb_spec k0 k); [now subst|reflexivity].
      * exact IH.
Qed.

Lemma setField_unchanged {A : Type} (k : string) (v : A) (l : list (string * A)) :
  Json.assoc k l = Some v -> Json.setField k v l = l.
Proof.
  induction l as [|[k0 v0] l IH]; simpl; [discriminate|].
  destruct (String.eqb_spec k k0) as [->|Hne].
  - now intros [= ->].
  - intros H. now rewrite IH.
Qed.

Lemma ascending_In_lower (lo k : nat) (v : string) (m : LineMap) :
  ascending lo m -> In (k, v) m -> lo <= k.
Proof.
  revert lo. induction m as [|[k0 v0] r IH]; intros lo; simpl; [intros _ []|].
  intros [Hk Hr] [[= -> ->]|Hin]; [exact Hk|].
  specialize (IH (S k0) Hr Hin). lia.
Qed.

Lemma lineMapSet_present (lo k : nat) (v : string) (m : LineMap) :
  ascending lo m -> In (k, v) m -> lineMapSet k v m = m.
Proof.
  revert lo. induction m as [|[k0 v0] r IH]; intros lo; simpl; [intros _ []|].
  intros [Hk Hr] [[= -> ->]|Hin].
  - now rewrite Nat.eqb_refl.
  - pose proof (@ascending_In_lower (S k0) k v r Hr Hin) as Hgt.
    destruct (Nat.eqb_spec k k0); [lia|].
    destruct (Nat.ltb_spec k k0); [lia|].
    now rewrite (IH (S k0)).
Qed.

Lemma lineMapAssign_present (lo : nat) (source target : LineMap) :
  ascending lo target ->
  (forall k v, In (k, v) source -> In (k, v) target) ->
  lineMapAssign target source = target.
Proof.
  intros Ht. induction source as [|[k v] s IH]; intros Hsub; [reflexivity|].
  rewrite lineMapAssign_cons.
  rewrite (@lineMapSet_present lo k v target Ht) by (apply Hsub; now left).
  apply IH. intros k' v' Hin. apply Hsub. now right.
Qed.

Lemma range_within_whole (path : json) (offset limit : option json) (k : nat)
  (v : string) :
  In (k, v) (readFileRange path offset limit) ->
  In (k, v) (readFileRange path None None).
Proof.
  destruct (readFileSync path) as [content|] eqn:H.
  - intros Hin.
    destruct (proj2 (readFileRange_reads_lines_of_the_file_aux path offset limit)
                content H) as [_ Hsound].
    destruct (Hsound k v Hin) as [Hk Hv].
    unfold readFileRange at 1. rewrite H.
    change (Json.mathMax0 (orZero None)) with (Json.Num 0).
    rewrite readLines_whole. apply In_combine_seq. split; [lia|exact Hv].
  - unfold readFileRange. now rewrite H.
Qed.

(** X7: the freshest snapshot wins, for a path that is no name of a member
    of [Object.prototype].  A write or an edit of the path files the whole
    current file under it, whatever was tracked before, and touches no
    other path; and a read of a path whose whole file is tracked, with an
    offset and a limit that are each absent or an integer, changes
    nothing. *)
Theorem write_replaces_and_read_after_write_keeps
  (vfs : VirtualFileSystem) (p : ToolCallPair) (operation : FileOperation)
  (path : string) :
  extractFileOperationFromToolCall (toolCall p) (result p) = Ok (Some operation) ->
  filepath operation = JString path ->
  path <> "" ->
  plainKey path = true ->
  (op_type operation <> OpRead ->
   exists vfs',
     trackOperation vfs p = Ok vfs'
     /\ Json.assoc path vfs' = Some (readFileRange (JString path) None None)
     /\ forall other, other <> path -> Json.assoc other vfs' = Json.assoc other vfs)
  /\ (op_type operation = OpRead ->
      (forall args,
         JSON_parse (argumentsOrEmpty (toolCall p)) = Some args ->
         integerOrAbsent (Json.field "offset" args)
         /\ integerOrAbsent (Json.field "limit" args)) ->
      Json.assoc path vfs = Some (readFileRange (JString path) None None) ->
      trackOperation vfs p = Ok vfs).
Proof.
  intros Hx Hpath Hne _.
  assert (Htruthy : Json.truthy (filepath operation) = true).
  { rewrite Hpath. simpl. now destruct (String.eqb_spec path ""). }
  split.
  - intros Htype. eexists. unfold trackOperation. rewrite Hx. simpl.
    rewrite Htruthy, Hpath. simpl.
    split; [destruct (op_type operation); [contradiction|reflexivity|reflexivity]|].
    split.
    + rewrite assoc_setField. now rewrite String.eqb_refl.
    + intros other Ho. rewrite assoc_setField.
      now destruct (String.eqb_spec other path).
  - intros Htype _ Hwhole. unfold trackOperation. rewrite Hx. simpl.
    rewrite Htruthy, Htype, Hpath. simpl.
    destruct (JSON_parse (argumentsOrEmpty (toolCall p))) as [args|] eqn:Hp.
    + rewrite Hwhole. f_equal.
      rewrite (@lineMapAssign_present 1).
      * now apply setField_unchanged.
      * destruct (readFileSync (JString path)) as [content|] eqn:Hr.
        -- apply (proj2 (readFileRange_reads_lines_of_the_file_aux
                           (JString path) None None) content Hr).
        -- unfold readFileRange. rewrite Hr. exact I.
      * intros k v. apply range_within_whole.
    + exfalso. unfold extractFileOperationFromToolCall in Hx. rewrite Hp in Hx.
      destruct (negb (nonEmpty (tc_name (toolCall p)))
                || negb (nonEmpty (tc_id (toolCall p)))); discriminate.
Qed.

(** *** The strategy analyzer, all cases *)

Lemma strategyForToolResult_keeps (conversation : list Message) (tid : string) :
  keepLastToolSequence (strategyForToolResult conversation tid) = true.
Proof.
  unfold strategyForToolResult. destruct (nonEmpty tid); [|reflexivity].
  now destruct (findAssistantMessageWithToolCalls conversation tid).
Qed.

Lemma rev_cons_inv {A : Type} (l : list A) (x : A) (r : list A) :
  rev l = x :: r -> l = (rev r ++ [x])%list.
Proof.
  intros H. rewrite <- (rev_involutive l), H. reflexivity.
Qed.

(** X8: the last cycle is kept exactly when the conversation ends in a tool
    result, or in a tool result followed by a user message whose trimmed
    content is ["Please continue."]; in every other case, the empty
    conversation among them, no id is kept. *)
Theorem analyze_keeps_iff (conversation : list Message) :
  (keepLastToolSequence (analyzeToolCallStrategy conversation) = true
   <-> (exists before c tid, conversation = (before ++ [Tool c tid])%list)
       \/ (exists before c tid u,
             conversation = (before ++ [Tool c tid; User u])%list
             /\ isPleaseContinue u = true))
  /\ (keepLastToolSequence (analyzeToolCallStrategy conversation) = false ->
      lastToolCallIds (analyzeToolCallStrategy conversation) = []).
Proof.
  unfold analyzeToolCallStrategy.
  destruct (rev conversation) as [|lastMessage before] eqn:E.
  - split; [|reflexivity]. split; [discriminate|].
    intros [(b & c & tid & ->)|(b & c & tid & u & -> & _)];
      rewrite rev_app_distr in E; discriminate.
  - apply rev_cons_inv in E.
    assert (Hno : forall m,
               (forall c tid, m <> Tool c tid) ->
               (forall u, m = User u -> isPleaseContinue u = true ->
                          match before with
                          | Tool _ _ :: _ => False
                          | _ => True
                          end) ->
               conversation = (rev before ++ [m])%list ->
               ~ ((exists b c tid, conversation = (b ++ [Tool c tid])%list)
                  \/ (exists b c tid u,
                        conversation = (b ++ [Tool c tid; User u])%list
                        /\ isPleaseContinue u = true))).
    { intros m Hm Hu Hc [(b & c & tid & Hb)|(b & c & tid & u & Hb & Hpc)].
      - rewrite Hb in Hc. apply app_inj_tail in Hc. destruct Hc as [_ Hc].
        symmetry in Hc. now apply Hm in Hc.
      - rewrite Hb in Hc.
        change (b ++ [Tool c tid; User u])%list
          with (b ++ [Tool c tid] ++ [User u])%list in Hc.
        rewrite app_assoc in Hc. apply app_inj_tail in Hc. destruct Hc as [Hc1 Hc2].
        specialize (Hu u (eq_sym Hc2) Hpc).
        apply (f_equal (@rev Message)) in Hc1.
        rewrite rev_app_distr, rev_involutive in Hc1. simpl in Hc1.
        rewrite <- Hc1 in Hu. exact Hu. }
    destruct lastMessage as [c|u|c tcs|c tid|c].
    + split; [|reflexivity]. split; [discriminate|]. intros H. exfalso.
      revert H. apply (Hno (System c)); [discriminate|discriminate|exact E].
    + destruct (isPleaseContinue u) eqn:Hpc.
      * destruct before as [|[c'|u'|c' tcs'|c' tid'|c'] before'];
          try (split; [|reflexivity]; split; [discriminate|]; intros H; exfalso;
               revert H; apply (Hno (User u));
               [discriminate|intros ? _ _; exact I|exact E]).
        split; [|now rewrite strategyForToolResult_keeps].
        split; [|intros _; apply strategyForToolResult_keeps].
        intros _. right. exists (rev before'), c', tid', u. split; [|exact Hpc].
        rewrite E. simpl. now rewrite <- app_assoc.
      * split; [|reflexivity]. split; [discriminate|]. intros H. exfalso.
        revert H. apply (Hno (User u)); [discriminate| |exact E].
        intros u0 [= <-] Habs. rewrite Habs in Hpc. discriminate.
    + split; [|reflexivity]. split; [discriminate|]. intros H. exfalso.
      revert H. apply (Hno (Assistant c tcs)); [discriminate|discriminate|exact E].
    + split; [|now rewrite strategyForToolResult_keeps].
      split; [|intros _; apply strategyForToolResult_keeps].
      intros _. left. now exists (rev before), c, tid.
    + split; [|reflexivity]. split; [discriminate|]. intros H. exfalso.
      revert H. apply (Hno (OtherRole c)); [discriminate|discriminate|exact E].
Qed.

(** X9: a final ["Please continue."] after a tool result does not change
    the strategy: the conversation is analyzed as if it ended in the tool
    result. *)
Theorem analyze_ignores_final_please_continue
  (before : list Message) (c : Content) (tid : string) (u : Content) :
  isPleaseContinue u = true ->
  analyzeToolCallStrategy (before ++ [Tool c tid; User u])%list
  = analyzeToolCallStrategy (before ++ [Tool c tid])%list.
Proof.
  intros Hpc. rewrite analyze_ends_in_tool.
  unfold analyzeToolCallStrategy. rewrite rev_app_distr. simpl. rewrite Hpc.
  unfold strategyForToolResult.
  change (before ++ [Tool c tid; User u])%list
    with (before ++ [Tool c tid] ++ [User u])%list.
  rewrite app_assoc, (findAssistant_app (before ++ [Tool c tid]) [User u]).
  simpl. now destruct (findAssistantMessageWithToolCalls _ tid).
Qed.

(** *** The classifier, all cases *)

Lemma nonEmpty_iff (s : string) : nonEmpty s = true <-> s <> "".
Proof.
  unfold nonEmpty. destruct (String.eqb_spec s ""); split; auto; discriminate.
Qed.

(** X10: what the classifier returns is sound: the call has an id, which
    the operation carries; a read comes from [read_file] or
    [read_many_files] and holds the result as its content; a write comes
    from [write_file] and an edit from [replace], both with a non-empty
    string as path. *)
Theorem classifier_is_sound (tc : ToolCall) (res : string) (operation : FileOperation) :
  extractFileOperationFromToolCall tc res = Ok (Some operation) ->
  tc_id tc <> ""
  /\ toolCallId operation = tc_id tc
  /\ match op_type operation with
     | OpRead =>
         (tc_name tc = "read_file" \/ tc_name tc = "read_many_files")
         /\ op_content operation = Some (JString res)
     | OpWrite =>
         tc_name tc = "write_file"
         /\ exists path, filepath operation = JString path /\ path <> ""
     | OpEdit =>
         tc_name tc = "replace"
         /\ op_content operation = None
         /\ exists path, filepath operation = JString path /\ path <> ""
     end.
Proof.
  unfold extractFileOperationFromToolCall.
  destruct (nonEmpty (tc_name tc)) eqn:Hname; simpl; [|discriminate].
  unfold nonEmpty at 1. destruct (String.eqb_spec (tc_id tc) "") as [|Hid]; simpl;
    [discriminate|].
  destruct (JSON_parse (argumentsOrEmpty tc)) as [args|]; [|discriminate].
  destruct (String.eqb_spec (tc_name tc) "read_file") as [Hr|Hr]; simpl.
  { intros H. destruct args; try discriminate;
      repeat match type of H with
             | context [match ?x with _ => _ end] => destruct x; try discriminate
             end;
      injection H as <-; simpl; repeat split; auto. }
  destruct (String.eqb_spec (tc_name tc) "read_many_files") as [Hm|Hm]; simpl.
  { intros H. destruct args; try discriminate;
      repeat match type of H with
             | context [match ?x with _ => _ end] => destruct x; try discriminate
             end;
      injection H as <-; simpl; repeat split; auto. }
  destruct (String.eqb_spec (tc_name tc) "write_file") as [Hw|Hw]; simpl.
  { intros H. destruct args; try discriminate;
      repeat match type of H with
             | context [match ?x with _ => _ end] =>
                 destruct x eqn:?; try discriminate
             end;
      injection H as <-; simpl; repeat split; auto;
      eexists; (split; [reflexivity|]); intros ->; simpl in *; discriminate. }
  destruct (String.eqb_spec (tc_name tc) "replace") as [Hp|Hp]; simpl;
    [|discriminate].
  intros H. destruct args; try discriminate;
    repeat match type of H with
           | context [match ?x with _ => _ end] =>
               destruct x eqn:?; try discriminate
           end;
    injection H as <-; simpl; repeat split; auto;
    eexists; (split; [reflexivity|]); intros ->; simpl in *; discriminate.
Qed.

(** Settles the three facts of a branch of the classifier under a file
    tool name. *)
Ltac classifier_branch args :=
  let H := fresh "H" in
  split;
  [ split;
    [ intros H; destruct args;
      [ repeat split; auto
      | exfalso;
        repeat match type of H with
               | context [match ?x with _ => _ end] => destruct x
               end; discriminate H .. ]
    | intros (_ & _ & H); injection H as ->; reflexivity ]
  | split; intros H; discriminate H ].

(** X11: the classifier throws in one case only: a call with a name among
    the four file tools and an id, whose arguments decode to [null].
    Arguments that do not decode, and any other tool name, give no
    operation and no exception. *)
Theorem classifier_throws_only_on_null (tc : ToolCall) (res : string) :
  (extractFileOperationFromToolCall tc res = Throw
   <-> tc_id tc <> ""
       /\ isFileToolName (tc_name tc) = true
       /\ JSON_parse (argumentsOrEmpty tc) = Some JNull)
  /\ (JSON_parse (argumentsOrEmpty tc) = None ->
      extractFileOperationFromToolCall tc res = Ok None)
  /\ (isFileToolName (tc_name tc) = false ->
      extractFileOperationFromToolCall tc res = Ok None).
Proof.
  unfold extractFileOperationFromToolCall, isFileToolName.
  destruct (nonEmpty (tc_name tc)) eqn:Hname; simpl.
  2:{ unfold nonEmpty in Hname.
      destruct (String.eqb_spec (tc_name tc) "") as [E|]; [|discriminate].
      rewrite E. simpl. split; [|split; reflexivity].
      split; [discriminate|]. intros (_ & Habs & _). discriminate. }
  destruct (nonEmpty (tc_id tc)) eqn:Hidb; simpl.
  2:{ split; [|split; reflexivity]. split; [discriminate|].
      intros (Habs & _). apply nonEmpty_iff in Habs. rewrite Habs in Hidb.
      discriminate. }
  assert (Hid : tc_id tc <> "") by now apply nonEmpty_iff.
  destruct (JSON_parse (argumentsOrEmpty tc)) as [args|].
  2:{ split; [|split; reflexivity]. split; [discriminate|].
      intros (_ & _ & Habs). discriminate. }
  destruct (String.eqb (tc_name tc) "read_file"); simpl.
  { classifier_branch args. }
  destruct (String.eqb (tc_name tc) "read_many_files"); simpl.
  { classifier_branch args. }
  destruct (String.eqb (tc_name tc) "write_file"); simpl.
  { classifier_branch args. }
  destruct (String.eqb (tc_name tc) "replace"); simpl.
  { classifier_branch args. }
  split; [|split; reflexivity]. split; [discriminate|].
  intros (_ & Habs & _). discriminate.
Qed.

(** *** Looking a tool call up by its id *)

Lemma find_append {A : Type} (p : A -> bool) (a b : list A) :
  find p (a ++ b)%list
  = match find p a with
    | Some x => Some x
    | None => find p b
    end.
Proof.
  induction a as [|x a IH]; simpl; [reflexivity|]. now destruct (p x).
Qed.

Lemma fileCalls_lookup (k : string) (calls : list ToolCall)
  (acc : list (string * ToolCall)) :
  k <> "" ->
  Json.assoc k
    (fold_left
       (fun toolCallMap tc =>
          if nonEmpty (tc_id tc)
          then Json.setField (tc_id tc) tc toolCallMap
          else toolCallMap) calls acc)
  = match find (hasId k) (rev calls) with
    | Some tc => Some tc
    | None => Json.assoc k acc
    end.
Proof.
  intros Hk. revert acc. induction calls as [|tc calls IH]; intros acc; simpl.
  - reflexivity.
  - rewrite IH, find_append. simpl.
    destruct (find (hasId k) (rev calls)); [reflexivity|].
    unfold hasId. destruct (String.eqb_spec (tc_id tc) k) as [E|E].
    + rewrite E. apply nonEmpty_iff in Hk. rewrite Hk.
      rewrite assoc_setField. now rewrite String.eqb_refl.
    + destruct (nonEmpty (tc_id tc)); [|reflexivity].
      rewrite assoc_setField. destruct (String.eqb_spec k (tc_id tc)); [|reflexivity].
      now subst.
Qed.

Lemma collectToolCallMap_lookup (k : string) (messages : list Message) :
  k <> "" ->
  Json.assoc k (collectToolCallMap messages)
  = find (hasId k) (rev (allToolCalls messages)).
Proof.
  intros Hk. unfold collectToolCallMap.
  assert (Hgen : forall acc,
             Json.assoc k
               (fold_left
                  (fun toolCallMap message =>
                     match message with
                     | Assistant _ (ToolCallsList calls) =>
                         fold_left
                           (fun toolCallMap tc =>
                              if nonEmpty (tc_id tc)
                              then Json.setField (tc_id tc) tc toolCallMap
                              else toolCallMap) calls toolCallMap
                     | _ => toolCallMap
                     end) messages acc)
             = match find (hasId k) (rev (allToolCalls messages)) with
               | Some tc => Some tc
               | None => Json.assoc k acc
               end).
  { induction messages as [|m rest IH]; intros acc; simpl; [reflexivity|].
    rewrite IH, rev_app_distr, find_append.
    destruct (find (hasId k) (rev (allToolCalls rest))); [reflexivity|].
    destruct m as [c|c|c [| |calls]|c t|c]; try reflexivity.
    now apply fileCalls_lookup. }
  rewrite Hgen. now destruct (find (hasId k) (rev (allToolCalls messages))).
Qed.

Lemma collectToolCallMap_no_empty_key (messages : list Message) :
  Json.assoc "" (collectToolCallMap messages) = None.
Proof.
  destruct (Json.assoc "" (collectToolCallMap messages)) as [tc|] eqn:E;
    [|reflexivity].
  apply assoc_In in E.
  pose proof (collectToolCallMap_keyed messages) as H.
  rewrite Forall_forall in H. destruct (H _ E) as [_ Habs]. discriminate.
Qed.

Lemma findToolCallById_first (messages : list Message) (k : string) :
  findToolCallById messages k = find (hasId k) (allToolCalls messages).
Proof.
  induction messages as [|m rest IH]; simpl; [reflexivity|].
  destruct m as [c|c|c [| |calls]|c t|c]; try exact IH.
  rewrite find_append. fold (hasId k).
  destruct (find (hasId k) calls); [reflexivity|exact IH].
Qed.

Lemma find_unique {A : Type} (p : A -> bool) (l : list A) (x : A) :
  (forall y z, In y l -> In z l -> p y = true -> p z = true -> y = z) ->
  In x l -> p x = true -> find p l = Some x.
Proof.
  intros Huniq Hin Hp. destruct (find p l) as [y|] eqn:E.
  - apply find_some in E. destruct E as [Hy Hpy]. f_equal. now apply Huniq.
  - now rewrite (find_none _ _ E x Hin) in Hp.
Qed.

Lemma NoDup_map_injective {A B : Type} (f : A -> B) (l : list A) :
  NoDup (map f l) ->
  forall y z, In y l -> In z l -> f y = f z -> y = z.
Proof.
  induction l as [|x l IH]; simpl; [intros _ y z []|].
  intros Hnd y z Hy Hz Hf. inversion Hnd as [|? ? Hnotin Hnd']; subst.
  destruct Hy as [->|Hy], Hz as [->|Hz]; [reflexivity| | |now apply IH].
  - exfalso. apply Hnotin. rewrite Hf. now apply in_map.
  - exfalso. apply Hnotin. rewrite <- Hf. now apply in_map.
Qed.

(** X12: the map of tool calls files, under every non-empty id, the last
    call of the input that carries it (a later call replaces an earlier
    one), and files nothing under the empty id. *)
Theorem collectToolCallMap_files_last_call (messages : list Message) :
  (forall k, k <> "" ->
     Json.assoc k (collectToolCallMap messages)
     = find (hasId k) (rev (allToolCalls messages)))
  /\ Json.assoc "" (collectToolCallMap messages) = None.
Proof.
  split; [intros k; apply collectToolCallMap_lookup|].
  apply collectToolCallMap_no_empty_key.
Qed.

(** X13: the search by id returns the first call of the conversation that
    carries the id, and nothing when no call carries it; when no id is
    carried by two calls, it returns the call that the map files. *)
Theorem findToolCallById_finds_first (messages : list Message) (k : string) :
  findToolCallById messages k = find (hasId k) (allToolCalls messages)
  /\ (findToolCallById messages k = None
      <-> forall tc, In tc (allToolCalls messages) -> tc_id tc <> k)
  /\ (k <> "" -> NoDup (map tc_id (allToolCalls messages)) ->
      findToolCallById messages k = Json.assoc k (collectToolCallMap messages)).
Proof.
  rewrite findToolCallById_first. split; [reflexivity|]. split.
  - split.
    + intros H tc Hin Hid. apply (find_none _ _ H) in Hin.
      unfold hasId in Hin. rewrite Hid, String.eqb_refl in Hin. discriminate.
    + intros H. destruct (find (hasId k) (allToolCalls messages)) as [tc|] eqn:E;
        [|reflexivity].
      apply find_some in E. destruct E as [Hin Hid].
      apply String.eqb_eq in Hid. now destruct (H tc Hin).
  - intros Hk Hnd. rewrite collectToolCallMap_lookup by exact Hk.
    assert (Huniq : forall y z,
               In y (allToolCalls messages) -> In z (allToolCalls messages) ->
               hasId k y = true -> hasId k z = true -> y = z).
    { intros y z Hy Hz Hpy Hpz. apply String.eqb_eq in Hpy, Hpz.
      apply (@NoDup_map_injective _ _ tc_id _ Hnd); congruence. }
    destruct (find (hasId k) (allToolCalls messages)) as [tc|] eqn:E.
    + apply find_some in E. destruct E as [Hin Hid]. symmetry.
      apply find_unique; [|rewrite <- in_rev; exact Hin|exact Hid].
      intros y z Hy Hz. rewrite <- in_rev in Hy, Hz. now apply Huniq.
    + destruct (find (hasId k) (rev (allToolCalls messages))) as [tc|] eqn:E';
        [|reflexivity].
      apply find_some in E'. destruct E' as [Hin Hid]. rewrite <- in_rev in Hin.
      now rewrite (find_none _ _ E tc Hin) in Hid.
Qed.

(** *** Cutting long result lines *)

Lemma length_append (a b : string) :
  String.length (a ++ b) = String.length a + String.length b.
Proof. induction a as [|c a IH]; simpl; [reflexivity|now rewrite IH]. Qed.

Lemma length_list_ascii (s : string) :
  List.length (list_ascii_of_string s) = String.length s.
Proof. induction s as [|c s IH]; simpl; [reflexivity|now rewrite IH]. Qed.

Lemma length_slice0 (n : nat) (s : string) :
  String.length (JsString.slice0 n s) = Nat.min n (String.length s).
Proof.
  unfold JsString.slice0. revert n. induction s as [|c s IH]; intros [|n]; simpl;
    try reflexivity. now rewrite IH.
Qed.

Lemma slice0_append (a b : string) :
  JsString.slice0 (String.length a) (a ++ b) = a.
Proof.
  unfold JsString.slice0. induction a as [|c a IH]; simpl.
  - now destruct b.
  - now rewrite IH.
Qed.

Lemma slice0_chars (p : ascii -> bool) (n : nat) (s : string) :
  forallb p (list_ascii_of_string s) = true ->
  forallb p (list_ascii_of_string (JsString.slice0 n s)) = true.
Proof.
  unfold JsString.slice0. revert n. induction s as [|c s IH]; intros [|n]; simpl;
    try reflexivity.
  intros H. apply andb_true_iff in H. destruct H as [Hc Hs].
  now rewrite Hc, IH.
Qed.

Lemma matchResultLine_content (line linePrefix lineContent : string) :
  matchResultLine line = Some (linePrefix, lineContent) ->
  lineContent <> ""
  /\ forallb (fun x => negb (JsString.isLineTerminator x))
       (list_ascii_of_string lineContent) = true.
Proof.
  unfold matchResultLine.
  destruct (list_ascii_of_string line) as [|c rest]; [discriminate|].
  destruct (Ascii.eqb c "L"%char); [|discriminate].
  destruct (JsString.takeWhile JsString.isDigit rest) as [|d ds]; [discriminate|].
  destruct (JsString.dropWhile JsString.isDigit rest) as [|colon [|space content]];
    try discriminate.
  destruct (Ascii.eqb colon ":"%char && Ascii.eqb space " "%char); [|discriminate].
  simpl andb.
  destruct content as [|x content]; [discriminate|].
  destruct (forallb (fun x => negb (JsString.isLineTerminator x)) (x :: content))
    eqn:Hall; [|discriminate].
  simpl negb. simpl andb. intros [= _ <-]. split; [discriminate|].
  change (String x (string_of_list_ascii content))
    with (string_of_list_ascii (x :: content)).
  now rewrite list_ascii_of_string_of_list_ascii.
Qed.

Lemma matchResultLine_complete (ds : list ascii) (content : string) :
  ds <> [] -> forallb JsString.isDigit ds = true ->
  content <> "" ->
  forallb (fun x => negb (JsString.isLineTerminator x))
    (list_ascii_of_string content) = true ->
  matchResultLine
    (string_of_list_ascii ("L"%char :: ds ++ [":"%char; " "%char])%list ++ content)
  = Some (string_of_list_ascii ("L"%char :: ds ++ [":"%char; " "%char])%list,
          content).
Proof.
  intros Hne Hds Hc Hall. unfold matchResultLine.
  rewrite list_ascii_of_string_app, list_ascii_of_string_of_list_ascii.
  simpl. rewrite <- app_assoc. simpl.
  destruct (@takeWhile_stop JsString.isDigit ds ":"%char
              (" "%char :: list_ascii_of_string content) Hds eq_refl) as [-> ->].
  destruct ds as [|d ds]; [contradiction|].
  rewrite Hall, string_of_list_ascii_of_string.
  destruct content as [|x content]; [contradiction|]. reflexivity.
Qed.

Lemma truncateLine_again (line : string) :
  truncateLine (truncateLine line) = truncateLine line.
Proof.
  destruct (matchResultLine line) as [[linePrefix lineContent]|] eqn:Hm.
  - destruct (Nat.leb_spec (String.length lineContent) 1000) as [Hle|Hgt].
    + assert (E : truncateLine line = line).
      { unfold truncateLine. rewrite Hm.
        destruct (Nat.leb_spec (String.length lineContent) 1000);
          [reflexivity|lia]. }
      now rewrite !E.
    + assert (E : truncateLine line
                  = linePrefix ++ JsString.slice0 1000 lineContent ++ "...").
      { unfold truncateLine. rewrite Hm.
        destruct (Nat.leb_spec (String.length lineContent) 1000);
          [lia|reflexivity]. }
      rewrite !E.
      pose proof (matchResultLine_content _ Hm) as [_ Hall].
      apply matchResultLine_spec in Hm. destruct Hm as (_ & ds & Hne & Hds & ->).
      assert (Hlen : String.length (JsString.slice0 1000 lineContent) = 1000)
        by (rewrite length_slice0; lia).
      unfold truncateLine.
      rewrite matchResultLine_complete; try assumption.
      * rewrite length_append, Hlen. cbn [String.length Nat.add Nat.leb].
        replace (1000 + 3 <=? 1000)%nat with false
          by (symmetry; apply Nat.leb_gt; lia).
        rewrite <- Hlen at 1. now rewrite slice0_append.
      * intros E'. apply (f_equal String.length) in E'.
        rewrite length_append, Hlen in E'. simpl in E'. lia.
      * rewrite list_ascii_of_string_app, forallb_app.
        rewrite slice0_chars by exact Hall. reflexivity.
  - assert (E : truncateLine line = line)
      by (unfold truncateLine; now rewrite Hm).
    now rewrite !E.
Qed.

(** X14: cutting a line twice is cutting it once.  A line that matches
    [L<digits>: <content>] keeps its prefix, and its content as it is when
    it has at most 1000 characters, or else the first 1000 characters of it
    followed by three dots; any other line is returned as it is. *)
Theorem truncateLine_cuts_content_once (line : string) :
  truncateLine (truncateLine line) = truncateLine line
  /\ (matchResultLine line = None -> truncateLine line = line)
  /\ (forall linePrefix lineContent,
        matchResultLine line = Some (linePrefix, lineContent) ->
        line = linePrefix ++ lineContent
        /\ (String.length lineContent <= 1000 -> truncateLine line = line)
        /\ (1000 < String.length lineContent ->
            exists kept,
              truncateLine line = linePrefix ++ kept ++ "..."
              /\ String.length kept = 1000
              /\ exists dropped, lineContent = kept ++ dropped)).
Proof.
  split; [apply truncateLine_again|]. split.
  - intros H. unfold truncateLine. now rewrite H.
  - intros linePrefix lineContent Hm.
    split; [now apply matchResultLine_spec in Hm|]. split.
    + intros Hle. unfold truncateLine. rewrite Hm.
      destruct (Nat.leb_spec (String.length lineContent) 1000); [reflexivity|lia].
    + intros Hgt. exists (JsString.slice0 1000 lineContent).
      unfold truncateLine. rewrite Hm.
      destruct (Nat.leb_spec (String.length lineContent) 1000); [lia|].
      split; [reflexivity|]. split; [rewrite length_slice0; lia|].
      exists (substring 1000 (String.length lineContent - 1000) lineContent).
      unfold JsString.slice0.
      clear Hm. revert Hgt. generalize 1000 as n. clear.
      induction lineContent as [|c s IH]; intros n Hgt; simpl in *; [lia|].
      destruct n as [|n]; simpl.
      * f_equal. clear. induction s as [|c s IH]; simpl; [reflexivity|].
        now rewrite <- IH.
      * f_equal. apply IH. lia.
Qed.

(** *** Truncating twice *)

Lemma keptLine_again (line : string) : keptLine (keptLine line) = keptLine line.
Proof.
  unfold keptLine at 2. destruct (isResultLine line) eqn:E.
  - unfold keptLine. now rewrite isResultLine_truncateLine, E, truncateLine_again.
  - unfold keptLine. now rewrite E.
Qed.

Lemma truncateLines_fixed (total : nat) (lines : list string) :
  Forall (fun x => keptLine x = x) (truncateLines total 0 lines).
Proof.
  destruct (@truncateLines_shape total 0 lines (Nat.le_0_l 20)) as [Hle Hgt].
  destruct (Nat.le_gt_cases (countResults lines) (20 - 0)) as [H|H].
  - rewrite (Hle H). apply Forall_forall. intros x Hx.
    apply in_map_iff in Hx. destruct Hx as (y & <- & _). apply keptLine_again.
  - destruct (Hgt H) as (before & hit & after & _ & _ & _ & ->).
    apply Forall_app. split.
    + apply Forall_forall. intros x Hx.
      apply in_map_iff in Hx. destruct Hx as (y & <- & _). apply keptLine_again.
    + constructor; [|constructor]. unfold keptLine.
      now rewrite isResultLine_truncationNotice.
Qed.

Lemma truncateLines_some (total : nat) (lines : list string) :
  lines <> [] -> truncateLines total 0 lines <> [].
Proof.
  destruct lines as [|line rest]; [contradiction|]. intros _. simpl.
  destruct (isResultLine line); discriminate.
Qed.

(** X15: truncating an output that has been truncated changes nothing. *)
Theorem truncateOutput_twice (output : string) :
  truncateOutput (truncateOutput output) = truncateOutput output.
Proof.
  unfold truncateOutput at 1.
  set (lines := JsString.splitLines output).
  assert (Hsplit : JsString.splitLines (truncateOutput output)
                   = truncateLines (countResults lines) 0 lines).
  { unfold truncateOutput. fold lines. apply splitLines_joinLines.
    - apply truncateLines_some. apply splitLines_nonempty.
    - apply truncateLines_LF_free, splitLines_LF_free. }
  rewrite Hsplit.
  set (kept := truncateLines (countResults lines) 0 lines).
  destruct (@truncateLines_shape (countResults kept) 0 kept (Nat.le_0_l 20))
    as [Hle _].
  rewrite Hle.
  - unfold truncateOutput. fold lines. fold kept. f_equal.
    pose proof (truncateLines_fixed (countResults lines) lines) as Hfix.
    fold kept in Hfix. clear Hle Hsplit. clearbody kept.
    induction Hfix as [|x l Hx _ IH]; simpl; [reflexivity|].
    now rewrite Hx, IH.
  - pose proof (truncateLines_at_most_twenty (countResults lines) lines) as H.
    fold kept in H. lia.
Qed.

(** X16: a result is returned as it is when the function is not
    [search_file_content], and when the result does not decode to an
    object whose [output] is a non-empty string.  When the function is
    [search_file_content] and the result decodes to such an object, what
    is returned is the encoding of an object with the same keys in the
    same order, its [output] truncated and every other field as it was. *)
Theorem truncateSearchResult_touches_only_output (functionName res : string) :
  (functionName <> "search_file_content" ->
   truncateSearchResult functionName res = res)
  /\ ((forall fields output,
         JSON_parse res = Some (JObject fields) ->
         Json.assoc "output" fields = Some (JString output) ->
         output = "") ->
      truncateSearchResult functionName res = res)
  /\ (forall fields output,
        functionName = "search_file_content" ->
        JSON_parse res = Some (JObject fields) ->
        Json.assoc "output" fields = Some (JString output) ->
        output <> "" ->
        exists fields',
          truncateSearchResult functionName res = JSON_stringify (JObject fields')
          /\ map fst fields' = map fst fields
          /\ Json.assoc "output" fields' = Some (JString (truncateOutput output))
          /\ forall k, k <> "output" -> Json.assoc k fields' = Json.assoc k fields).
Proof.
  split; [|split].
  - intros Hname. unfold truncateSearchResult.
    now destruct (String.eqb_spec functionName "search_file_content").
  - intros Hnone. unfold truncateSearchResult.
    destruct (negb (functionName =? "search_file_content")); [reflexivity|].
    destruct (JSON_parse res) as [[| | | | |fields]|]; try reflexivity.
    destruct (Json.assoc "output" fields) as [[| | |output| |]|] eqn:Hout;
      try reflexivity.
    now rewrite (Hnone fields output eq_refl Hout).
  - intros fields output -> Hparse Hout Hne.
    exists (Json.setField "output" (JString (truncateOutput output)) fields).
    split; [|split; [|split]].
    + unfold truncateSearchResult. simpl. rewrite Hparse, Hout.
      apply nonEmpty_iff in Hne. now rewrite Hne.
    + clear Hparse Hne. induction fields as [|[k v] fields IH]; [discriminate|].
      cbn [Json.assoc Json.setField] in *.
      destruct (String.eqb "output" k) eqn:Hk.
      * apply String.eqb_eq in Hk. subst k. reflexivity.
      * cbn [map fst]. f_equal. now apply IH.
    + rewrite assoc_setField. reflexivity.
    + intros k Hk. rewrite assoc_setField. now destruct (String.eqb_spec k "output").
Qed.

(** *** The collapser *)

Lemma dropWhile_head (p : ascii -> bool) (l : list ascii) (c : ascii) (r : list ascii) :
  JsString.dropWhile p l = c :: r -> p c = false.
Proof.
  induction l as [|x l IH]; simpl; [discriminate|].
  destruct (p x) eqn:E; [exact IH|]. now intros [= <- _].
Qed.

Lemma dropWhile_suffix (p : ascii -> bool) (l : list ascii) :
  exists front, l = (front ++ JsString.dropWhile p l)%list.
Proof.
  induction l as [|x l [front IH]]; simpl.
  - now exists [].
  - destruct (p x).
    + exists (x :: front). simpl. now rewrite <- IH.
    + now exists [].
Qed.

Lemma tidy_trim (s : string) : tidy s = true -> JsString.trim s = s /\ s <> "".
Proof.
  unfold tidy. intros H. apply andb_true_iff in H. destruct H as [Hhead Hlast].
  assert (Hstart : JsString.trimStart s = s).
  { unfold JsString.trimStart.
    destruct (list_ascii_of_string s) as [|c r] eqn:E; [discriminate|].
    simpl. apply negb_true_iff in Hhead. rewrite Hhead, <- E.
    apply string_of_list_ascii_of_string. }
  split.
  - unfold JsString.trim. rewrite Hstart. unfold JsString.trimEnd.
    destruct (rev (list_ascii_of_string s)) as [|c r] eqn:E; [discriminate|].
    simpl. apply negb_true_iff in Hlast. rewrite Hlast, <- E, rev_involutive.
    apply string_of_list_ascii_of_string.
  - intros ->. discriminate.
Qed.

Lemma trim_tidy (s : string) : JsString.trim s <> "" -> tidy (JsString.trim s) = true.
Proof.
  unfold JsString.trim, JsString.trimEnd, JsString.trimStart, tidy.
  rewrite !list_ascii_of_string_of_list_ascii.
  set (l1 := JsString.dropWhile JsString.isWhiteSpace (list_ascii_of_string s)).
  set (l2 := JsString.dropWhile JsString.isWhiteSpace (rev l1)).
  intros Hne. rewrite rev_involutive.
  destruct l2 as [|c r] eqn:E2; [now elim Hne|].
  pose proof (@dropWhile_head _ _ _ _ E2) as Hc.
  destruct (dropWhile_suffix JsString.isWhiteSpace (rev l1)) as [front Hfront].
  fold l2 in Hfront. rewrite E2 in Hfront.
  apply (f_equal (@rev ascii)) in Hfront.
  rewrite rev_involutive, rev_app_distr in Hfront.
  rewrite Hc. simpl negb. rewrite andb_true_r.
  destruct (rev (c :: r)) as [|x t] eqn:Ex.
  - apply (f_equal (@List.length ascii)) in Ex. rewrite length_rev in Ex.
    discriminate.
  - simpl in Hfront. unfold l1 in Hfront.
    now rewrite (@dropWhile_head _ _ _ _ Hfront).
Qed.

Lemma tidy_around (a middle b : string) :
  tidy a = true -> tidy b = true -> tidy (a ++ middle ++ b) = true.
Proof.
  unfold tidy. intros Ha Hb.
  apply andb_true_iff in Ha. destruct Ha as [Ha _].
  apply andb_true_iff in Hb. destruct Hb as [_ Hb].
  rewrite !list_ascii_of_string_app, !rev_app_distr.
  destruct (list_ascii_of_string a) as [|c r]; [discriminate|].
  destruct (rev (list_ascii_of_string b)) as [|c' r']; [discriminate|].
  simpl. now rewrite Ha, Hb.
Qed.

Lemma joinLines_tidy (contents : list string) :
  contents <> [] -> Forall (fun s => tidy s = true) contents ->
  tidy (JsString.joinLines contents) = true.
Proof.
  intros Hne H. induction H as [|x l Hx Hl IH]; [contradiction|].
  destruct l as [|y l]; [exact Hx|].
  change (JsString.joinLines (x :: y :: l))
    with (x ++ JsString.newline ++ JsString.joinLines (y :: l)).
  apply tidy_around; [exact Hx|]. apply IH. discriminate.
Qed.

Lemma collectContent_tidy (content : Content) (contents : list string) :
  Forall (fun s => tidy s = true) contents ->
  Forall (fun s => tidy s = true) (collectContent content contents).
Proof.
  intros H. destruct content as [s| |]; simpl; try exact H.
  destruct (nonEmpty s && nonEmpty (JsString.trim s)) eqn:E; [|exact H].
  destruct (JsString.includes (JsString.trim s) contents); [exact H|].
  apply Forall_app. split; [exact H|]. constructor; [|constructor].
  apply trim_tidy. apply andb_true_iff in E. now apply nonEmpty_iff.
Qed.

Lemma flushRun_consolidated (run : option (list string * list ToolCall)) :
  tidyRun run -> Forall consolidated (flushRun run).
Proof.
  destruct run as [[contents calls]|]; simpl; [|constructor].
  intros H. unfold consolidate.
  assert (Hjoin : contents <> [] ->
                  JsString.trim (JsString.joinLines contents)
                  = JsString.joinLines contents
                  /\ JsString.joinLines contents <> "").
  { intros Hne. apply tidy_trim. now apply joinLines_tidy. }
  destruct contents as [|x l], calls as [|call calls]; repeat constructor.
  - exists "". repeat split. right. now exists call, calls.
  - destruct Hjoin as [Ht Hn]; [discriminate|].
    eexists. split; [reflexivity|]. split; [exact Ht|]. now left.
  - destruct Hjoin as [Ht Hn]; [discriminate|].
    eexists. split; [reflexivity|]. split; [exact Ht|]. right.
    now exists call, calls.
Qed.

Lemma collapseFrom_consolidated (messages : list Message)
  (run : option (list string * list ToolCall)) :
  tidyRun run ->
  Forall (fun m => isAssistant m = true -> consolidated m) (collapseFrom run messages).
Proof.
  assert (Hflush : forall r, tidyRun r ->
            Forall (fun m => isAssistant m = true -> consolidated m) (flushRun r)).
  { intros r Hr. eapply Forall_impl; [|apply flushRun_consolidated, Hr].
    intros m Hm _. exact Hm. }
  revert run. induction messages as [|m rest IH]; intros run Hrun; simpl.
  - now apply Hflush.
  - destruct m as [c|c|c tcs|c k|c];
      try (apply Forall_app; split; [now apply Hflush|];
           constructor; [discriminate|apply IH; exact I]).
    destruct run as [[contents calls]|]; apply IH; simpl.
    + now apply collectContent_tidy.
    + apply collectContent_tidy. constructor.
Qed.

Lemma assistantsApart_cons (a b : Message) (rest : list Message) :
  assistantsApart (a :: b :: rest)
  = negb (isAssistant a && isAssistant b) && assistantsApart (b :: rest).
Proof. reflexivity. Qed.

Lemma assistantsApart_other (m : Message) (rest : list Message) :
  isAssistant m = false -> assistantsApart (m :: rest) = assistantsApart rest.
Proof.
  intros H. destruct rest as [|b rest]; [reflexivity|].
  cbn [assistantsApart]. now rewrite H.
Qed.

Lemma flushRun_short (run : option (list string * list ToolCall)) :
  flushRun run = [] \/ exists a, flushRun run = [a].
Proof.
  destruct run as [[contents calls]|]; simpl; [|now left].
  unfold consolidate. destruct contents, calls; eauto.
Qed.

Lemma collapseFrom_apart (messages : list Message)
  (run : option (list string * list ToolCall)) :
  assistantsApart (collapseFrom run messages) = true.
Proof.
  revert run. induction messages as [|m rest IH]; intros run; simpl.
  - destruct (flushRun_short run) as [->|[a ->]]; reflexivity.
  - assert (Hother : isAssistant m = false ->
                     assistantsApart
                       (flushRun run ++ m :: collapseFrom None rest)%list = true).
    { intros Hm. destruct (flushRun_short run) as [->|[a ->]]; simpl app.
      - rewrite assistantsApart_other by exact Hm. apply IH.
      - rewrite assistantsApart_cons, Hm, andb_false_r. simpl negb.
        rewrite andb_true_l.
        rewrite assistantsApart_other by exact Hm. apply IH. }
    destruct m as [c|c|c tcs|c k|c]; try (now apply Hother).
    destruct run as [[contents calls]|]; apply IH.
Qed.

Lemma assistantsApart_spec (messages : list Message) :
  assistantsApart messages = true -> noAdjacentAssistants messages.
Proof.
  unfold noAdjacentAssistants.
  induction messages as [|x l IH]; intros H i a b Ha Hb Hassistant.
  - destruct i; discriminate.
  - destruct l as [|y l]; [destruct i; discriminate|].
    cbn [assistantsApart] in H. apply andb_true_iff in H. destruct H as [Hxy Hl].
    destruct i as [|i].
    + simpl in Ha, Hb. injection Ha as ->. injection Hb as ->.
      rewrite Hassistant in Hxy. simpl in Hxy. now apply negb_true_iff in Hxy.
    + apply (IH Hl i a b); assumption.
Qed.

(** X17: the collapser leaves no two assistant messages next to each other,
    and neither does the list the pipeline returns. *)
Theorem collapsed_assistants_are_apart :
  (forall messages,
     noAdjacentAssistants (collapseConsecutiveAssistantMessages messages))
  /\ (forall finalMessages newMessages,
        reconfigureFinalMessages finalMessages = Ok newMessages ->
        noAdjacentAssistants newMessages).
Proof.
  split.
  - intros messages. apply assistantsApart_spec, collapseFrom_apart.
  - intros finalMessages newMessages H.
    apply reconfigure_inv in H. destruct H as (d & _ & ->).
    apply assistantsApart_spec.
    rewrite assistantsApart_other by reflexivity. apply collapseFrom_apart.
Qed.

Lemma allToolCalls_app (a b : list Message) :
  allToolCalls (a ++ b)%list = (allToolCalls a ++ allToolCalls b)%list.
Proof. unfold allToolCalls. apply flat_map_app. Qed.

Lemma flushRun_calls (run : option (list string * list ToolCall)) :
  allToolCalls (flushRun run) = pendingCalls run.
Proof.
  destruct run as [[contents calls]|]; simpl; [|reflexivity].
  unfold consolidate. destruct contents, calls; simpl; try reflexivity;
    now rewrite app_nil_r.
Qed.

Lemma collapseFrom_calls (messages : list Message)
  (run : option (list string * list ToolCall)) :
  allToolCalls (collapseFrom run messages)
  = (pendingCalls run ++ allToolCalls messages)%list.
Proof.
  revert run. induction messages as [|m rest IH]; intros run; simpl.
  - now rewrite flushRun_calls, app_nil_r.
  - destruct m as [c|c|c tcs|c k|c];
      try (rewrite allToolCalls_app, flushRun_calls; simpl; now rewrite IH).
    destruct run as [[contents calls]|]; rewrite IH; simpl.
    + rewrite <- app_assoc. now destruct tcs.
    + now destruct tcs.
Qed.

(** X18: the collapser loses, adds and reorders no tool call and no message
    of another role: the calls of the assistant messages, taken in order,
    are those of its input, and so are the messages that are not assistant
    messages. *)
Theorem collapse_keeps_calls_and_other_roles (messages : list Message) :
  allToolCalls (collapseConsecutiveAssistantMessages messages)
  = allToolCalls messages
  /\ filter (fun m => negb (isAssistant m))
       (collapseConsecutiveAssistantMessages messages)
     = filter (fun m => negb (isAssistant m)) messages.
Proof.
  split.
  - apply (collapseFrom_calls messages None).
  - apply collapseFrom_others.
Qed.

(** X19: every assistant message the collapser returns has a text content
    with no white space at either end, and either no [tool_calls] key and
    a content that is not empty, or a list of calls that is not empty. *)
Theorem collapse_returns_consolidated_assistants (messages : list Message) :
  Forall consolidated (collapseConsecutiveAssistantMessages messages).
Proof.
  pose proof (@collapseFrom_consolidated messages None I) as H.
  unfold collapseConsecutiveAssistantMessages.
  eapply Forall_impl; [|exact H].
  intros m Hm. destruct m; try exact I. now apply Hm.
Qed.

Lemma flushRun_fixed (run : option (list string * list ToolCall)) :
  tidyRun run -> collapseFrom None (flushRun run) = flushRun run.
Proof.
  destruct run as [[contents calls]|]; simpl; [|reflexivity].
  intros H. unfold consolidate.
  assert (Hjoin : contents <> [] ->
            collectContent (CText (JsString.joinLines contents)) []
            = [JsString.joinLines contents]).
  { intros Hne. destruct (@tidy_trim _ (joinLines_tidy Hne H)) as [Ht Hn].
    simpl. rewrite Ht. apply nonEmpty_iff in Hn. now rewrite Hn. }
  destruct contents as [|x l], calls as [|call calls];
    cbn [collapseFrom flushRun callsOf app]; try reflexivity.
  - rewrite Hjoin by discriminate. reflexivity.
  - rewrite Hjoin by discriminate. reflexivity.
Qed.

Lemma collapseFrom_fixed (messages : list Message)
  (run : option (list string * list ToolCall)) :
  tidyRun run ->
  collapseFrom None (collapseFrom run messages) = collapseFrom run messages.
Proof.
  revert run. induction messages as [|m rest IH]; intros run Hrun; simpl.
  - now apply flushRun_fixed.
  - destruct m as [c|c|c tcs|c k|c];
      try (rewrite collapseFrom_split by reflexivity;
           rewrite flushRun_fixed by exact Hrun;
           now rewrite (IH None I)).
    destruct run as [[contents calls]|]; apply IH; simpl.
    + now apply collectContent_tidy.
    + apply collectContent_tidy. constructor.
Qed.

(** X20: collapsing a list that has been collapsed changes nothing. *)
Theorem collapse_twice (messages : list Message) :
  collapseConsecutiveAssistantMessages
    (collapseConsecutiveAssistantMessages messages)
  = collapseConsecutiveAssistantMessages messages.
Proof. apply (@collapseFrom_fixed messages None I). Qed.

(** *** What is moved and what stays *)

Lemma moved_includes (finalMessages : list Message) (d : DeconstructedMessages)
  (k : string) :
  deconstructMessages finalMessages = Ok d ->
  JsString.includes k (movedToSystemPromptToolCallIds d)
  = JsString.includes k (movedIdsOf finalMessages).
Proof.
  intros Hd. apply eq_iff_eq_true. rewrite !includes_In. split.
  - intros H. destruct (@moved_ids_from_pairs finalMessages d k Hd H) as (p & Hp & <-).
    unfold movedIdsOf. apply in_map_iff. now exists p.
  - intros H. unfold movedIdsOf in H. apply in_map_iff in H.
    destruct H as (p & <- & Hp).
    destruct (@deconstruct_inv finalMessages d Hd) as (_ & _ & Hids & Hfilter).
    unfold filterToolCallsForVirtualFileSystem in Hfilter.
    rewrite Hids in Hfilter. simpl in Hfilter. injection Hfilter as Hf.
    unfold movedToSystemPromptToolCallIds. apply in_or_app.
    destruct (JsString.includes (tc_id (toolCall p)) (fileOperationToolCallIds d))
      eqn:E.
    + right. now apply includes_In.
    + left. apply filter_In. split.
      * apply in_map_iff. exists p. split; [reflexivity|].
        rewrite <- Hf. apply filter_In. split; [exact Hp|]. now rewrite E.
      * now apply (@moved_pair_id finalMessages p Hp).
Qed.

Lemma moved_idKept (finalMessages : list Message) (d : DeconstructedMessages)
  (k : string) :
  deconstructMessages finalMessages = Ok d ->
  idKept (movedToSystemPromptToolCallIds d) k = idKept (movedIdsOf finalMessages) k.
Proof. intros Hd. unfold idKept. now rewrite (@moved_includes finalMessages d k Hd). Qed.

Lemma rebuildFrom_tools (d : DeconstructedMessages) (strategy : Strategy)
  (moved : list string) (i : nat) (messages : list Message) :
  filter isTool (rebuildFrom d strategy moved i messages)
  = flat_map (keptToolMessage moved (realConversation d)) messages.
Proof.
  revert i. induction messages as [|m rest IH]; intros i; simpl; [reflexivity|].
  rewrite filter_app, IH. f_equal.
  destruct m as [c|c|c [| |calls]|c k|c]; simpl; try reflexivity.
  - destruct (isPleaseContinue c); [|reflexivity]. now destruct (_ && _).
  - now destruct (hasContent c).
  - destruct (filter _ calls); [now destruct (hasContent c)|reflexivity].
  - fold (idKept moved k). now destruct (idKept moved k).
Qed.

Lemma rebuildFrom_calls (d : DeconstructedMessages) (strategy : Strategy)
  (moved : list string) (i : nat) (messages : list Message) :
  allToolCalls (rebuildFrom d strategy moved i messages)
  = filter (fun tc => idKept moved (tc_id tc)) (allToolCalls messages).
Proof.
  revert i. induction messages as [|m rest IH]; intros i; simpl; [reflexivity|].
  rewrite allToolCalls_app, IH, filter_app. f_equal.
  destruct m as [c|c|c [| |calls]|c k|c]; simpl; try reflexivity.
  - destruct (isPleaseContinue c); [|reflexivity]. now destruct (_ && _).
  - now destruct (hasContent c).
  - unfold idKept.
    destruct (filter _ calls) as [|tc kept]; [now destruct (hasContent c)|].
    simpl. now rewrite app_nil_r.
  - now destruct (_ && _).
Qed.

Lemma output_tools_and_calls (finalMessages newMessages : list Message) :
  reconfigureFinalMessages finalMessages = Ok newMessages ->
  filter isTool newMessages
  = flat_map (keptToolMessage (movedIdsOf finalMessages)
                (realConversationOf finalMessages))
      (realConversationOf finalMessages)
  /\ allToolCalls newMessages
     = filter (fun tc => idKept (movedIdsOf finalMessages) (tc_id tc))
         (allToolCalls (realConversationOf finalMessages)).
Proof.
  intros H. apply reconfigure_inv in H. destruct H as (d & Hd & ->).
  destruct (@deconstruct_inv finalMessages d Hd) as (Hreal & _).
  split.
  - cbn [filter isTool]. rewrite collapseFrom_role by (now intros []).
    rewrite rebuildFrom_tools, Hreal. apply flat_map_ext. intros m.
    destruct m; try reflexivity. simpl. now rewrite (@moved_idKept finalMessages d _ Hd).
  - change (allToolCalls (System ?c :: ?l)) with (allToolCalls l).
    rewrite collapseFrom_calls, rebuildFrom_calls, Hreal. simpl.
    apply filter_ext. intros tc. now apply moved_idKept.
Qed.

(** X21: the tool messages of the list returned are, in order, the tool
    messages of the real conversation whose id is not empty and is not the
    id of a moved pair, each with its content rewritten by the
    search-result truncator; no other tool message is returned. *)
Theorem output_tool_messages (finalMessages newMessages : list Message) :
  reconfigureFinalMessages finalMessages = Ok newMessages ->
  filter isTool newMessages
  = flat_map (keptToolMessage (movedIdsOf finalMessages)
                (realConversationOf finalMessages))
      (realConversationOf finalMessages).
Proof. intros H. now apply output_tools_and_calls. Qed.

(** X22: the tool calls of the list returned are, in order, the tool calls
    of the real conversation whose id is not empty and is not the id of a
    moved pair: a call with an empty or a moved id is never returned, and
    every other call is. *)
Theorem output_tool_calls (finalMessages newMessages : list Message) :
  reconfigureFinalMessages finalMessages = Ok newMessages ->
  allToolCalls newMessages
  = filter (fun tc => idKept (movedIdsOf finalMessages) (tc_id tc))
      (allToolCalls (realConversationOf finalMessages)).
Proof. intros H. now apply output_tools_and_calls. Qed.

(** X23: an id is moved exactly when the input has three messages or more,
    the id is not empty, some tool message of the input (its first three
    messages included) carries it with a text content, the map of tool
    calls files a call under it, and the strategy does not keep it. *)
Theorem moved_ids_characterised (finalMessages : list Message) (k : string) :
  In k (movedIdsOf finalMessages)
  <-> 3 <= List.length finalMessages
      /\ k <> ""
      /\ (exists content, In (Tool (CText content) k) finalMessages)
      /\ (exists tc, Json.assoc k (collectToolCallMap finalMessages) = Some tc)
      /\ (let strategy := analyzeToolCallStrategy (realConversationOf finalMessages) in
          keepLastToolSequence strategy = false
          \/ JsString.includes k (lastToolCallIds strategy) = false).
Proof.
  unfold movedIdsOf, movedPairsOf, realConversationOf.
  destruct finalMessages as [|m0 [|m1 [|m2 real]]];
    try (split; [intros []|intros [H _]; simpl in H; lia]).
  unfold movableToolCallPairs. simpl skipn.
  pose proof (collectToolCallMap_keyed (m0 :: m1 :: m2 :: real)) as Hkeyed.
  rewrite Forall_forall in Hkeyed. split.
  - intros H. apply in_map_iff in H. destruct H as (p & <- & Hp).
    apply pairToolResults_inv in Hp.
    destruct Hp as (k & Hin & Hk & Hassoc & Hkeep).
    pose proof (Hkeyed _ (assoc_In _ _ Hassoc)) as [Hid _]. simpl in Hid.
    rewrite <- Hid.
    split; [simpl; lia|]. split; [now apply nonEmpty_iff|].
    split; [now exists (result p)|]. split; [now exists (toolCall p)|].
    destruct (keepLastToolSequence _); [right; now apply Hkeep|now left].
  - intros (_ & Hk & (content & Hin) & (tc & Hassoc) & Hmove).
    pose proof (Hkeyed _ (assoc_In _ _ Hassoc)) as [Hid _]. simpl in Hid.
    apply in_map_iff. exists (mkPair tc content). split; [now rewrite Hid|].
    now apply (@pairToolResults_intro _ _ _ content k tc).
Qed.

(** X24: an input of fewer than three messages is never refused and
    nothing of it is moved: the system prompt is built from no pair, no
    context and no file, every tool call with an id is returned and every
    tool message with an id is returned, rewritten. *)
Theorem short_input_moves_nothing (finalMessages : list Message) :
  List.length finalMessages < 3 ->
  exists rest,
    reconfigureFinalMessages finalMessages
    = Ok (System (CText (buildContextStuffedSystemPrompt [] "" [])) :: rest)
    /\ allToolCalls rest
       = filter (fun tc => nonEmpty (tc_id tc)) (allToolCalls finalMessages)
    /\ filter isTool rest = flat_map (keptToolMessage [] finalMessages) finalMessages.
Proof.
  intros Hlen.
  assert (Hd : deconstructMessages finalMessages
               = Ok (mkDeconstructed "" "" "" finalMessages [] [] [])).
  { destruct finalMessages as [|m0 [|m1 [|m2 real]]]; try reflexivity.
    simpl in Hlen. lia. }
  destruct (@reconfigure_returns finalMessages) as [newMessages Hnew].
  { destruct finalMessages as [|m0 [|m1 [|m2 real]]]; try (intros p []).
    simpl in Hlen. lia. }
  destruct (@output_tools_and_calls finalMessages newMessages Hnew) as [Htools Hcalls].
  assert (Hmoved : movedIdsOf finalMessages = []).
  { destruct finalMessages as [|m0 [|m1 [|m2 real]]]; try reflexivity.
    simpl in Hlen. lia. }
  assert (Hreal : realConversationOf finalMessages = finalMessages).
  { destruct finalMessages as [|m0 [|m1 [|m2 real]]]; try reflexivity.
    simpl in Hlen. lia. }
  rewrite Hmoved, Hreal in Htools, Hcalls.
  pose proof Hnew as Hinv. apply reconfigure_inv in Hinv.
  destruct Hinv as (d & Hd' & Heq). rewrite Hd in Hd'. injection Hd' as <-.
  simpl in Heq. rewrite Hnew, Heq. eexists. split; [reflexivity|].
  rewrite Heq in Htools, Hcalls. split.
  - rewrite <- (filter_ext (fun tc => idKept [] (tc_id tc))).
    + exact Hcalls.
    + intros tc. unfold idKept. simpl. apply andb_true_r.
  - exact Htools.
Qed.

(** *** Pairs that are no file operations *)

Lemma collectFileOperationIds_spec (pairs : list ToolCallPair) (ids : list string) :
  collectFileOperationIds pairs = Ok ids ->
  (forall p, In p pairs ->
             extractFileOperationFromToolCall (toolCall p) (result p) <> Throw)
  /\ (forall x, In x ids
                <-> exists p operation,
                      In p pairs /\ tc_id (toolCall p) = x
                      /\ extractFileOperationFromToolCall (toolCall p) (result p)
                         = Ok (Some operation)).
Proof.
  revert ids. induction pairs as [|p rest IH]; intros ids H; simpl in H.
  - injection H as <-. split; [intros p []|].
    intros x. split; [intros []|]. now intros (p & o & [] & _).
  - destruct (extractFileOperationFromToolCall (toolCall p) (result p))
      as [operation|] eqn:E; simpl in H; [|discriminate].
    destruct (collectFileOperationIds rest) as [ids'|]; simpl in H; [|discriminate].
    injection H as <-. destruct (IH ids' eq_refl) as [Hthrow Hids]. split.
    + intros q [<-|Hq]; [now rewrite E|now apply Hthrow].
    + intros x. destruct operation as [operation|].
      * simpl. rewrite Hids. split.
        -- intros [<-|(q & o & Hq & Hid & Ho)].
           ++ exists p, operation. now repeat split; [left|..].
           ++ exists q, o. now repeat split; [right|..].
        -- intros (q & o & [<-|Hq] & Hid & Ho); [now left|].
           right. now exists q, o.
      * rewrite Hids. split.
        -- intros (q & o & Hq & Hid & Ho). exists q, o. now repeat split; [right|..].
        -- intros (q & o & [<-|Hq] & Hid & Ho).
           ++ rewrite E in Ho. discriminate.
           ++ now exists q, o.
Qed.

Lemma collectFileOperationIds_throws (pairs : list ToolCallPair) :
  collectFileOperationIds pairs = Throw ->
  exists p, In p pairs
            /\ extractFileOperationFromToolCall (toolCall p) (result p) = Throw.
Proof.
  induction pairs as [|p rest IH]; simpl; [discriminate|].
  destruct (extractFileOperationFromToolCall (toolCall p) (result p))
    as [operation|] eqn:E; simpl.
  - destruct (collectFileOperationIds rest) as [ids'|]; simpl; [discriminate|].
    intros _. destruct (IH eq_refl) as (q & Hq & Ht). exists q. split; [now right|exact Ht].
  - intros _. exists p. split; [now left|exact E].
Qed.

(** X25: the filter of the pairs kept for the tool-call section is refused
    exactly when the classifier throws on a pair.  Otherwise it returns, in
    order, the pairs whose id is the id of no pair that classifies as a
    file operation; so a pair it returns is never a file operation. *)
Theorem filter_keeps_no_file_operation (pairs : list ToolCallPair) :
  (filterToolCallsForVirtualFileSystem pairs = Throw
   <-> exists p, In p pairs
                 /\ extractFileOperationFromToolCall (toolCall p) (result p) = Throw)
  /\ (forall kept,
        filterToolCallsForVirtualFileSystem pairs = Ok kept ->
        (exists keep, kept = filter keep pairs)
        /\ forall p,
             In p kept
             <-> In p pairs
                 /\ forall q, In q pairs ->
                              tc_id (toolCall q) = tc_id (toolCall p) ->
                              extractFileOperationFromToolCall (toolCall q) (result q)
                              = Ok None).
Proof.
  unfold filterToolCallsForVirtualFileSystem.
  destruct (collectFileOperationIds pairs) as [ids|] eqn:E; simpl.
  - destruct (@collectFileOperationIds_spec pairs ids E) as [Hthrow Hids]. split.
    + split; [discriminate|]. intros (p & Hp & Ht). now elim (Hthrow p Hp).
    + intros kept [= <-]. split; [now eexists|].
      intros p. rewrite filter_In, negb_true_iff. split.
      * intros [Hp Hout]. split; [exact Hp|]. intros q Hq Hid.
        destruct (extractFileOperationFromToolCall (toolCall q) (result q))
          as [[operation|]|] eqn:Eq; [|reflexivity|now elim (Hthrow q Hq)].
        assert (Hin : In (tc_id (toolCall p)) ids).
        { apply Hids. now exists q, operation. }
        apply includes_In in Hin. rewrite Hin in Hout. discriminate.
      * intros [Hp Hnone]. split; [exact Hp|].
        destruct (JsString.includes (tc_id (toolCall p)) ids) eqn:Hin;
          [|reflexivity].
        apply includes_In, Hids in Hin. destruct Hin as (q & o & Hq & Hid & Ho).
        rewrite (Hnone q Hq Hid) in Ho. discriminate.
  - split; [|discriminate]. split; [|reflexivity].
    intros _. now apply collectFileOperationIds_throws.
Qed.

(** *** The context read from the canned user message *)

Lemma stripPrefix_spec (prefix s rest : string) :
  JsString.stripPrefix prefix s = Some rest -> s = prefix ++ rest.
Proof.
  revert s. induction prefix as [|a prefix IH]; intros s; simpl.
  - now intros [= ->].
  - destruct s as [|b s]; [discriminate|].
    destruct (Ascii.eqb_spec a b) as [->|]; [|discriminate].
    intros H. now rewrite (IH s H).
Qed.

Lemma stripPrefix_append (prefix rest : string) :
  JsString.stripPrefix prefix (prefix ++ rest) = Some rest.
Proof.
  induction prefix as [|a prefix IH]; simpl; [reflexivity|].
  now rewrite Ascii.eqb_refl.
Qed.

Lemma startsWith_append (prefix rest : string) :
  JsString.startsWith prefix (prefix ++ rest) = true.
Proof.
  induction prefix as [|a prefix IH]; simpl; [reflexivity|].
  now rewrite Ascii.eqb_refl.
Qed.

Lemma containsText_middle (needle before rest : string) :
  JsString.containsText needle (before ++ needle ++ rest) = true.
Proof.
  induction before as [|b before IH].
  - simpl append. destruct (needle ++ rest) eqn:E; cbn [JsString.containsText];
      rewrite <- E, startsWith_append; reflexivity.
  - cbn [append JsString.containsText]. rewrite IH. apply orb_true_r.
Qed.

Lemma matchAfter_unfold (prefix : string) (inClass : ascii -> bool) (s : string) :
  matchAfter prefix inClass s
  = match match JsString.stripPrefix prefix s with
          | Some rest =>
              match JsString.takeWhile inClass (list_ascii_of_string rest) with
              | [] => None
              | captured => Some (string_of_list_ascii captured)
              end
          | None => None
          end with
    | Some captured => Some captured
    | None =>
        match s with
        | EmptyString => None
        | String _ rest => matchAfter prefix inClass rest
        end
    end.
Proof. destruct s; reflexivity. Qed.

Lemma capture_here (prefix : string) (inClass : ascii -> bool)
  (s rest : string) (x : ascii) (t : list ascii) :
  JsString.stripPrefix prefix s = Some rest ->
  JsString.takeWhile inClass (list_ascii_of_string rest) = x :: t ->
  capturedAfter prefix inClass s (JsString.trim (string_of_list_ascii (x :: t))).
Proof.
  intros Es Et.
  exists "", (string_of_list_ascii (x :: t)),
    (string_of_list_ascii (JsString.dropWhile inClass (list_ascii_of_string rest))).
  split.
  - apply stripPrefix_spec in Es. rewrite Es. cbn [append]. f_equal.
    rewrite <- Et, <- string_of_list_ascii_app, takeWhile_dropWhile.
    now rewrite string_of_list_ascii_of_string.
  - split; [discriminate|]. split.
    + rewrite list_ascii_of_string_of_list_ascii, <- Et. apply takeWhile_all.
    + split; [|reflexivity].
      rewrite list_ascii_of_string_of_list_ascii.
      destruct (JsString.dropWhile inClass (list_ascii_of_string rest)) eqn:Ed;
        [exact I|]. now apply dropWhile_head in Ed.
Qed.

Lemma matchAfter_sound (prefix : string) (inClass : ascii -> bool)
  (s captured : string) :
  matchAfter prefix inClass s = Some captured ->
  capturedAfter prefix inClass s (JsString.trim captured).
Proof.
  assert (Hlater : forall a s value,
            capturedAfter prefix inClass s value ->
            capturedAfter prefix inClass (String a s) value).
  { intros a s0 value (before & m & after & -> & Hrest).
    now exists (String a before), m, after. }
  induction s as [|a s IH]; rewrite matchAfter_unfold.
  - destruct (JsString.stripPrefix prefix "") as [rest|] eqn:Es; [|discriminate].
    destruct (JsString.takeWhile inClass (list_ascii_of_string rest)) as [|x t] eqn:Et;
      [discriminate|].
    intros [= <-]. now apply (@capture_here prefix inClass "" rest x t).
  - destruct (JsString.stripPrefix prefix (String a s)) as [rest|] eqn:Es.
    + destruct (JsString.takeWhile inClass (list_ascii_of_string rest))
        as [|x t] eqn:Et.
      * intros H. apply Hlater. now apply IH.
      * intros [= <-]. now apply (@capture_here prefix inClass (String a s) rest x t).
    + intros H. apply Hlater. now apply IH.
Qed.

Lemma matchAfter_none (prefix : string) (inClass : ascii -> bool) (s : string) :
  matchAfter prefix inClass s = None ->
  forall before c after,
    s = before ++ prefix ++ String c after -> inClass c = false.
Proof.
  intros H before. revert s H.
  induction before as [|b before IH]; intros s H c after ->;
    rewrite matchAfter_unfold in H.
  - simpl append in H. rewrite stripPrefix_append in H. simpl in H.
    destruct (inClass c); [discriminate|reflexivity].
  - destruct (JsString.stripPrefix prefix _) as [rest|].
    + destruct (JsString.takeWhile inClass (list_ascii_of_string rest));
        [|discriminate].
      cbn [append] in H. now apply (IH _ H c after).
    + cbn [append] in H. now apply (IH _ H c after).
Qed.

Lemma matchAfter_found (prefix : string) (inClass : ascii -> bool)
  (s captured : string) :
  matchAfter prefix inClass s = Some captured ->
  JsString.containsText prefix s = true.
Proof.
  intros H. apply matchAfter_sound in H.
  destruct H as (before & m & after & -> & _). apply containsText_middle.
Qed.

(** X26: the date, the operating system and the directory shown in the
    system prompt.  Each is either its default (today's date, [unknown],
    the directory of the process) or the trimmed text that follows its
    marker somewhere in the canned user message, up to the end of the line
    (for the date, up to the first full stop as well); it is the default
    when the message is empty or does not hold the marker. *)
Theorem context_fields_come_from_the_context (cannedUserContext : string) :
  let info := extractContextInfo cannedUserContext in
  let notLF := fun c => negb (Ascii.eqb c JsString.LF) in
  let dateClass := fun c => negb (Ascii.eqb c "."%char) && notLF c in
  (cannedUserContext = ""
   -> info = mkContextInfo currentDateString "unknown" processCwd)
  /\ (ctx_date info = currentDateString
      \/ capturedAfter "Today's date is " dateClass cannedUserContext (ctx_date info))
  /\ (ctx_os info = "unknown"
      \/ capturedAfter "My operating system is: " notLF cannedUserContext
           (ctx_os info))
  /\ (ctx_cwd info = processCwd
      \/ capturedAfter "I'm currently working in the directory: " notLF
           cannedUserContext (ctx_cwd info))
  /\ (JsString.containsText "Today's date is " cannedUserContext = false
      -> ctx_date info = currentDateString)
  /\ (JsString.containsText "My operating system is: " cannedUserContext = false
      -> ctx_os info = "unknown")
  /\ (JsString.containsText "I'm currently working in the directory: "
        cannedUserContext = false
      -> ctx_cwd info = processCwd).
Proof.
  intros info notLF dateClass. subst info notLF dateClass.
  unfold extractContextInfo. cbv beta zeta.
  split; [now intros ->|].
  destruct (nonEmpty cannedUserContext); cbn [negb];
    [|repeat split; try (now left); reflexivity].
  cbn [ctx_date ctx_os ctx_cwd].
  repeat split.
  - destruct (matchAfter "Today's date is " _ cannedUserContext) eqn:E;
      [right; now apply matchAfter_sound|now left].
  - destruct (matchAfter "My operating system is: " _ cannedUserContext) eqn:E;
      [right; now apply matchAfter_sound|now left].
  - destruct (matchAfter "I'm currently working in the directory: " _
                cannedUserContext) eqn:E;
      [right; now apply matchAfter_sound|now left].
  - intros Hc.
    destruct (matchAfter "Today's date is " _ cannedUserContext) eqn:E;
      [|reflexivity].
    apply matchAfter_found in E. rewrite E in Hc. discriminate.
  - intros Hc.
    destruct (matchAfter "My operating system is: " _ cannedUserContext) eqn:E;
      [|reflexivity].
    apply matchAfter_found in E. rewrite E in Hc. discriminate.
  - intros Hc.
    destruct (matchAfter "I'm currently working in the directory: " _
                cannedUserContext) eqn:E; [|reflexivity].
    apply matchAfter_found in E. rewrite E in Hc. discriminate.
Qed.

(** *** Moved results are shown *)

Lemma renderToolCallPairs_shows (count i : nat) (pairs : list ToolCallPair)
  (p : ToolCallPair) :
  In p pairs ->
  exists before after j,
    renderToolCallPairs count i pairs
    = before ++ renderToolCallPair count j p ++ after.
Proof.
  revert i. induction pairs as [|q pairs IH]; intros i Hin; [destruct Hin|].
  cbn [renderToolCallPairs]. destruct Hin as [->|Hin].
  - now exists "", (renderToolCallPairs count (S i) pairs), i.
  - destruct (IH (S i) Hin) as (b & a & j & E). rewrite E.
    exists (renderToolCallPair count i q ++ b), a, j.
    now rewrite append_associative.
Qed.

Lemma systemPrompt_shows (pairs : list ToolCallPair) (context : string)
  (vfs : VirtualFileSystem) (p : ToolCallPair) :
  In p pairs -> shownIn (buildContextStuffedSystemPrompt pairs context vfs) p.
Proof.
  intros Hin. unfold shownIn, buildContextStuffedSystemPrompt, toolCallsSection.
  destruct pairs as [|q pairs]; [destruct Hin|]. cbv beta iota.
  destruct (@renderToolCallPairs_shows (List.length (q :: pairs)) 0 (q :: pairs) p Hin)
    as (b & a & j & E).
  rewrite E.
  set (shown := renderToolCallPair (List.length (q :: pairs)) j p).
  assert (H : exists b' a',
             Text.cleanedSystemPrompt ++ environmentSection context
             ++ generateVirtualFileSystemContext vfs
             ++ JsString.newline ++ JsString.newline ++ Text.toolCallsBanner
             ++ JsString.newline ++ JsString.newline ++ b ++ shown ++ a
             = b' ++ shown ++ a').
  { clearbody shown. find_middle. }
  destruct H as (b' & a' & H).
  exists b', a', (List.length (q :: pairs)), j. exact H.
Qed.

(** X27: a moved pair that is no file operation is not lost: when no moved
    pair with its id classifies as a file operation, the system message of
    the list returned shows its name, its arguments and its result (cut by
    the search-result truncator). *)
Theorem moved_result_is_shown (finalMessages newMessages : list Message)
  (p : ToolCallPair) :
  reconfigureFinalMessages finalMessages = Ok newMessages ->
  In p (movedPairsOf finalMessages) ->
  (forall q, In q (movedPairsOf finalMessages) ->
             tc_id (toolCall q) = tc_id (toolCall p) ->
             extractFileOperationFromToolCall (toolCall q) (result q) = Ok None) ->
  exists prompt rest,
    newMessages = System (CText prompt) :: rest /\ shownIn prompt p.
Proof.
  intros H Hp Hnone. apply reconfigure_inv in H. destruct H as (d & Hd & ->).
  destruct (@deconstruct_inv finalMessages d Hd) as (_ & _ & Hids & Hfilter).
  unfold filterToolCallsForVirtualFileSystem in Hfilter.
  rewrite Hids in Hfilter. simpl in Hfilter. injection Hfilter as Hf.
  destruct (@collectFileOperationIds_spec _ _ Hids) as [_ Hspec].
  eexists. eexists. split; [reflexivity|].
  apply systemPrompt_shows. rewrite <- Hf. apply filter_In. split; [exact Hp|].
  apply negb_true_iff, not_true_iff_false. intros Hin.
  apply includes_In, Hspec in Hin. destruct Hin as (q & o & Hq & Hid & Ho).
  rewrite (Hnone q Hq Hid) in Ho. discriminate.
Qed.

(** *** The result that closes the conversation *)

Lemma last_result_is_kept (before : list Message) (content : Content)
  (toolCallId : string) :
  toolCallId <> "" ->
  let strategy := analyzeToolCallStrategy (before ++ [Tool content toolCallId])%list in
  keepLastToolSequence strategy = true
  /\ JsString.includes toolCallId (lastToolCallIds strategy) = true.
Proof.
  intros Hne strategy. subst strategy.
  rewrite analyze_ends_in_tool. unfold strategyForToolResult.
  pose proof (proj2 (nonEmpty_iff toolCallId) Hne) as Hn. rewrite Hn.
  destruct (findAssistantMessageWithToolCalls _ toolCallId) as [calls|] eqn:E.
  - simpl. split; [reflexivity|]. apply includes_In, filter_In. split; [|exact Hn].
    apply findAssistant_some in E. unfold hasToolCallId in E.
    apply existsb_exists in E. destruct E as (tc & Hin & Heq).
    apply String.eqb_eq in Heq. apply in_map_iff. now exists tc.
  - simpl. split; [reflexivity|]. now rewrite String.eqb_refl.
Qed.

(** X28: a tool result with an id that closes the real conversation is
    never moved, whether or not a call carries its id, and it closes the
    list returned, its content rewritten by the search-result truncator. *)
Theorem closing_tool_result_stays
  (before finalMessages newMessages : list Message)
  (content : Content) (toolCallId : string) :
  realConversationOf finalMessages = (before ++ [Tool content toolCallId])%list ->
  toolCallId <> "" ->
  reconfigureFinalMessages finalMessages = Ok newMessages ->
  ~ In toolCallId (movedIdsOf finalMessages)
  /\ exists front,
       newMessages
       = (front ++ [Tool (rewrittenContent (realConversationOf finalMessages)
                            content toolCallId) toolCallId])%list.
Proof.
  intros Hlast Hne H.
  apply reconfigure_inv in H. destruct H as (d & Hd & ->).
  pose proof (@deconstruct_inv finalMessages d Hd) as (Hreal & _).
  destruct (@last_result_is_kept before content toolCallId Hne) as [Hkeep Hinc].
  rewrite <- Hlast in Hkeep, Hinc.
  assert (Hnot : ~ In toolCallId (movedIdsOf finalMessages)).
  { intros Hin. unfold movedIdsOf in Hin. apply in_map_iff in Hin.
    destruct Hin as (p & Hid & Hp).
    destruct (@moved_pair_id finalMessages p Hp) as [_ Hno].
    rewrite Hid, Hinc in Hno. now discriminate (Hno Hkeep). }
  split; [exact Hnot|].
  assert (Hkept : idKept (movedToSystemPromptToolCallIds d) toolCallId = true).
  { rewrite (@moved_idKept finalMessages d toolCallId Hd). unfold idKept.
    rewrite (proj2 (nonEmpty_iff toolCallId) Hne). simpl.
    apply negb_true_iff, not_true_iff_false. intros Hin. now apply includes_In in Hin. }
  rewrite Hreal.
  set (real := realConversationOf finalMessages) in *.
  set (strategy := analyzeToolCallStrategy real) in *.
  set (moved := movedToSystemPromptToolCallIds d) in *.
  exists (System (CText (buildContextStuffedSystemPrompt (toolCallPairs d)
                           (cannedUserContext d) (virtualFileSystem d)))
          :: collapseFrom None (rebuildFrom d strategy moved 0 before)).
  cbn [app]. f_equal.
  rewrite Hlast at 1. rewrite rebuildFrom_app. cbn [rebuildFrom].
  rewrite (@rebuildMessage_kept_tool d strategy moved
             (0 + List.length before) content toolCallId Hkept).
  rewrite Hreal, app_nil_r.
  now rewrite collapseFrom_split by reflexivity.
Qed.

End Refocus.

(** C8: the file ["one\ntwo\n"] read with the default offset and limit has a
    third entry, holding the empty text. *)
Lemma readFileRange_trailing_newline_counterexample :
  Examples.readFileSync (JString "/notes.txt")
  = Some ("one" ++ JsString.newline ++ "two" ++ JsString.newline)
  /\ readFileRange Examples.readFileSync (JString "/notes.txt") None None
     = [(1, "one"); (2, "two"); (3, "")]
  /\ readFileRange Examples.readFileSync (JString "/notes.txt") None None
     <> [(1, "one"); (2, "two")].
Proof.
  split; [reflexivity|]. split; [reflexivity|]. discriminate.
Qed.

Lemma readFileRange_default_witness :
  Examples.readFileSync (JString "/notes.txt")
  = Some ("one" ++ JsString.newline ++ "two" ++ JsString.newline)
  /\ List.length (readFileRange Examples.readFileSync (JString "/notes.txt") None None)
     = 3.
Proof.
  split; [reflexivity|].
  exact (proj1 (proj2 (@readFileRange_default_numbers_every_piece
                         Examples.readFileSync (JString "/notes.txt") _ eq_refl))).
Defined.



Lemma call_without_id_witness :
  extractFileOperationFromToolCall JsonText.parse Examples.readCallNoId "one"
  = Ok None.
Proof.
  exact (proj1 (call_without_id_is_never_a_file_operation JsonText.parse
                  Examples.readFileSync) Examples.readCallNoId "one" eq_refl).
Defined.

(* ===================================================================== *)
(** ** Concrete runs *)
(* ===================================================================== *)

(** C1: the fourth message of [Examples.callInPreamble] answers a call of
    the third; the third is cut off with the preamble and the tool message
    stays, with no assistant message before it. *)
Lemma tool_linkage_counterexample :
  toolLinked Examples.callInPreamble
  /\ List.tl (returned (reconfigureFinalMessages JsonText.parse JsonText.stringify
                          (JsonText.stringifyIndent 0) Examples.readFileSync
                          Examples.today Examples.cwd Examples.callInPreamble))
     = [Tool (CText "done") "call_s1"]
  /\ ~ toolLinked
         (returned (reconfigureFinalMessages JsonText.parse JsonText.stringify
                      (JsonText.stringifyIndent 0) Examples.readFileSync
                      Examples.today Examples.cwd Examples.callInPreamble)).
Proof.
  split; [|split].
  - intros i c k Hi.
    destruct i as [|[|[|[|i]]]]; simpl in Hi; try discriminate.
    + injection Hi as <- <-.
      exists 2, (CText "Got it."), [Examples.shellCall], Examples.shellCall.
      repeat split; [lia|now left].
    + destruct i; discriminate.
  - vm_compute. reflexivity.
  - intros H.
    destruct (H 1 (CText "done") "call_s1") as (j & c' & calls & tc & Hj & Hn & _).
    + vm_compute. reflexivity.
    + assert (j = 0) by lia. subst j. vm_compute in Hn. discriminate.
Qed.

Lemma output_is_tool_linked_witness :
  toolLinked
    (returned (reconfigureFinalMessages JsonText.parse JsonText.stringify
                 (JsonText.stringifyIndent 0) Examples.readFileSync
                 Examples.today Examples.cwd Examples.lastCycleRead)).
Proof.
  refine (proj1 (@output_is_tool_linked JsonText.parse JsonText.stringify
                   (JsonText.stringifyIndent 0) Examples.readFileSync
                   Examples.today Examples.cwd Examples.lastCycleRead _ _) _).
  - vm_compute. reflexivity.
  - intros i c k Hi.
    destruct i as [|[|[|i]]]; simpl in Hi; try discriminate.
    + injection Hi as <- <-.
      exists 1, (CText ""), [Examples.readCall], Examples.readCall.
      repeat split; [lia|now left].
    + destruct i; discriminate.
Defined.


(** C3: the result of a [search_file_content] call that closes the input
    comes out rewritten, cut to twenty result lines; the tool message of
    the input is not in the output. *)
Lemma kept_search_result_counterexample :
  last Examples.lastCycleSearch (System CNull)
  = Tool (CText Examples.searchResult) "call_g1"
  /\ In (Assistant (CText "") (ToolCallsList [Examples.searchCall]))
        (realConversationOf Examples.lastCycleSearch)
  /\ last (returned (reconfigureFinalMessages JsonText.parse JsonText.stringify
                       (JsonText.stringifyIndent 0) Examples.readFileSync
                       Examples.today Examples.cwd Examples.lastCycleSearch))
          (System CNull)
     = Tool (CText (JsonText.stringify
                      (JObject [("output",
                                 JString (JsString.joinLines
                                            (repeat "L7: hit" 20
                                             ++ ["[... truncated 1 more results]"])%list))])))
         "call_g1"
  /\ ~ In (Tool (CText Examples.searchResult) "call_g1")
         (returned (reconfigureFinalMessages JsonText.parse JsonText.stringify
                      (JsonText.stringifyIndent 0) Examples.readFileSync
                      Examples.today Examples.cwd Examples.lastCycleSearch)).
Proof.
  split; [reflexivity|]. split; [now left|]. split; [vm_compute; reflexivity|].
  intros H.
  apply (in_map (fun m => match m with
                          | Tool (CText s) _ => String.length s
                          | _ => 0
                          end)) in H.
  vm_compute in H. intuition discriminate.
Qed.

Lemma output_ends_in_kept_tool_result_witness :
  exists front,
    returned (reconfigureFinalMessages JsonText.parse JsonText.stringify
                (JsonText.stringifyIndent 0) Examples.readFileSync
                Examples.today Examples.cwd Examples.lastCycleRead)
    = (front ++ [Tool (CText "one") "call_r1"])%list.
Proof.
  destruct (@output_ends_in_kept_tool_result JsonText.parse JsonText.stringify
              (JsonText.stringifyIndent 0) Examples.readFileSync
              Examples.today Examples.cwd
              (Examples.preamble
               ++ [User (CText "show me the file");
                   Assistant (CText "") (ToolCallsList [Examples.readCall])])%list
              Examples.lastCycleRead
              (returned (reconfigureFinalMessages JsonText.parse JsonText.stringify
                           (JsonText.stringifyIndent 0) Examples.readFileSync
                           Examples.today Examples.cwd Examples.lastCycleRead))
              (CText "one") "call_r1")
    as (front & Hout & _).
  - reflexivity.
  - discriminate.
  - exists (CText ""), [Examples.readCall]. split; [|reflexivity].
    right. now left.
  - vm_compute. reflexivity.
  - exists front. exact Hout.
Defined.

Lemma analyze_keeps_whole_fan_out_witness :
  In "call_s1" (lastToolCallIds (analyzeToolCallStrategy Examples.fanOut))
  /\ In "call_r1" (lastToolCallIds (analyzeToolCallStrategy Examples.fanOut)).
Proof.
  pose proof (@analyze_keeps_whole_fan_out
                [User (CText "Please continue.");
                 Assistant (CText "working")
                   (ToolCallsList [Examples.shellCall; Examples.readCall]);
                 Tool (CText "done") "call_s1"]
                (CText "one") "call_r1") as (_ & Hfan & _).
  assert (Hall : forall x,
             In x (lastToolCallIds (analyzeToolCallStrategy Examples.fanOut))
             <-> x <> "" /\ exists tc, In tc [Examples.shellCall; Examples.readCall]
                                       /\ tc_id tc = x).
  { apply (Hfan [User (CText "Please continue.")] (CText "working")
             [Examples.shellCall; Examples.readCall]
             [Tool (CText "done") "call_s1"; Tool (CText "one") "call_r1"]).
    - discriminate.
    - reflexivity.
    - reflexivity.
    - intros c calls [Habs|[]]. discriminate. }
  split; apply Hall; (split; [discriminate|]).
  - exists Examples.shellCall. split; [now left|reflexivity].
  - exists Examples.readCall. split; [right; now left|reflexivity].
Defined.





Lemma please_continue_kept_only_last_witness :
  filter isUser
    (returned (reconfigureFinalMessages JsonText.parse JsonText.stringify
                 (JsonText.stringifyIndent 0) Examples.readFileSync
                 Examples.today Examples.cwd
                 (Examples.lastCycleRead ++ [User (CText "Please continue.")])%list))
  = [User (CText "show me the file"); User (CText "Please continue.")].
Proof.
  assert (H : reconfigureFinalMessages JsonText.parse JsonText.stringify
                 (JsonText.stringifyIndent 0) Examples.readFileSync
                 Examples.today Examples.cwd
                 (Examples.lastCycleRead ++ [User (CText "Please continue.")])%list
               = Ok (returned
                       (reconfigureFinalMessages JsonText.parse JsonText.stringify
                          (JsonText.stringifyIndent 0) Examples.readFileSync
                          Examples.today Examples.cwd
                          (Examples.lastCycleRead
                           ++ [User (CText "Please continue.")])%list)))
    by (vm_compute; reflexivity).
  rewrite (proj1 (@please_continue_kept_only_last JsonText.parse JsonText.stringify
                    (JsonText.stringifyIndent 0) Examples.readFileSync
                    Examples.today Examples.cwd _ _ H)).
  vm_compute. reflexivity.
Defined.

(** The classifier reads a property of [null] when the arguments of a moved
    file-operation call decode to [null]: nothing is returned. *)
Example null_arguments_throw :
  reconfigureFinalMessages JsonText.parse JsonText.stringify
    (JsonText.stringifyIndent 0) Examples.readFileSync
    Examples.today Examples.cwd Examples.nullArguments
  = Throw.
Proof. vm_compute. reflexivity. Qed.

(* ===================================================================== *)
(** ** Concrete runs of the further properties *)
(* ===================================================================== *)

(** X2: lines 2 and 3 read again over lines 1 and 2: line 2 is the one
    just read. *)
Lemma lineMapAssign_get_witness :
  lineMapGet 2 (lineMapAssign [(1, "a"); (2, "b")] [(2, "B"); (3, "c")]) = Some "B".
Proof.
  refine (proj1 (@lineMapAssign_get [(1, "a"); (2, "b")] [(2, "B"); (3, "c")] _) 2).
  simpl. repeat split; lia.
Defined.

(** X4: two lines of [/a.txt] from offset 1. *)
Lemma readFileRange_numeric_window_witness :
  readFileRange Examples.readFileSync (JString "/a.txt")
    (Some (JNumber 1)) (Some (JNumber 2))
  = [(2, "two"); (3, "three")].
Proof.
  refine (@readFileRange_numeric_window Examples.readFileSync (JString "/a.txt")
            1 2 _ eq_refl _).
  lia.
Defined.

(** X6: [/a.txt], read whole, is one range of four lines. *)
Lemma whole_file_is_one_range_witness :
  groupLinesIntoRanges (readFileRange Examples.readFileSync (JString "/a.txt") None None)
  = [mkRange 1 4 ["one"; "two"; "three"; "four"]].
Proof.
  exact (proj1 (@whole_file_is_one_range Examples.readFileSync (JString "/a.txt")
                  _ eq_refl)).
Defined.

(** X7: a write of [/b.txt] files the file as it is on disk. *)
Lemma write_replaces_witness :
  exists vfs',
    trackOperation JsonText.parse Examples.readFileSync
      [("/b.txt", [(1, "stale"); (2, "lines")])] (mkPair Examples.writeCall "ok")
    = Ok vfs'
    /\ Json.assoc "/b.txt" vfs' = Some [(1, "X")].
Proof.
  assert (Hpath : "/b.txt" <> "") by discriminate.
  destruct (proj1 (@write_replaces_and_read_after_write_keeps JsonText.parse
                     Examples.readFileSync
                     [("/b.txt", [(1, "stale"); (2, "lines")])]
                     (mkPair Examples.writeCall "ok")
                     (mkFileOperation OpWrite (JString "/b.txt")
                        (Some (JString "OLD")) "call_w1")
                     "/b.txt" eq_refl eq_refl Hpath eq_refl))
    as (vfs' & Htrack & Hfiled & _).
  - discriminate.
  - exists vfs'. split; [exact Htrack|exact Hfiled].
Defined.

(** X9: a read cycle, then ["Please continue."]. *)
Lemma analyze_ignores_final_please_continue_witness :
  analyzeToolCallStrategy
    [Assistant (CText "") (ToolCallsList [Examples.readCall]);
     Tool (CText "one") "call_r1"; User (CText " Please continue. ")]
  = mkStrategy true ["call_r1"].
Proof.
  change (analyzeToolCallStrategy
            ([Assistant (CText "") (ToolCallsList [Examples.readCall])]
             ++ [Tool (CText "one") "call_r1"; User (CText " Please continue. ")])%list
          = mkStrategy true ["call_r1"]).
  rewrite (@analyze_ignores_final_please_continue
             [Assistant (CText "") (ToolCallsList [Examples.readCall])]
             (CText "one") "call_r1" (CText " Please continue. ") eq_refl).
  reflexivity.
Defined.

(** X10: the [write_file] call of the examples. *)
Lemma classifier_is_sound_witness :
  toolCallId (mkFileOperation OpWrite (JString "/b.txt") (Some (JString "OLD")) "call_w1")
  = tc_id Examples.writeCall
  /\ tc_name Examples.writeCall = "write_file".
Proof.
  destruct (@classifier_is_sound JsonText.parse Examples.writeCall "ok"
              (mkFileOperation OpWrite (JString "/b.txt") (Some (JString "OLD"))
                 "call_w1") eq_refl)
    as (_ & Hid & Hname & _).
  split; [exact Hid|exact Hname].
Defined.

(** X21: of the two results of [Examples.twoCycles], the one of the last
    cycle is returned. *)
Lemma output_tool_messages_witness :
  filter isTool
    (returned (reconfigureFinalMessages JsonText.parse JsonText.stringify
                 (JsonText.stringifyIndent 0) Examples.readFileSync
                 Examples.today Examples.cwd Examples.twoCycles))
  = [Tool (CText "one") "call_r1"].
Proof.
  assert (H : reconfigureFinalMessages JsonText.parse JsonText.stringify
                 (JsonText.stringifyIndent 0) Examples.readFileSync
                 Examples.today Examples.cwd Examples.twoCycles
               = Ok (returned
                       (reconfigureFinalMessages JsonText.parse JsonText.stringify
                          (JsonText.stringifyIndent 0) Examples.readFileSync
                          Examples.today Examples.cwd Examples.twoCycles)))
    by (vm_compute; reflexivity).
  rewrite (@output_tool_messages JsonText.parse JsonText.stringify
             (JsonText.stringifyIndent 0) Examples.readFileSync
             Examples.today Examples.cwd _ _ H).
  vm_compute. reflexivity.
Defined.

(** X22: and so is the call of the last cycle, alone. *)
Lemma output_tool_calls_witness :
  allToolCalls
    (returned (reconfigureFinalMessages JsonText.parse JsonText.stringify
                 (JsonText.stringifyIndent 0) Examples.readFileSync
                 Examples.today Examples.cwd Examples.twoCycles))
  = [Examples.readCall].
Proof.
  assert (H : reconfigureFinalMessages JsonText.parse JsonText.stringify
                 (JsonText.stringifyIndent 0) Examples.readFileSync
                 Examples.today Examples.cwd Examples.twoCycles
               = Ok (returned
                       (reconfigureFinalMessages JsonText.parse JsonText.stringify
                          (JsonText.stringifyIndent 0) Examples.readFileSync
                          Examples.today Examples.cwd Examples.twoCycles)))
    by (vm_compute; reflexivity).
  rewrite (@output_tool_calls JsonText.parse JsonText.stringify
             (JsonText.stringifyIndent 0) Examples.readFileSync
             Examples.today Examples.cwd _ _ H).
  vm_compute. reflexivity.
Defined.

(** X24: an input of two messages keeps its call. *)
Lemma short_input_moves_nothing_witness :
  exists rest,
    reconfigureFinalMessages JsonText.parse JsonText.stringify
      (JsonText.stringifyIndent 0) Examples.readFileSync
      Examples.today Examples.cwd Examples.shortInput
    = Ok (System (CText (buildContextStuffedSystemPrompt JsonText.parse
                           JsonText.stringify (JsonText.stringifyIndent 0)
                           Examples.today Examples.cwd [] "" [])) :: rest)
    /\ allToolCalls rest = [Examples.shellCall].
Proof.
  destruct (@short_input_moves_nothing JsonText.parse JsonText.stringify
              (JsonText.stringifyIndent 0) Examples.readFileSync
              Examples.today Examples.cwd Examples.shortInput)
    as (rest & Hrun & Hcalls & _).
  - simpl. lia.
  - exists rest. split; [exact Hrun|]. rewrite Hcalls. reflexivity.
Defined.

(** X27: the shell call of [Examples.twoCycles] is moved and shown. *)
Lemma moved_result_is_shown_witness :
  exists prompt rest,
    returned (reconfigureFinalMessages JsonText.parse JsonText.stringify
                (JsonText.stringifyIndent 0) Examples.readFileSync
                Examples.today Examples.cwd Examples.twoCycles)
    = System (CText prompt) :: rest
    /\ shownIn JsonText.parse JsonText.stringify (JsonText.stringifyIndent 0)
         prompt (mkPair Examples.shellCall "done").
Proof.
  apply (@moved_result_is_shown JsonText.parse JsonText.stringify
           (JsonText.stringifyIndent 0) Examples.readFileSync
           Examples.today Examples.cwd Examples.twoCycles).
  - vm_compute. reflexivity.
  - left. reflexivity.
  - intros q [<-|[]] _. vm_compute. reflexivity.
Defined.

(** X28: the read that closes [Examples.twoCycles] closes the list
    returned. *)
Lemma closing_tool_result_stays_witness :
  ~ In "call_r1" (movedIdsOf Examples.twoCycles)
  /\ exists front,
       returned (reconfigureFinalMessages JsonText.parse JsonText.stringify
                   (JsonText.stringifyIndent 0) Examples.readFileSync
                   Examples.today Examples.cwd Examples.twoCycles)
       = (front ++ [Tool (CText "one") "call_r1"])%list.
Proof.
  apply (@closing_tool_result_stays JsonText.parse JsonText.stringify
           (JsonText.stringifyIndent 0) Examples.readFileSync
           Examples.today Examples.cwd
           [Assistant (CText "") (ToolCallsList [Examples.shellCall]);
            Tool (CText "done") "call_s1";
            User (CText "and the file?");
            Assistant (CText "") (ToolCallsList [Examples.readCall])]
           Examples.twoCycles
           (returned (reconfigureFinalMessages JsonText.parse JsonText.stringify
                        (JsonText.stringifyIndent 0) Examples.readFileSync
                        Examples.today Examples.cwd Examples.twoCycles))
           (CText "one") "call_r1").
  - reflexivity.
  - discriminate.
  - vm_compute. reflexivity.
Defined.
